(** * Interstellar Armada: the control module ([src/control.js])

    A shallow embedding of the per-tick flight-control code: the keyboard
    state and the key-press queue, the manual ([FighterController]) and
    autonomous ([AIController]) spacecraft controllers, the camera rig
    ([controlCamera]) and the dispatcher ([control]).

    Conventions of the embedding.
    - JavaScript numbers that carry physical quantities are rationals [Q]
      (exact arithmetic); array indices and key codes are integers [Z].
    - 4x4 matrices and vectors are JavaScript arrays, here [list Q], read
      with [m.[i]].
    - The spacecraft methods that receive the controllers' output
      ([resetThrusterBurn], [addThrusterBurn], ...) are not part of
      [control.js]; a controller invocation yields the sequence of calls it
      makes to them ([ThrusterCall]).
    - The matrix and vector helpers and the entity's burn estimators, which
      [control.js] calls but does not define, are the fields of the
      classes [MatrixLib] and [SpacecraftApi]. *)

From Stdlib Require Import QArith Qminmax Qabs Lqa ZArith Lia.
From Equations Require Import Equations.
From stdpp Require Import base list gmap strings.

Open Scope Q_scope.

(** ** JavaScript primitives *)

(** [a < b] on numbers, as a test. *)
Definition Qltb (a b : Q) : bool :=
  match a ?= b with Lt => true | _ => false end.

(** [a > b] is [b < a]. *)
Definition Qgtb (a b : Q) : bool := Qltb b a.

Infix "<?" := Qltb : Q_scope.
Infix ">?" := Qgtb (at level 70) : Q_scope.

(** A value together with the equation that names it, for the loops below. *)
Definition inspect {A} (a : A) : {b | a = b} := exist _ a eq_refl.

(** Arrays of numbers; [m.[i]] is [m[i]] (the arrays of this module always
    have the element read). *)
Definition Matrix := list Q.
Definition Vector := list Q.

Definition el (m : list Q) (i : nat) : Q := nth i m 0.
Notation "m .[ i ]" := (el m i) (at level 1, left associativity, format "m .[ i ]").

(** [Array.prototype.splice(i, 1)]: a negative start counts from the end
    (and is clamped at 0); a start beyond the end removes nothing. *)
Definition splice1 {A} (i : Z) (l : list A) : list A :=
  let len := Z.of_nat (length l) in
  let start := if (i <? 0)%Z then Z.max (len + i) 0 else Z.min i len in
  delete (Z.to_nat start) l.

Lemma splice1_nat {A} (i : nat) (l : list A) :
  splice1 (Z.of_nat i) l = delete i l.
Proof.
  unfold splice1.
  destruct (Z.ltb_spec (Z.of_nat i) 0); [lia|].
  destruct (Z.min_spec (Z.of_nat i) (Z.of_nat (length l))) as [[_ ->]|[Hge ->]].
  - now rewrite Nat2Z.id.
  - rewrite Nat2Z.id.
    rewrite !delete_take_drop, !drop_ge, !take_ge by lia. reflexivity.
Qed.

Lemma splice1_length {A} (i : Z) (l : list A) :
  (i < Z.of_nat (length l))%Z ->
  length (splice1 i l) = (length l - 1)%nat.
Proof.
  intros Hi. unfold splice1.
  destruct l as [|a l]; [now destruct (Z.to_nat _)|].
  rewrite length_delete; [lia|]. apply lookup_lt_is_Some.
  cbn [length] in *. destruct (Z.ltb_spec i 0); lia.
Qed.

Lemma splice1_beyond {A} (i : Z) (l : list A) :
  (Z.of_nat (length l) <= i)%Z -> splice1 i l = l.
Proof.
  intros Hi. unfold splice1. destruct (Z.ltb_spec i 0); [lia|].
  rewrite Z.min_r by lia. rewrite Nat2Z.id.
  rewrite delete_take_drop, drop_ge, take_ge by lia.
  apply app_nil_r.
Qed.

(** ** Keyboard state *)

Record KeyEvent := {
  which : option Z;      (* [None] is [null] *)
  keyCode : Z;
  charCode : Z
}.

(** [String.fromCharCode] keeps the low 16 bits; a one-character string is
    its code unit. *)
Definition fromCharCode (n : Z) : Z := (n mod 65536)%Z.

Definition getChar (event : KeyEvent) : option Z :=
  match which event with
  | None => Some (fromCharCode (keyCode event))
  | Some w =>
      if negb (w =? 0)%Z && negb (charCode event =? 0)%Z
      then Some (fromCharCode w)
      else None
  end.

(** [getChar(event) === 'c'] for a character literal given by its code. *)
Definition charIs (event : KeyEvent) (c : Z) : bool :=
  match getChar event with
  | Some k => (k =? c)%Z
  | None => false
  end.

Definition char_c : Z := 99.
Definition char_h : Z := 104.
Definition char_l : Z := 108.
Definition char_m : Z := 109.
Definition char_n : Z := 110.
Definition char_o : Z := 111.
Definition char_x : Z := 120.
Definition char_0 : Z := 48.

(** [currentlyPressedKeys]: an object used as a map from key code to
    boolean; a missing key reads [undefined], which is falsy. *)
Definition pressed (keys : gmap Z bool) (code : Z) : bool :=
  match keys !! code with
  | Some b => b
  | None => false
  end.

Definition handleKeyDown (keys : gmap Z bool) (event : KeyEvent) : gmap Z bool :=
  <[keyCode event := true]> keys.

Definition handleKeyUp (keys : gmap Z bool) (event : KeyEvent) : gmap Z bool :=
  <[keyCode event := false]> keys.

Definition handleKeyPress (keyPressEvents : list KeyEvent) (event : KeyEvent)
  : list KeyEvent :=
  keyPressEvents ++ [event].

(** An integer-valued JavaScript number, or [NaN]. *)
Inductive JsInt :=
| Int (z : Z)
| NaN.

(** [a % n] for an array length [n]: [NaN] when [n] is 0, else the
    remainder of the truncated division, which has the sign of [a]. *)
Definition jsRem (a : JsInt) (n : nat) : JsInt :=
  match a with
  | Int z => if (Z.of_nat n =? 0)%Z then NaN else Int (Z.rem z (Z.of_nat n))
  | NaN => NaN
  end.

Definition jsAdd (a : JsInt) (k : Z) : JsInt :=
  match a with
  | Int z => Int (z + k)
  | NaN => NaN
  end.

(** [a > 0] *)
Definition jsPositive (a : JsInt) : bool :=
  match a with
  | Int z => (0 <? z)%Z
  | NaN => false
  end.

(** [arr[a]]: [undefined] ([None]) unless [a] is an index of [arr]. *)
Definition jsIndex {A} (arr : list A) (a : JsInt) : option A :=
  match a with
  | Int z => if (z <? 0)%Z then None else arr !! Z.to_nat z
  | NaN => None
  end.

(** ** Collaborators of the module *)

(** The matrix and vector helpers called by [control.js]. *)
Class MatrixLib := {
  Math_sqrt : Q -> Q;
  mul : Matrix -> Matrix -> Matrix;
  nullMatrix4 : Matrix;
  translationDistance2 : Matrix -> Matrix -> Q;
  translationMatrix : Q -> Q -> Q -> Matrix;
  rotationMatrix4 : Vector -> Q -> Matrix;
  matrix3from4 : Matrix -> Matrix;
  matrix4from3 : Matrix -> Matrix;
  inverse3 : Matrix -> Matrix;
  transposed3 : Matrix -> Matrix;
  normalizeVector : Vector -> Vector;
  normalizeVector2D : Vector -> Vector;
  vectorDotProduct : Vector -> Vector -> Q;
  crossProduct : Vector -> Vector -> Vector;
  angleDifferenceOfUnitVectors : Vector -> Vector -> Q;
  angleDifferenceOfUnitVectors2D : Vector -> Vector -> Q;
  vector3Matrix3Product : Vector -> Matrix -> Vector;
  matrix3Vector3Product : Vector -> Matrix -> Vector
}.

Record PhysicalModel := {
  position : Matrix;
  orientation : Matrix;
  velocity : Matrix;
  angularVelocity : Matrix;
  mass : Q;
  modelMatrixInverse : Matrix
}.

(** [propulsion.class] *)
Record PropulsionClass := {
  thrust : Q;
  angularThrust : Q
}.

(** The fields of a [FighterController]; its constants follow. *)
Record FighterController := {
  flightMode : Z;
  intendedSpeed : Q
}.

Definition FM_INERTIAL : Z := 0.
Definition FM_COMPENSATED : Z := 1.
Definition NUM_FLIGHTMODES : Z := 2.
Definition TURNING_LIMIT : Q := 0.1.

Record Goal := { Goal_position : Matrix }.

Record AIController := { goals : list Goal }.

(** The controller assigned to a spacecraft. *)
Inductive Controller :=
| Manual (c : FighterController)
| Autonomous (c : AIController).

(** A node of the visual model: the file name of its texture and its
    visibility flag. *)
Record Subnode := {
  texture_filename : string;
  visible : bool
}.

Record Spacecraft := {
  physicalModel : PhysicalModel;
  propulsion : PropulsionClass;
  controller : option Controller;     (* [None] is [undefined] *)
  subnodes : list Subnode             (* [visualModel.subnodes] *)
}.

(** The burn estimators of the controlled entity. *)
Class SpacecraftApi := {
  getNeededBurnForAcc : Spacecraft -> Q -> Q;
  getNeededBurnForAngularAcc : Spacecraft -> Q -> Q
}.

(** The calls a controller makes on its controlled entity, in order. *)
Inductive ThrusterCall :=
| Fire
| ResetThrusterBurn
| AddThrusterBurn (use : string) (value : Q)
| AddThrusterBurnCapped (use : string) (value : Q) (max : Q)
| AddDirectionalThrusterBurn (direction : Vector) (value : Q).

(** Whether a call burns the thruster group [u]. *)
Definition onUse (u : string) (c : ThrusterCall) : bool :=
  match c with
  | AddThrusterBurn u' _ => bool_decide (u' = u)
  | AddThrusterBurnCapped u' _ _ => bool_decide (u' = u)
  | _ => false
  end.

Definition isDirectional (c : ThrusterCall) : bool :=
  match c with
  | AddDirectionalThrusterBurn _ _ => true
  | _ => false
  end.

(** ** The manual controller *)

(** [(this.flightMode+1)%this.NUM_FLIGHTMODES]; [%] is the remainder of
    the truncated division. *)
Definition nextFlightMode (fm : Z) : Z := Z.rem (fm + 1) NUM_FLIGHTMODES.

(** The loop of [FighterController.prototype.control] over the key-press
    queue, from index [i] on. The queue is the shared array
    [keyPressEvents]; the loop returns it with the flight mode. [i] is
    never negative at the loop head, so [keyPressEvents[i]] is an event. *)
Equations? toggleFlightModes (i : Z) (keyPressEvents : list KeyEvent) (fm : Z)
  : list KeyEvent * Z
  by wf (Z.to_nat (Z.of_nat (length keyPressEvents) - i)) lt :=
toggleFlightModes i keyPressEvents fm with inspect (i <? Z.of_nat (length keyPressEvents))%Z := {
  | exist _ false _ => (keyPressEvents, fm)
  | exist _ true Hlt with inspect (keyPressEvents !! Z.to_nat i) := {
    | exist _ None _ => (keyPressEvents, fm)
    | exist _ (Some event) Hev =>
        if charIs event char_o
        then
          let fm := nextFlightMode fm in
          let keyPressEvents := splice1 i keyPressEvents in
          let i := (i - 1)%Z in
          toggleFlightModes (i + 1)%Z keyPressEvents fm
        else toggleFlightModes (i + 1)%Z keyPressEvents fm } }.
Proof.
  all: apply Z.ltb_lt in Hlt.
  - apply lookup_lt_Some in Hev.
    repeat match goal with x := _ |- _ => subst x end.
    rewrite splice1_length by lia. lia.
  - lia.
Qed.

Section Controllers.
Context {lib : MatrixLib} {api : SpacecraftApi}.

(** *** Values both spacecraft controllers derive from the physical model *)

Definition speed2Of (pm : PhysicalModel) : Q :=
  translationDistance2 (velocity pm) nullMatrix4.

Definition speedOf (pm : PhysicalModel) : Q := Math_sqrt (speed2Of pm).

(** [[velocity[12],velocity[13],velocity[14]]] *)
Definition velocity3 (pm : PhysicalModel) : Vector :=
  [(velocity pm).[12]; (velocity pm).[13]; (velocity pm).[14]].

(** [speed>0.0?normalizeVector([...]):[0,0,0]] *)
Definition velocityVectorOf (pm : PhysicalModel) : Vector :=
  if speedOf pm >? 0 then normalizeVector (velocity3 pm) else [0; 0; 0].

Definition relativeVelocityOf (pm : PhysicalModel) : Matrix :=
  mul (velocity pm) (matrix4from3 (matrix3from4 (modelMatrixInverse pm))).

Definition turningMatrixOf (pm : PhysicalModel) : Matrix :=
  mul (mul (orientation pm) (angularVelocity pm))
      (matrix4from3 (matrix3from4 (modelMatrixInverse pm))).

(** *** [FighterController.prototype.control] *)

(** Keys W (87), S (83) and backspace (8): the burns added and the new
    intended speed. *)
Definition fighter_throttle (keys : gmap Z bool) (fm : Z) (intended : Q)
    (controlledEntity : Spacecraft) : list ThrusterCall * Q :=
  let pm := physicalModel controlledEntity in
  let '(callsW, intended) :=
    if pressed keys 87 then
      if (fm =? FM_INERTIAL)%Z then ([AddThrusterBurn "forward" 0.5], intended)
      else if (fm =? FM_COMPENSATED)%Z
        then ([], intended + thrust (propulsion controlledEntity) / mass pm)
        else ([], intended)
    else ([], intended) in
  let '(callsS, intended) :=
    if pressed keys 83 then
      if (fm =? FM_INERTIAL)%Z then ([AddThrusterBurn "reverse" 0.5], intended)
      else if (fm =? FM_COMPENSATED)%Z
        then
          let intended := intended - thrust (propulsion controlledEntity) / mass pm in
          ([], if intended <? 0 then 0 else intended)
        else ([], intended)
    else ([], intended) in
  let intended :=
    if pressed keys 8 then
      if (fm =? FM_COMPENSATED)%Z then 0 else intended
    else intended in
  (callsW ++ callsS, intended).

(** The block guarded by [this.flightMode===this.FM_COMPENSATED]. *)
Definition fighter_compensate (fm : Z) (intended : Q)
    (controlledEntity : Spacecraft) (relativeVelocity : Matrix)
  : list ThrusterCall :=
  if (fm =? FM_COMPENSATED)%Z then
    (if relativeVelocity.[12] <? -0.0001 then
       [AddThrusterBurnCapped "slideRight" 0.5
          (getNeededBurnForAcc controlledEntity (- relativeVelocity.[12]))]
     else if relativeVelocity.[12] >? 0.0001 then
       [AddThrusterBurnCapped "slideLeft" 0.5
          (getNeededBurnForAcc controlledEntity relativeVelocity.[12])]
     else [])
    ++
    (if relativeVelocity.[14] <? -0.0001 then
       [AddThrusterBurnCapped "raise" 0.5
          (getNeededBurnForAcc controlledEntity (- relativeVelocity.[14]))]
     else if relativeVelocity.[14] >? 0.0001 then
       [AddThrusterBurnCapped "lower" 0.5
          (getNeededBurnForAcc controlledEntity relativeVelocity.[14])]
     else [])
    ++
    (if relativeVelocity.[13] <? intended - 0.0001 then
       [AddThrusterBurnCapped "forward" 0.5
          (getNeededBurnForAcc controlledEntity (intended - relativeVelocity.[13]))]
     else if relativeVelocity.[13] >? intended + 0.0001 then
       [AddThrusterBurnCapped "reverse" 0.5
          (getNeededBurnForAcc controlledEntity (relativeVelocity.[13] - intended))]
     else [])
  else [].

(** The braking burn of a turning axis of the manual controller:
    [Math.min(angularThrust, angleDifferenceOfUnitVectors2D(ref,
    normalizeVector2D([a,b]))*mass)], applied as
    [0.5*burn/angularThrust]. *)
Definition fighter_damping (controlledEntity : Spacecraft) (ref : Vector) (a b : Q) : Q :=
  let angularThrust := angularThrust (propulsion controlledEntity) in
  let burn :=
    Qmin angularThrust
      (angleDifferenceOfUnitVectors2D ref (normalizeVector2D [a; b])
       * mass (physicalModel controlledEntity)) in
  0.5 * burn / angularThrust.

(** Keys left (37) and right (39). *)
Definition fighter_yaw (keys : gmap Z bool) (controlledEntity : Spacecraft)
    (turningMatrix : Matrix) : list ThrusterCall :=
  if pressed keys 37 then
    if turningMatrix.[4] >? - TURNING_LIMIT then [AddThrusterBurn "yawLeft" 0.5] else []
  else if pressed keys 39 then
    if turningMatrix.[4] <? TURNING_LIMIT then [AddThrusterBurn "yawRight" 0.5] else []
  else if turningMatrix.[4] <? -0.0001 then
    [AddThrusterBurn "yawRight"
       (fighter_damping controlledEntity [0; 1] turningMatrix.[4] turningMatrix.[5])]
  else if turningMatrix.[4] >? 0.0001 then
    [AddThrusterBurn "yawLeft"
       (fighter_damping controlledEntity [0; 1] turningMatrix.[4] turningMatrix.[5])]
  else [].

(** Keys up (38) and down (40). *)
Definition fighter_pitch (keys : gmap Z bool) (controlledEntity : Spacecraft)
    (turningMatrix : Matrix) : list ThrusterCall :=
  if pressed keys 38 then
    if turningMatrix.[6] >? - TURNING_LIMIT then [AddThrusterBurn "pitchDown" 0.5] else []
  else if pressed keys 40 then
    if turningMatrix.[6] <? TURNING_LIMIT then [AddThrusterBurn "pitchUp" 0.5] else []
  else if turningMatrix.[6] <? -0.0001 then
    [AddThrusterBurn "pitchUp"
       (fighter_damping controlledEntity [1; 0] turningMatrix.[5] turningMatrix.[6])]
  else if turningMatrix.[6] >? 0.0001 then
    [AddThrusterBurn "pitchDown"
       (fighter_damping controlledEntity [1; 0] turningMatrix.[5] turningMatrix.[6])]
  else [].

(** Keys page down (34) and page up (33). *)
Definition fighter_roll (keys : gmap Z bool) (controlledEntity : Spacecraft)
    (turningMatrix : Matrix) : list ThrusterCall :=
  if pressed keys 34 then
    if turningMatrix.[2] >? - TURNING_LIMIT then [AddThrusterBurn "rollRight" 0.5] else []
  else if pressed keys 33 then
    if turningMatrix.[2] <? TURNING_LIMIT then [AddThrusterBurn "rollLeft" 0.5] else []
  else if turningMatrix.[2] <? -0.0001 then
    [AddThrusterBurn "rollLeft"
       (fighter_damping controlledEntity [1; 0] turningMatrix.[0] turningMatrix.[2])]
  else if turningMatrix.[2] >? 0.0001 then
    [AddThrusterBurn "rollRight"
       (fighter_damping controlledEntity [1; 0] turningMatrix.[0] turningMatrix.[2])]
  else [].

(** What one invocation leaves behind: the controller's fields, the shared
    key-press queue, and the calls made on the controlled entity. *)
Record FighterOutcome := {
  fighter_after : FighterController;
  fighter_queue : list KeyEvent;
  fighter_calls : list ThrusterCall
}.

Definition FighterController_control (this : FighterController)
    (controlledEntity : Spacecraft) (currentlyPressedKeys : gmap Z bool)
    (keyPressEvents : list KeyEvent) : FighterOutcome :=
  let fire := if pressed currentlyPressedKeys 70 then [Fire] else [] in
  let pm := physicalModel controlledEntity in
  let relativeVelocity := relativeVelocityOf pm in
  let turningMatrix := turningMatrixOf pm in
  let '(keyPressEvents, fm) := toggleFlightModes 0 keyPressEvents (flightMode this) in
  let '(throttle, intended) :=
    fighter_throttle currentlyPressedKeys fm (intendedSpeed this) controlledEntity in
  {| fighter_after := {| flightMode := fm; intendedSpeed := intended |};
     fighter_queue := keyPressEvents;
     fighter_calls :=
       fire ++ [ResetThrusterBurn] ++ throttle
       ++ fighter_compensate fm intended controlledEntity relativeVelocity
       ++ fighter_yaw currentlyPressedKeys controlledEntity turningMatrix
       ++ fighter_pitch currentlyPressedKeys controlledEntity turningMatrix
       ++ fighter_roll currentlyPressedKeys controlledEntity turningMatrix |}.

(** The vectors one invocation hands to [normalizeVector] and
    [normalizeVector2D], in program order. *)
Definition fighter_normalized (controlledEntity : Spacecraft)
    (currentlyPressedKeys : gmap Z bool) : list Vector :=
  let pm := physicalModel controlledEntity in
  let turningMatrix := turningMatrixOf pm in
  let damped (k1 k2 : Z) (rate a b : Q) : list Vector :=
    if pressed currentlyPressedKeys k1 then []
    else if pressed currentlyPressedKeys k2 then []
    else if rate <? -0.0001 then [[a; b]]
    else if rate >? 0.0001 then [[a; b]]
    else [] in
  (if speedOf pm >? 0 then [velocity3 pm] else [])
  ++ damped 37%Z 39%Z turningMatrix.[4] turningMatrix.[4] turningMatrix.[5]
  ++ damped 38%Z 40%Z turningMatrix.[6] turningMatrix.[5] turningMatrix.[6]
  ++ damped 34%Z 33%Z turningMatrix.[2] turningMatrix.[0] turningMatrix.[2].

(** *** [AIController.prototype.control] *)

(** The first [if] chain of the manoeuvre: brake, correct the drift, or
    burn forward. *)
Definition AI_longitudinal (controlledEntity : Spacecraft)
    (velocityVector : Vector)
    (speed speed2 acc distance speedTowardsGoal speedTowardsGoal2
     angleToDesiredDirection : Q) : list ThrusterCall :=
  let thrust := thrust (propulsion controlledEntity) in
  let mass := mass (physicalModel controlledEntity) in
  if speedTowardsGoal <? 0 then
    [AddDirectionalThrusterBurn velocityVector (-0.5)]
  else if speed * 0.999 >? speedTowardsGoal then
    let burn := - Qmin (thrust * 0.25) ((speed - speedTowardsGoal) / mass) in
    AddDirectionalThrusterBurn velocityVector (0.5 * burn / thrust)
    :: (if (2 * distance * acc >? speedTowardsGoal2) && (angleToDesiredDirection <? 0.1)
        then [AddThrusterBurn "forward" 0.375]
        else
          let burn := - Qmin (thrust * 0.75) ((speed - speedTowardsGoal) / mass) in
          [AddDirectionalThrusterBurn velocityVector (0.5 * burn / thrust)])
  else if speed2 >? 2 * distance * acc then
    [AddDirectionalThrusterBurn velocityVector (-0.5)]
  else
    [AddThrusterBurn "forward" 0.5].

(** The yaw block; [t4] is [turningMatrix[4]] and [r0] is
    [relativeToGoal[0]]. *)
Definition AI_yaw (controlledEntity : Spacecraft)
    (t4 r0 yawAngleDifference yawAngularVelocity turnAcc : Q)
  : list ThrusterCall :=
  if (yawAngleDifference >? 0.01) || (Qabs t4 >? 0.0001) then
    if r0 >? 0.0001 then
      if (t4 <? TURNING_LIMIT)
         && (yawAngularVelocity * yawAngularVelocity <? 2 * yawAngleDifference * turnAcc)
      then [AddThrusterBurn "yawRight" 0.5]
      else if t4 >? 0.0001 then
        [AddThrusterBurnCapped "yawLeft" 0.5
           (getNeededBurnForAngularAcc controlledEntity yawAngularVelocity)]
      else []
    else if r0 <? -0.0001 then
      if (t4 >? - TURNING_LIMIT)
         && (yawAngularVelocity * yawAngularVelocity <? 2 * yawAngleDifference * turnAcc)
      then [AddThrusterBurn "yawLeft" 0.5]
      else if t4 <? -0.0001 then
        [AddThrusterBurnCapped "yawRight" 0.5
           (getNeededBurnForAngularAcc controlledEntity yawAngularVelocity)]
      else []
    else []
  else [].

(** The pitch block; [t6] is [turningMatrix[6]] and [r2] is
    [relativeToGoal[2]]. The yaw readings are in scope and the block
    reads them in its second branch. *)
Definition AI_pitch (controlledEntity : Spacecraft)
    (t6 r2 pitchAngleDifference pitchAngularVelocity
     yawAngleDifference yawAngularVelocity turnAcc : Q)
  : list ThrusterCall :=
  if (pitchAngleDifference >? 0.01) || (Qabs t6 >? 0.0001) then
    if r2 >? 0.0001 then
      if (t6 <? TURNING_LIMIT)
         && (pitchAngularVelocity * pitchAngularVelocity <? 2 * pitchAngleDifference * turnAcc)
      then [AddThrusterBurn "pitchUp" 0.5]
      else if t6 >? 0.0001 then
        [AddThrusterBurnCapped "pitchDown" 0.5
           (getNeededBurnForAngularAcc controlledEntity pitchAngularVelocity)]
      else []
    else if r2 <? -0.0001 then
      if (t6 >? - TURNING_LIMIT)
         && (yawAngularVelocity * yawAngularVelocity <? 2 * yawAngleDifference * turnAcc)
      then [AddThrusterBurn "pitchDown" 0.5]
      else if t6 <? -0.0001 then
        [AddThrusterBurnCapped "pitchUp" 0.5
           (getNeededBurnForAngularAcc controlledEntity pitchAngularVelocity)]
      else []
    else []
  else [].

(** The branch taken with no goal: brake, then damp yaw and pitch. *)
Definition AI_idle (controlledEntity : Spacecraft) (velocityVector : Vector)
    (speed : Q) (turningMatrix : Matrix) : list ThrusterCall :=
  let thrust := thrust (propulsion controlledEntity) in
  let mass := mass (physicalModel controlledEntity) in
  (if speed >? 0 then
     let burn := - Qmin thrust (speed * mass) in
     [AddDirectionalThrusterBurn velocityVector (0.5 * burn / thrust)]
   else [])
  ++
  (let turningVectorXY := normalizeVector2D [turningMatrix.[4]; turningMatrix.[5]] in
   let yawAngularVelocity := angleDifferenceOfUnitVectors2D [0; 1] turningVectorXY in
   if turningMatrix.[4] >? 0.0001 then
     [AddThrusterBurnCapped "yawLeft" 0.5
        (getNeededBurnForAngularAcc controlledEntity yawAngularVelocity)]
   else if turningMatrix.[4] <? -0.0001 then
     [AddThrusterBurnCapped "yawRight" 0.5
        (getNeededBurnForAngularAcc controlledEntity yawAngularVelocity)]
   else [])
  ++
  (let turningVectorYZ := normalizeVector2D [turningMatrix.[5]; turningMatrix.[6]] in
   let pitchAngularVelocity := angleDifferenceOfUnitVectors2D [1; 0] turningVectorYZ in
   if turningMatrix.[6] >? 0.0001 then
     [AddThrusterBurnCapped "pitchDown" 0.5
        (getNeededBurnForAngularAcc controlledEntity pitchAngularVelocity)]
   else if turningMatrix.[6] <? -0.0001 then
     [AddThrusterBurnCapped "pitchUp" 0.5
        (getNeededBurnForAngularAcc controlledEntity pitchAngularVelocity)]
   else []).

(** The roll damping that closes every invocation. *)
Definition AI_roll (controlledEntity : Spacecraft) (turningMatrix : Matrix)
  : list ThrusterCall :=
  let turningVectorXZ := normalizeVector2D [turningMatrix.[0]; turningMatrix.[2]] in
  let rollAngularVelocity := angleDifferenceOfUnitVectors2D [1; 0] turningVectorXZ in
  if turningMatrix.[2] >? 0.0001 then
    [AddThrusterBurnCapped "rollRight" 0.5
       (getNeededBurnForAngularAcc controlledEntity rollAngularVelocity)]
  else if turningMatrix.[2] <? -0.0001 then
    [AddThrusterBurnCapped "rollLeft" 0.5
       (getNeededBurnForAngularAcc controlledEntity rollAngularVelocity)]
  else [].

(** Readings taken on the head goal. *)
Definition distance2To (g : Goal) (pm : PhysicalModel) : Q :=
  translationDistance2 (Goal_position g) (position pm).

Definition distanceTo (g : Goal) (pm : PhysicalModel) : Q :=
  Math_sqrt (distance2To g pm).

(** The argument of the [normalizeVector] call that yields [toGoal]. *)
Definition goalOffset (g : Goal) (pm : PhysicalModel) : Vector :=
  [ (Goal_position g).[12] - (position pm).[12];
    (Goal_position g).[13] - (position pm).[13];
    (Goal_position g).[14] - (position pm).[14] ].

Definition toGoalOf (g : Goal) (pm : PhysicalModel) : Vector :=
  normalizeVector (goalOffset g pm).

Definition speedTowards (g : Goal) (pm : PhysicalModel) : Q :=
  vectorDotProduct (velocityVectorOf pm) (toGoalOf g pm) * speedOf pm.

Definition directionVectorOf (pm : PhysicalModel) : Vector :=
  normalizeVector [(orientation pm).[4]; (orientation pm).[5]; (orientation pm).[6]].

Definition relativeToGoalOf (g : Goal) (pm : PhysicalModel) : Vector :=
  vector3Matrix3Product (toGoalOf g pm) (matrix3from4 (modelMatrixInverse pm)).

(** The manoeuvres towards the head goal [g] (the [else] of the arrival
    test). *)
Definition AI_manoeuvre (controlledEntity : Spacecraft) (g : Goal)
  : list ThrusterCall :=
  let pm := physicalModel controlledEntity in
  let speed2 := speed2Of pm in
  let speed := speedOf pm in
  let acc := thrust (propulsion controlledEntity) / mass pm in
  let turnAcc := angularThrust (propulsion controlledEntity) / mass pm in
  let velocityVector := velocityVectorOf pm in
  let turningMatrix := turningMatrixOf pm in
  let distance := distanceTo g pm in
  let speedTowardsGoal := speedTowards g pm in
  let speedTowardsGoal2 := speedTowardsGoal * speedTowardsGoal in
  let angleToDesiredDirection :=
    angleDifferenceOfUnitVectors (directionVectorOf pm) (toGoalOf g pm) in
  let relativeToGoal := relativeToGoalOf g pm in
  let relativeToGoalXY := normalizeVector2D [relativeToGoal.[0]; relativeToGoal.[1]] in
  let yawAngleDifference := angleDifferenceOfUnitVectors2D [0; 1] relativeToGoalXY in
  let turningVectorXY := normalizeVector2D [turningMatrix.[4]; turningMatrix.[5]] in
  let yawAngularVelocity := angleDifferenceOfUnitVectors2D [0; 1] turningVectorXY in
  let relativeToGoalYZ := normalizeVector2D [relativeToGoal.[1]; relativeToGoal.[2]] in
  let pitchAngleDifference := angleDifferenceOfUnitVectors2D [1; 0] relativeToGoalYZ in
  let turningVectorYZ := normalizeVector2D [turningMatrix.[5]; turningMatrix.[6]] in
  let pitchAngularVelocity := angleDifferenceOfUnitVectors2D [1; 0] turningVectorYZ in
  AI_longitudinal controlledEntity velocityVector speed speed2 acc distance
    speedTowardsGoal speedTowardsGoal2 angleToDesiredDirection
  ++ AI_yaw controlledEntity turningMatrix.[4] relativeToGoal.[0]
       yawAngleDifference yawAngularVelocity turnAcc
  ++ AI_pitch controlledEntity turningMatrix.[6] relativeToGoal.[2]
       pitchAngleDifference pitchAngularVelocity
       yawAngleDifference yawAngularVelocity turnAcc.

Record AIOutcome := {
  AI_after : AIController;
  AI_calls : list ThrusterCall
}.

Definition AIController_control (this : AIController)
    (controlledEntity : Spacecraft) : AIOutcome :=
  let pm := physicalModel controlledEntity in
  let turningMatrix := turningMatrixOf pm in
  match goals this with
  | g :: rest =>
      if distanceTo g pm <? 0.5 then
        (* [this.goals.shift()] *)
        {| AI_after := {| goals := rest |};
           AI_calls := [ResetThrusterBurn] ++ AI_roll controlledEntity turningMatrix |}
      else
        {| AI_after := this;
           AI_calls := [ResetThrusterBurn] ++ AI_manoeuvre controlledEntity g
                       ++ AI_roll controlledEntity turningMatrix |}
  | [] =>
      {| AI_after := this;
         AI_calls := [ResetThrusterBurn]
                     ++ AI_idle controlledEntity (velocityVectorOf pm) (speedOf pm) turningMatrix
                     ++ AI_roll controlledEntity turningMatrix |}
  end.

(** The vectors one invocation hands to [normalizeVector] and
    [normalizeVector2D], in program order. *)
Definition AI_normalized (this : AIController) (controlledEntity : Spacecraft)
  : list Vector :=
  let pm := physicalModel controlledEntity in
  let turningMatrix := turningMatrixOf pm in
  let directionVector := directionVectorOf pm in
  let futureOrientation := mul (orientation pm) (angularVelocity pm) in
  let futureDirectionVector :=
    normalizeVector [futureOrientation.[4]; futureOrientation.[5]; futureOrientation.[6]] in
  [ [(orientation pm).[4]; (orientation pm).[5]; (orientation pm).[6]] ]
  ++ (if speedOf pm >? 0 then [velocity3 pm] else [])
  ++ [ [futureOrientation.[4]; futureOrientation.[5]; futureOrientation.[6]];
       [(angularVelocity pm).[4]; (angularVelocity pm).[5]; (angularVelocity pm).[6]];
       crossProduct futureDirectionVector directionVector ]
  ++ match goals this with
     | g :: _ =>
         let relativeToGoal := relativeToGoalOf g pm in
         goalOffset g pm
         :: (if distanceTo g pm <? 0.5 then []
             else [ [relativeToGoal.[0]; relativeToGoal.[1]];
                    [turningMatrix.[4]; turningMatrix.[5]];
                    [relativeToGoal.[1]; relativeToGoal.[2]];
                    [turningMatrix.[5]; turningMatrix.[6]] ])
     | [] =>
         [ [turningMatrix.[4]; turningMatrix.[5]];
           [turningMatrix.[5]; turningMatrix.[6]] ]
     end
  ++ [ [turningMatrix.[0]; turningMatrix.[2]] ].

End Controllers.

(** ** The camera *)

(** An object a camera can follow, seen through [getOrientation()] and
    [getPosition()]. *)
Record VisualObject := {
  getOrientation : Matrix;
  getPosition : Matrix
}.

Module Camera.

Record t := {
  controllableDirection : bool;
  controllablePosition : bool;
  position : Matrix;
  orientation : Matrix;
  velocity : Vector;
  angularVelocity : Vector;
  maxSpeed : Q;
  acceleration : Q;
  maxTurn : Q;
  angularAcceleration : Q;
  fov : Q;
  followedObject : option VisualObject;   (* [None] is [undefined] *)
  followPosition : Matrix;
  followOrientation : Matrix;
  followedCamera : option nat;  (* the followed camera, by its place in
                                   [resourceCenter.cameras] *)
  matrix : Matrix
}.

Definition with_position (p : Matrix) (c : t) : t :=
  {| controllableDirection := controllableDirection c;
     controllablePosition := controllablePosition c;
     position := p; orientation := orientation c;
     velocity := velocity c; angularVelocity := angularVelocity c;
     maxSpeed := maxSpeed c; acceleration := acceleration c;
     maxTurn := maxTurn c; angularAcceleration := angularAcceleration c;
     fov := fov c; followedObject := followedObject c;
     followPosition := followPosition c; followOrientation := followOrientation c;
     followedCamera := followedCamera c; matrix := matrix c |}.

Definition with_orientation (o : Matrix) (c : t) : t :=
  {| controllableDirection := controllableDirection c;
     controllablePosition := controllablePosition c;
     position := position c; orientation := o;
     velocity := velocity c; angularVelocity := angularVelocity c;
     maxSpeed := maxSpeed c; acceleration := acceleration c;
     maxTurn := maxTurn c; angularAcceleration := angularAcceleration c;
     fov := fov c; followedObject := followedObject c;
     followPosition := followPosition c; followOrientation := followOrientation c;
     followedCamera := followedCamera c; matrix := matrix c |}.

Definition with_velocity (v : Vector) (c : t) : t :=
  {| controllableDirection := controllableDirection c;
     controllablePosition := controllablePosition c;
     position := position c; orientation := orientation c;
     velocity := v; angularVelocity := angularVelocity c;
     maxSpeed := maxSpeed c; acceleration := acceleration c;
     maxTurn := maxTurn c; angularAcceleration := angularAcceleration c;
     fov := fov c; followedObject := followedObject c;
     followPosition := followPosition c; followOrientation := followOrientation c;
     followedCamera := followedCamera c; matrix := matrix c |}.

Definition with_angularVelocity (v : Vector) (c : t) : t :=
  {| controllableDirection := controllableDirection c;
     controllablePosition := controllablePosition c;
     position := position c; orientation := orientation c;
     velocity := velocity c; angularVelocity := v;
     maxSpeed := maxSpeed c; acceleration := acceleration c;
     maxTurn := maxTurn c; angularAcceleration := angularAcceleration c;
     fov := fov c; followedObject := followedObject c;
     followPosition := followPosition c; followOrientation := followOrientation c;
     followedCamera := followedCamera c; matrix := matrix c |}.

Definition with_followedCamera (f : option nat) (c : t) : t :=
  {| controllableDirection := controllableDirection c;
     controllablePosition := controllablePosition c;
     position := position c; orientation := orientation c;
     velocity := velocity c; angularVelocity := angularVelocity c;
     maxSpeed := maxSpeed c; acceleration := acceleration c;
     maxTurn := maxTurn c; angularAcceleration := angularAcceleration c;
     fov := fov c; followedObject := followedObject c;
     followPosition := followPosition c; followOrientation := followOrientation c;
     followedCamera := f; matrix := matrix c |}.

Definition with_matrix (m : Matrix) (c : t) : t :=
  {| controllableDirection := controllableDirection c;
     controllablePosition := controllablePosition c;
     position := position c; orientation := orientation c;
     velocity := velocity c; angularVelocity := angularVelocity c;
     maxSpeed := maxSpeed c; acceleration := acceleration c;
     maxTurn := maxTurn c; angularAcceleration := angularAcceleration c;
     fov := fov c; followedObject := followedObject c;
     followPosition := followPosition c; followOrientation := followOrientation c;
     followedCamera := followedCamera c; matrix := m |}.

(** Modelled from the spec: the camera method [setFOV], which is not
    defined in [control.js]. The field of view is adjusted independently
    of the motion and follow state: the method stores the new angle. *)
Definition setFOV (c : t) (angle : Q) : t :=
  {| controllableDirection := controllableDirection c;
     controllablePosition := controllablePosition c;
     position := position c; orientation := orientation c;
     velocity := velocity c; angularVelocity := angularVelocity c;
     maxSpeed := maxSpeed c; acceleration := acceleration c;
     maxTurn := maxTurn c; angularAcceleration := angularAcceleration c;
     fov := angle; followedObject := followedObject c;
     followPosition := followPosition c; followOrientation := followOrientation c;
     followedCamera := followedCamera c; matrix := matrix c |}.

End Camera.

(** The two shapes of the key handling in [controlCamera], for a rate [v]
    with bound [limit] and increment [step]. While the key is held the
    rate grows up to the bound; released, a positive rate decays by
    [Math.min(step, v)]. *)
Definition rateUp (held : bool) (v limit step : Q) : Q :=
  if held then (if v <? limit then v + step else v)
  else (if v >? 0 then v - Qmin step v else v).

(** The mirror image, for the opposite key. *)
Definition rateDown (held : bool) (v limit step : Q) : Q :=
  if held then (if v >? - limit then v - step else v)
  else (if v <? 0 then v + Qmin step (- v) else v).

(** [camera.angularVelocity] after the block guarded by
    [camera.controllableDirection] (ctrl is key 17). The arrays
    [angularVelocity] and [velocity] hold their three components, so every
    write is in range. *)
Definition turnByKeys (keys : gmap Z bool) (camera : Camera.t) : Vector :=
  let limit := Camera.maxTurn camera in
  let step := Camera.angularAcceleration camera in
  let av := Camera.angularVelocity camera in
  let av := <[1%nat := rateUp (pressed keys 17 && pressed keys 37) av.[1] limit step]> av in
  let av := <[1%nat := rateDown (pressed keys 17 && pressed keys 39) av.[1] limit step]> av in
  let av := <[0%nat := rateUp (pressed keys 17 && pressed keys 38) av.[0] limit step]> av in
  let av := <[0%nat := rateDown (pressed keys 17 && pressed keys 40) av.[0] limit step]> av in
  av.

(** [camera.velocity] after the block guarded by
    [camera.controllablePosition]. *)
Definition moveByKeys (keys : gmap Z bool) (camera : Camera.t) : Vector :=
  let limit := Camera.maxSpeed camera in
  let step := Camera.acceleration camera in
  let v := Camera.velocity camera in
  let v := <[0%nat := rateUp (pressed keys 37) v.[0] limit step]> v in
  let v := <[0%nat := rateDown (pressed keys 39) v.[0] limit step]> v in
  let v := <[1%nat := rateUp (pressed keys 34) v.[1] limit step]> v in
  let v := <[1%nat := rateDown (pressed keys 33) v.[1] limit step]> v in
  let v := <[2%nat := rateUp (pressed keys 38) v.[2] limit step]> v in
  let v := <[2%nat := rateDown (pressed keys 40) v.[2] limit step]> v in
  v.

Section CameraControl.
Context {lib : MatrixLib}.

(** The two updates guarded by [camera.followedObject===undefined]. *)
Definition freeFlight (camera : Camera.t) : Camera.t :=
  let inverseOrientation :=
    transposed3 (inverse3 (matrix3from4 (Camera.orientation camera))) in
  let translation :=
    matrix3Vector3Product (Camera.velocity camera) inverseOrientation in
  let camera :=
    Camera.with_position
      (mul (Camera.position camera)
           (translationMatrix translation.[0] translation.[1] translation.[2]))
      camera in
  Camera.with_orientation
    (mul (mul (Camera.orientation camera)
              (rotationMatrix4 [0; 1; 0] (Camera.angularVelocity camera).[1]))
         (rotationMatrix4 [1; 0; 0] (Camera.angularVelocity camera).[0]))
    camera.

(** The update guarded by [camera.followedObject!==undefined]. *)
Definition follow (camera : Camera.t) (followedObject : VisualObject) : Camera.t :=
  let newOrientation :=
    mul (mul (matrix4from3 (inverse3 (matrix3from4 (getOrientation followedObject))))
             (rotationMatrix4 [1; 0; 0] (3.1415 / 2)))
        (Camera.followOrientation camera) in
  let camera := Camera.with_orientation newOrientation camera in
  let camPosition :=
    mul (mul (Camera.followPosition camera) (getOrientation followedObject))
        (getPosition followedObject) in
  let newPosition :=
    translationMatrix (- camPosition.[12]) (- camPosition.[13]) (- camPosition.[14]) in
  let velocityMatrix :=
    mul (translationMatrix
           (newPosition.[12] - (Camera.position camera).[12])
           (newPosition.[13] - (Camera.position camera).[13])
           (newPosition.[14] - (Camera.position camera).[14]))
        (Camera.orientation camera) in
  let camera :=
    Camera.with_velocity
      [velocityMatrix.[12]; velocityMatrix.[13]; velocityMatrix.[14]] camera in
  Camera.with_position newPosition camera.

Definition controlCamera (keys : gmap Z bool) (camera : Camera.t) : Camera.t :=
  let camera :=
    if Camera.controllableDirection camera
    then Camera.with_angularVelocity (turnByKeys keys camera) camera
    else camera in
  let camera :=
    if Camera.controllablePosition camera
    then Camera.with_velocity (moveByKeys keys camera) camera
    else camera in
  let camera :=
    match Camera.followedObject camera with
    | None => freeFlight camera
    | Some _ => camera
    end in
  let camera :=
    if pressed keys 90 then Camera.setFOV camera (Camera.fov camera - 1) else camera in
  let camera :=
    if pressed keys 85 then Camera.setFOV camera (Camera.fov camera + 1) else camera in
  match Camera.followedObject camera with
  | Some followedObject => follow camera followedObject
  | None => camera
  end.

End CameraControl.

(** ** The dispatcher *)

(** The globals of the module, [resourceCenter.cameras],
    [scene.activeCamera] and [level.spacecrafts]. [Math.random] returns
    [randoms drawn] and advances [drawn]. *)
Record World := {
  activeCameraIndex : JsInt;
  currentlyPressedKeys : gmap Z bool;
  keyPressEvents : list KeyEvent;
  lightTurn : bool;
  cameras : list Camera.t;
  activeCamera : Camera.t;
  spacecrafts : list Spacecraft;
  randoms : nat -> Q;
  drawn : nat
}.

Definition with_activeCameraIndex (a : JsInt) (w : World) : World :=
  {| activeCameraIndex := a; currentlyPressedKeys := currentlyPressedKeys w;
     keyPressEvents := keyPressEvents w; lightTurn := lightTurn w;
     cameras := cameras w; activeCamera := activeCamera w;
     spacecrafts := spacecrafts w; randoms := randoms w; drawn := drawn w |}.

Definition with_keyPressEvents (q : list KeyEvent) (w : World) : World :=
  {| activeCameraIndex := activeCameraIndex w;
     currentlyPressedKeys := currentlyPressedKeys w;
     keyPressEvents := q; lightTurn := lightTurn w;
     cameras := cameras w; activeCamera := activeCamera w;
     spacecrafts := spacecrafts w; randoms := randoms w; drawn := drawn w |}.

Definition with_lightTurn (b : bool) (w : World) : World :=
  {| activeCameraIndex := activeCameraIndex w;
     currentlyPressedKeys := currentlyPressedKeys w;
     keyPressEvents := keyPressEvents w; lightTurn := b;
     cameras := cameras w; activeCamera := activeCamera w;
     spacecrafts := spacecrafts w; randoms := randoms w; drawn := drawn w |}.

Definition with_cameras (cs : list Camera.t) (w : World) : World :=
  {| activeCameraIndex := activeCameraIndex w;
     currentlyPressedKeys := currentlyPressedKeys w;
     keyPressEvents := keyPressEvents w; lightTurn := lightTurn w;
     cameras := cs; activeCamera := activeCamera w;
     spacecrafts := spacecrafts w; randoms := randoms w; drawn := drawn w |}.

Definition with_activeCamera (c : Camera.t) (w : World) : World :=
  {| activeCameraIndex := activeCameraIndex w;
     currentlyPressedKeys := currentlyPressedKeys w;
     keyPressEvents := keyPressEvents w; lightTurn := lightTurn w;
     cameras := cameras w; activeCamera := c;
     spacecrafts := spacecrafts w; randoms := randoms w; drawn := drawn w |}.

Definition with_spacecrafts (l : list Spacecraft) (w : World) : World :=
  {| activeCameraIndex := activeCameraIndex w;
     currentlyPressedKeys := currentlyPressedKeys w;
     keyPressEvents := keyPressEvents w; lightTurn := lightTurn w;
     cameras := cameras w; activeCamera := activeCamera w;
     spacecrafts := l; randoms := randoms w; drawn := drawn w |}.

Definition with_drawn (n : nat) (w : World) : World :=
  {| activeCameraIndex := activeCameraIndex w;
     currentlyPressedKeys := currentlyPressedKeys w;
     keyPressEvents := keyPressEvents w; lightTurn := lightTurn w;
     cameras := cameras w; activeCamera := activeCamera w;
     spacecrafts := spacecrafts w; randoms := randoms w; drawn := n |}.

Definition with_controller (c : option Controller) (s : Spacecraft) : Spacecraft :=
  {| physicalModel := physicalModel s; propulsion := propulsion s;
     controller := c; subnodes := subnodes s |}.

Definition with_subnodes (l : list Subnode) (s : Spacecraft) : Spacecraft :=
  {| physicalModel := physicalModel s; propulsion := propulsion s;
     controller := controller s; subnodes := l |}.

(** How a statement ends: normally, or by throwing a [TypeError] in the
    world reached so far. *)
Inductive Completion (A : Type) :=
| Normal (a : A)
| Throw (w : World).
Arguments Normal {A} a.
Arguments Throw {A} w.

(** The globals and camera methods [control] uses from other modules. *)
Class Scene := {
  mapSize : Q;
  (** [Camera.prototype.update], given the camera and
      [resourceCenter.cameras] *)
  Camera_update : Camera.t -> list Camera.t -> Camera.t
}.

(** Modelled from the spec: the camera method [followCamera], which is not
    defined in [control.js]. It rebinds the followed-camera relation to its
    argument; the argument is [resourceCenter.cameras[activeCameraIndex]],
    which is [undefined] when the index is not one of the list. *)
Definition followCamera (camera : Camera.t) (cameras : list Camera.t)
    (index : JsInt) : Camera.t :=
  match index with
  | Int z =>
      if (z <? 0)%Z then Camera.with_followedCamera None camera
      else if (z <? Z.of_nat (length cameras))%Z
        then Camera.with_followedCamera (Some (Z.to_nat z)) camera
        else Camera.with_followedCamera None camera
  | NaN => Camera.with_followedCamera None camera
  end.

(** [controller.goals=new Array()]: on a manual controller the assignment
    adds a property that no code reads. *)
Definition clearGoals (c : Controller) : Controller :=
  match c with
  | Manual f => Manual f
  | Autonomous _ => Autonomous {| goals := [] |}
  end.

(** The loop of the stop-all event from [i] on: the spacecraft list
    after it, or the list at the moment [controller] is [undefined]. *)
Fixpoint stopAll (done todo : list Spacecraft) : list Spacecraft + list Spacecraft :=
  match todo with
  | [] => inl done
  | s :: todo =>
      match controller s with
      | None => inr (done ++ s :: todo)
      | Some c => stopAll (done ++ [with_controller (Some (clearGoals c)) s]) todo
      end
  end.

Definition toggleHitbox (n : Subnode) : Subnode :=
  if bool_decide (texture_filename n = "textures/white.png")
  then {| texture_filename := texture_filename n; visible := negb (visible n) |}
  else n.

Section Dispatcher.
Context {lib : MatrixLib} {scene : Scene}.

(** The [j]-th goal pushed by the set-autonomous event, when [d] numbers
    were drawn before the event. *)
Definition randomGoal (randoms : nat -> Q) (d j : nat) : Goal :=
  let r k := randoms (d + 3 * j + k)%nat in
  {| Goal_position :=
       translationMatrix (r 0%nat * mapSize - mapSize / 2)
                         (r 1%nat * mapSize - mapSize / 2)
                         (r 2%nat * mapSize - mapSize / 2) |}.

(** [level.spacecrafts[activeCameraIndex-1].controller = c] *)
Definition setController (w : World) (c : Controller) : Completion World :=
  let target := jsAdd (activeCameraIndex w) (-1) in
  match target, jsIndex (spacecrafts w) target with
  | Int z, Some s =>
      Normal (with_spacecrafts
                (<[Z.to_nat z := with_controller (Some c) s]> (spacecrafts w)) w)
  | _, _ => Throw w
  end.

(** The body of the event loop up to the removal of the event: the new
    world and the value of the loop variable [i], which the loops of the
    stop-all and hitbox events use as their own counter. *)
Definition handleEvent (w : World) (i : Z) (event : KeyEvent)
  : Completion (World * Z) :=
  (* follow next camera *)
  let w :=
    if charIs event char_c then
      let index := jsRem (jsAdd (activeCameraIndex w) 1) (length (cameras w)) in
      with_activeCamera (followCamera (activeCamera w) (cameras w) index)
        (with_activeCameraIndex index w)
    else w in
  (* follow previous camera *)
  let w :=
    if charIs event char_x then
      let index := jsRem (jsAdd (activeCameraIndex w) (-1)) (length (cameras w)) in
      with_activeCamera (followCamera (activeCamera w) (cameras w) index)
        (with_activeCameraIndex index w)
    else w in
  (* set control to manual *)
  let manual :=
    if charIs event char_m && jsPositive (activeCameraIndex w) then
      setController w (Manual {| flightMode := FM_INERTIAL; intendedSpeed := 0 |})
    else Normal w in
  match manual with
  | Throw w => Throw w
  | Normal w =>
  (* set control to AI *)
  let autonomous :=
    if charIs event char_n && jsPositive (activeCameraIndex w) then
      match setController w
              (Autonomous {| goals := map (randomGoal (randoms w) (drawn w)) (seq 0 10) |})
      with
      | Normal w' => Normal (with_drawn (drawn w + 30) w')
      | Throw w' => Throw w'
      end
    else Normal w in
  match autonomous with
  | Throw w => Throw w
  | Normal w =>
  (* stop all units *)
  let stopped :=
    if charIs event char_0 then
      match stopAll [] (spacecrafts w) with
      | inl l => Normal (with_spacecrafts l w, Z.of_nat (length (spacecrafts w)))
      | inr l => Throw (with_spacecrafts l w)
      end
    else Normal (w, i) in
  match stopped with
  | Throw w => Throw w
  | Normal (w, i) =>
  (* toggle rotation of directional lightsource *)
  let w := if charIs event char_l then with_lightTurn (negb (lightTurn w)) w else w in
  (* toggle visibility of hitboxes *)
  if charIs event char_h then
    Normal (with_spacecrafts
              (map (fun s => with_subnodes (map toggleHitbox (subnodes s)) s)
                   (spacecrafts w)) w,
            Z.of_nat (length (spacecrafts w)))
  else Normal (w, i)
  end end end.

Lemma setController_queue w c w' :
  setController w c = Normal w' -> keyPressEvents w' = keyPressEvents w.
Proof.
  unfold setController.
  destruct (jsAdd _ _); [|discriminate].
  destruct (jsIndex _ _); [|discriminate].
  now intros [= <-].
Qed.

(** Handling an event leaves the queue as it is: the event is removed by
    the loop. *)
Lemma handleEvent_queue w i event w' i' :
  handleEvent w i event = Normal (w', i') ->
  keyPressEvents w' = keyPressEvents w.
Proof.
  unfold handleEvent.
  set (w1 := if charIs event char_c then _ else w).
  set (w2 := if charIs event char_x then _ else w1).
  assert (H2 : keyPressEvents w2 = keyPressEvents w).
  { subst w2 w1. repeat destruct (charIs event _); reflexivity. }
  destruct (charIs event char_m && jsPositive (activeCameraIndex w2)) eqn:Em.
  - destruct (setController w2 _) as [w3|] eqn:E3; [|discriminate].
    apply setController_queue in E3. revert E3 H2. generalize w3 w2.
    clear. intros w3 w2 E3 H2.
    destruct (charIs event char_n && jsPositive (activeCameraIndex w3)).
    + destruct (setController w3 _) as [w4|] eqn:E4; [|discriminate].
      apply setController_queue in E4.
      destruct (charIs event char_0).
      * destruct (stopAll _ _); [|discriminate].
        repeat destruct (charIs event _); intros [= <- _]; cbn; congruence.
      * repeat destruct (charIs event _); intros [= <- _]; cbn; congruence.
    + destruct (charIs event char_0).
      * destruct (stopAll _ _); [|discriminate].
        repeat destruct (charIs event _); intros [= <- _]; cbn; congruence.
      * repeat destruct (charIs event _); intros [= <- _]; cbn; congruence.
  - revert H2. generalize w2. clear. intros w3 H2.
    destruct (charIs event char_n && jsPositive (activeCameraIndex w3)).
    + destruct (setController w3 _) as [w4|] eqn:E4; [|discriminate].
      apply setController_queue in E4.
      destruct (charIs event char_0).
      * destruct (stopAll _ _); [|discriminate].
        repeat destruct (charIs event _); intros [= <- _]; cbn; congruence.
      * repeat destruct (charIs event _); intros [= <- _]; cbn; congruence.
    + destruct (charIs event char_0).
      * destruct (stopAll _ _); [|discriminate].
        repeat destruct (charIs event _); intros [= <- _]; cbn; congruence.
      * repeat destruct (charIs event _); intros [= <- _]; cbn; congruence.
Qed.

(** The event loop of [control], from index [i] on. After the body the
    event at the current value of [i] is spliced out and [i] steps back by
    one, before the loop's own [i++]. *)
Equations? processEvents (i : Z) (w : World) : Completion World
  by wf (2 * length (keyPressEvents w)
         + (if (i <? Z.of_nat (length (keyPressEvents w)))%Z then 1 else 0))%nat lt :=
processEvents i w with inspect (i <? Z.of_nat (length (keyPressEvents w)))%Z := {
  | exist _ false _ => Normal w
  | exist _ true Hlt with inspect (keyPressEvents w !! Z.to_nat i) := {
    | exist _ None _ => Normal w
    | exist _ (Some event) Hev with inspect (handleEvent w i event) := {
      | exist _ (Throw w') _ => Throw w'
      | exist _ (Normal (w', i')) Hbody =>
          let w' := with_keyPressEvents (splice1 i' (keyPressEvents w')) w' in
          let i' := (i' - 1)%Z in
          processEvents (i' + 1)%Z w' } } }.
Proof.
  repeat match goal with x := _ |- _ => subst x end.
  apply handleEvent_queue in Hbody. cbn [keyPressEvents with_keyPressEvents].
  rewrite Hbody, Hlt. apply lookup_lt_Some in Hev.
  match goal with |- context [splice1 ?j _] => rename j into k end.
  replace (k - 1 + 1)%Z with k by lia.
  destruct (Z.ltb_spec k (Z.of_nat (length (keyPressEvents w)))) as [Hi|Hi].
  - rewrite splice1_length by lia.
    destruct (k <? _)%Z; lia.
  - rewrite splice1_beyond by lia.
    destruct (Z.ltb_spec k (Z.of_nat (length (keyPressEvents w)))); lia.
Qed.

(** The camera step that opens [control]: the followed camera, when there
    is one, is the object stored in [resourceCenter.cameras]. *)
Definition controlActiveCamera (w : World) : World :=
  let keys := currentlyPressedKeys w in
  match Camera.followedCamera (activeCamera w) with
  | None => with_activeCamera (controlCamera keys (activeCamera w)) w
  | Some k =>
      match cameras w !! k with
      | None => w
      | Some followed =>
          let followed := controlCamera keys followed in
          with_activeCamera
            (Camera.with_angularVelocity (Camera.angularVelocity followed)
               (Camera.with_velocity (Camera.velocity followed) (activeCamera w)))
            (with_cameras (<[k := followed]> (cameras w)) w)
      end
  end.

(** [control(resourceCenter,scene,level)]. The [alert] of the pause key
    changes nothing in the world. *)
Definition control (w : World) : Completion World :=
  let w := controlActiveCamera w in
  match processEvents 0 w with
  | Throw w => Throw w
  | Normal w =>
      let camera := Camera_update (activeCamera w) (cameras w) in
      let camera :=
        Camera.with_matrix
          (mul (Camera.position camera) (Camera.orientation camera)) camera in
      Normal (with_activeCamera camera w)
  end.

End Dispatcher.

(** ** A reference implementation of the collaborators

    Used to run the controllers on concrete states. Square roots, sines,
    cosines and angles are rational approximations. *)
Module Reference.

(** [sqrt] to six decimal places, rounded down. *)
Definition sqrt (x : Q) : Q :=
  if 0 <? x
  then Z.sqrt (Qnum x * Zpos (Qden x) * 10 ^ 12) # (Qden x * 10 ^ 6)
  else 0.

Definition dot (a b : Vector) : Q :=
  fold_right Qplus 0 (zip_with Qmult a b).

(** Entry [(r, c)] of the product of two [n]x[n] matrices stored row by
    row. *)
Definition product_entry (n : nat) (a b : Matrix) (r c : nat) : Q :=
  fold_right Qplus 0
    (map (fun k => a.[n * r + k] * b.[n * k + c]) (seq 0 n)).

Definition product (n : nat) (a b : Matrix) : Matrix :=
  flat_map (fun r => map (product_entry n a b r) (seq 0 n)) (seq 0 n).

Definition identity4 : Matrix :=
  [1; 0; 0; 0;  0; 1; 0; 0;  0; 0; 1; 0;  0; 0; 0; 1].

Definition translation (x y z : Q) : Matrix :=
  [1; 0; 0; 0;  0; 1; 0; 0;  0; 0; 1; 0;  x; y; z; 1].

Definition sin (a : Q) : Q := a - a * a * a / 6 + a * a * a * a * a / 120.
Definition cos (a : Q) : Q := 1 - a * a / 2 + a * a * a * a / 24.

(** Rotation by [angle] about a unit [axis]. *)
Definition rotation (axis : Vector) (angle : Q) : Matrix :=
  let x := axis.[0] in let y := axis.[1] in let z := axis.[2] in
  let c := cos angle in let s := sin angle in let t := 1 - c in
  [ t * x * x + c;     t * x * y - s * z; t * x * z + s * y; 0;
    t * x * y + s * z; t * y * y + c;     t * y * z - s * x; 0;
    t * x * z - s * y; t * y * z + s * x; t * z * z + c;     0;
    0; 0; 0; 1 ].

Definition upper3 (m : Matrix) : Matrix :=
  [ m.[0]; m.[1]; m.[2];  m.[4]; m.[5]; m.[6];  m.[8]; m.[9]; m.[10] ].

Definition embed4 (m : Matrix) : Matrix :=
  [ m.[0]; m.[1]; m.[2]; 0;  m.[3]; m.[4]; m.[5]; 0;  m.[6]; m.[7]; m.[8]; 0;
    0; 0; 0; 1 ].

Definition transpose3 (m : Matrix) : Matrix :=
  [ m.[0]; m.[3]; m.[6];  m.[1]; m.[4]; m.[7];  m.[2]; m.[5]; m.[8] ].

Definition invert3 (m : Matrix) : Matrix :=
  let det :=
    m.[0] * (m.[4] * m.[8] - m.[5] * m.[7])
    - m.[1] * (m.[3] * m.[8] - m.[5] * m.[6])
    + m.[2] * (m.[3] * m.[7] - m.[4] * m.[6]) in
  map (fun x => x / det)
    [ m.[4] * m.[8] - m.[5] * m.[7]; m.[2] * m.[7] - m.[1] * m.[8];
      m.[1] * m.[5] - m.[2] * m.[4];
      m.[5] * m.[6] - m.[3] * m.[8]; m.[0] * m.[8] - m.[2] * m.[6];
      m.[2] * m.[3] - m.[0] * m.[5];
      m.[3] * m.[7] - m.[4] * m.[6]; m.[1] * m.[6] - m.[0] * m.[7];
      m.[0] * m.[4] - m.[1] * m.[3] ].

Definition normalize (v : Vector) : Vector :=
  let len := sqrt (dot v v) in map (fun x => x / len) v.

Definition cross (a b : Vector) : Vector :=
  [ a.[1] * b.[2] - a.[2] * b.[1];
    a.[2] * b.[0] - a.[0] * b.[2];
    a.[0] * b.[1] - a.[1] * b.[0] ].

(** The angle between unit vectors, from their dot product [d]:
    [acos d] is about [sqrt (2 (1 - d)) * (1 + (1 - d) / 12)]. *)
Definition angle (a b : Vector) : Q :=
  let d := dot a b in sqrt (2 * (1 - d)) * (1 + (1 - d) / 12).

Definition rowTimes3 (v : Vector) (m : Matrix) : Vector :=
  map (fun c => v.[0] * m.[c] + v.[1] * m.[3 + c] + v.[2] * m.[6 + c]) (seq 0 3).

Definition timesColumn3 (v : Vector) (m : Matrix) : Vector :=
  map (fun r => m.[3 * r] * v.[0] + m.[3 * r + 1] * v.[1] + m.[3 * r + 2] * v.[2])
      (seq 0 3).

(** Modelled from the spec: the matrix and vector helpers that
    [control.js] calls and does not define. Transforms are 4x4 matrices
    stored row by row with the translation in entries 12 to 14; the speed
    is the magnitude of the velocity; unit vectors come from dividing by
    the length. *)
#[export] Instance matrices : MatrixLib := {|
  Math_sqrt := sqrt;
  mul := product 4;
  nullMatrix4 := repeat 0 16;
  translationDistance2 a b :=
    (a.[12] - b.[12]) * (a.[12] - b.[12])
    + (a.[13] - b.[13]) * (a.[13] - b.[13])
    + (a.[14] - b.[14]) * (a.[14] - b.[14]);
  translationMatrix := translation;
  rotationMatrix4 := rotation;
  matrix3from4 := upper3;
  matrix4from3 := embed4;
  inverse3 := invert3;
  transposed3 := transpose3;
  normalizeVector := normalize;
  normalizeVector2D := normalize;
  vectorDotProduct := dot;
  crossProduct := cross;
  angleDifferenceOfUnitVectors := angle;
  angleDifferenceOfUnitVectors2D := angle;
  vector3Matrix3Product := rowTimes3;
  matrix3Vector3Product := timesColumn3
|}.

(** Modelled from the spec: the burn estimators of the spacecraft, which
    [control.js] calls and does not define. The burn fraction is
    [min(1, requiredForce / limit)], where the required force is the error
    times the mass, or the error alone in the angular case. *)
#[export] Instance estimators : SpacecraftApi := {|
  getNeededBurnForAcc s a :=
    Qmin 1 (a * mass (physicalModel s) / thrust (propulsion s));
  getNeededBurnForAngularAcc s a :=
    Qmin 1 (a / angularThrust (propulsion s))
|}.

(** Modelled from the spec: the map size and the camera's [update], which
    [control.js] uses and does not define. The dispatcher updates the
    active camera once per tick; here [update] leaves the camera as the
    controllers set it. *)
#[export] Instance scene : Scene := {|
  mapSize := 250;
  Camera_update c _ := c
|}.

(** A spacecraft at rest at the origin, and variations of it. *)
Definition atRest : PhysicalModel :=
  {| position := identity4; orientation := identity4;
     velocity := nullMatrix4; angularVelocity := identity4;
     mass := 1; modelMatrixInverse := identity4 |}.

Definition moving (vx vy vz : Q) : PhysicalModel :=
  {| position := identity4; orientation := identity4;
     velocity := [0;0;0;0; 0;0;0;0; 0;0;0;0; vx; vy; vz; 0];
     angularVelocity := identity4;
     mass := 1; modelMatrixInverse := identity4 |}.

Definition craft (pm : PhysicalModel) (c : option Controller) : Spacecraft :=
  {| physicalModel := pm;
     propulsion := {| thrust := 1; angularThrust := 1 |};
     controller := c;
     subnodes := [ {| texture_filename := "textures/white.png"; visible := false |} ] |}.

Definition goalAt (x y z : Q) : Goal := {| Goal_position := translation x y z |}.

(** The key-press event of a printable character. *)
Definition key (c : Z) : KeyEvent :=
  {| which := Some c; keyCode := 0; charCode := c |}.

Definition camera (followed : option VisualObject) (v av : Vector) : Camera.t :=
  {| Camera.controllableDirection := true;
     Camera.controllablePosition := true;
     Camera.position := identity4; Camera.orientation := identity4;
     Camera.velocity := v; Camera.angularVelocity := av;
     Camera.maxSpeed := 5; Camera.acceleration := 0.1;
     Camera.maxTurn := 0.1; Camera.angularAcceleration := 0.01;
     Camera.fov := 45; Camera.followedObject := followed;
     Camera.followPosition := translation 0 (-10) 2;
     Camera.followOrientation := identity4;
     Camera.followedCamera := None; Camera.matrix := identity4 |}.

Definition world (index : Z) (queue : list KeyEvent) (crafts : list Spacecraft)
  : World :=
  {| activeCameraIndex := Int index;
     currentlyPressedKeys := ∅;
     keyPressEvents := queue;
     lightTurn := false;
     cameras := [camera None [0;0;0] [0;0;0]; camera None [0;0;0] [0;0;0];
                 camera None [0;0;0] [0;0;0]];
     activeCamera := camera None [0;0;0] [0;0;0];
     spacecrafts := crafts;
     randoms := fun n => Z.of_nat (n mod 10) # 10;
     drawn := 0 |}.

End Reference.

(** * Vocabulary of the properties *)

(** The calls that burn one of the thruster groups [uses]. *)
Definition callsOn (uses : list string) (calls : list ThrusterCall)
  : list ThrusterCall :=
  List.filter (fun c => existsb (fun u => onUse u c) uses) calls.

(** The directional burns, which the autonomous controller uses to brake
    along the velocity. *)
Definition directionalCalls (calls : list ThrusterCall) : list ThrusterCall :=
  List.filter isDirectional calls.

(** The events other than the mode toggle. *)
Definition notToggle (event : KeyEvent) : bool := negb (charIs event char_o).

(** The number of mode-toggle events of a queue. *)
Definition toggles (q : list KeyEvent) : nat :=
  length (List.filter (fun event => charIs event char_o) q).

(** The thruster groups that move the craft sideways, up and down, and
    along its nose. *)
Definition translationUses : list string :=
  ["slideLeft"; "slideRight"; "raise"; "lower"; "forward"; "reverse"].

(** The thruster groups and the call kind that move the craft along its
    course: the forward and reverse groups and the directional burn. *)
Definition courseUses : list string := ["forward"; "reverse"].

(** The thruster groups of the yaw and pitch policy. *)
Definition headingUses : list string :=
  ["yawLeft"; "yawRight"; "pitchUp"; "pitchDown"].

(** The calls that act on the course, in the order they are made: the
    directional burns and the burns of the forward and reverse groups. *)
Definition courseCalls (calls : list ThrusterCall) : list ThrusterCall :=
  List.filter
    (fun c => isDirectional c || existsb (fun u => onUse u c) courseUses) calls.

(** A vector all of whose components are zero. *)
Definition isZeroVector (v : Vector) : bool :=
  forallb (fun x => Qeq_bool x 0) v.

(** The goal sits where the craft is. *)
Definition goalReached (g : Goal) (pm : PhysicalModel) : Prop :=
  (Goal_position g).[12] == (position pm).[12]
  /\ (Goal_position g).[13] == (position pm).[13]
  /\ (Goal_position g).[14] == (position pm).[14].

(** The thruster groups that turn the craft. *)
Definition turningUses : list string :=
  ["yawLeft"; "yawRight"; "pitchUp"; "pitchDown"; "rollLeft"; "rollRight"].

(** A burn as the manual controller makes them: on a named group, by at
    most 0.5, or capped at 0.5. It is no call to fire or to reset, and no
    directional burn. *)
Definition manualBurn (c : ThrusterCall) : Prop :=
  match c with
  | AddThrusterBurn _ value => value <= 0.5
  | AddThrusterBurnCapped _ value _ => value = 0.5
  | _ => False
  end.

(** A burn as the autonomous controller makes them: 0.5 or 0.375 on the
    forward group, 0.5 on a turning group, a turning burn capped at 0.5, or
    a directional burn along [velocityVector] by an amount in [-0.5, 0). *)
Definition autonomousBurn (velocityVector : Vector) (c : ThrusterCall) : Prop :=
  match c with
  | AddThrusterBurn u value =>
      (u = "forward"%string /\ (value = 0.5 \/ value = 0.375))
      \/ (In u turningUses /\ value = 0.5)
  | AddThrusterBurnCapped u value _ => In u turningUses /\ value = 0.5
  | AddDirectionalThrusterBurn direction value =>
      direction = velocityVector /\ value < 0 /\ -0.5 <= value
  | _ => False
  end.

(** A rate [v'] that is the rate [v] decayed by at most [step]: on the
    same side of zero, no larger, and zero when [v] was within [step] of
    zero. *)
Definition decayed (step v v' : Q) : Prop :=
  (0 <= v -> 0 <= v') /\ (v <= 0 -> v' <= 0)
  /\ Qabs v' <= Qabs v
  /\ (Qabs v <= step -> v' == 0).

(** The world a statement ends in, whether it ends normally (with a
    result that holds the world) or by throwing. *)
Definition worldOf {A} (c : Completion A) (world : A -> World) : World :=
  match c with
  | Normal a => world a
  | Throw w => w
  end.

(** A spacecraft as the stop-all event is to leave it: an autonomous
    controller has the empty goal queue; a manual controller, the physical
    model, the propulsion and the nodes are as they were. *)
Definition stopped (s : Spacecraft) : Spacecraft :=
  {| physicalModel := physicalModel s;
     propulsion := propulsion s;
     controller :=
       match controller s with
       | Some (Autonomous _) => Some (Autonomous {| goals := [] |})
       | kept => kept
       end;
     subnodes := subnodes s |}.

(** What the hitbox event makes of a spacecraft. *)
Definition hitboxesToggled (s : Spacecraft) : Spacecraft :=
  with_subnodes (map toggleHitbox (subnodes s)) s.

(** An event that runs neither of the two inner loops of the dispatcher
    (stop-all, '0', and hitbox visibility, 'h'). *)
Definition plainEvent (event : KeyEvent) : bool :=
  negb (charIs event char_0) && negb (charIs event char_h).

Section WordedPolicy.
Context {lib : MatrixLib} {api : SpacecraftApi}.

(** The pitch block as the policy is worded, each branch gated by the
    stopping-distance check of the pitch axis itself:
    [pitchAngularVelocity^2 < 2 * pitchAngleDifference * turnAcc]. *)
Definition AI_pitch_own_axis (controlledEntity : Spacecraft)
    (t6 r2 pitchAngleDifference pitchAngularVelocity turnAcc : Q)
  : list ThrusterCall :=
  if (pitchAngleDifference >? 0.01) || (Qabs t6 >? 0.0001) then
    if r2 >? 0.0001 then
      if (t6 <? TURNING_LIMIT)
         && (pitchAngularVelocity * pitchAngularVelocity <? 2 * pitchAngleDifference * turnAcc)
      then [AddThrusterBurn "pitchUp" 0.5]
      else if t6 >? 0.0001 then
        [AddThrusterBurnCapped "pitchDown" 0.5
           (getNeededBurnForAngularAcc controlledEntity pitchAngularVelocity)]
      else []
    else if r2 <? -0.0001 then
      if (t6 >? - TURNING_LIMIT)
         && (pitchAngularVelocity * pitchAngularVelocity <? 2 * pitchAngleDifference * turnAcc)
      then [AddThrusterBurn "pitchDown" 0.5]
      else if t6 <? -0.0001 then
        [AddThrusterBurnCapped "pitchUp" 0.5
           (getNeededBurnForAngularAcc controlledEntity pitchAngularVelocity)]
      else []
    else []
  else [].

(** The pose of a camera in follow mode as the policy is worded: the
    followed entity's current transform composed with the fixed local
    follow-offset, the orientation with the offset's orientation and the
    position with the offset's position. *)
Definition followingOrientation (followedObject : VisualObject)
    (followOrientation : Matrix) : Matrix :=
  mul (getOrientation followedObject) followOrientation.

Definition followingPosition (followedObject : VisualObject)
    (followPosition : Matrix) : Matrix :=
  mul (getPosition followedObject) followPosition.

End WordedPolicy.

Section EventsInTurn.
Context {lib : MatrixLib} {scene : Scene}.

(** The events of a queue handled in turn, once each, every event leaving
    the queue as it is handled. *)
Fixpoint handleInTurn (queue : list KeyEvent) (w : World) : Completion World :=
  match queue with
  | [] => Normal w
  | event :: queue =>
      match handleEvent w 0 event with
      | Throw w' => Throw w'
      | Normal (w', _) => handleInTurn queue (with_keyPressEvents queue w')
      end
  end.

End EventsInTurn.

(** * Properties *)

(** ** Comparisons *)

Lemma Qltb_lt (a b : Q) : (a <? b) = true <-> a < b.
Proof.
  unfold Qltb. rewrite Qlt_alt. destruct (a ?= b); intuition congruence.
Qed.

Lemma Qltb_ge (a b : Q) : (a <? b) = false <-> b <= a.
Proof.
  rewrite <- not_true_iff_false, Qltb_lt. split; [apply Qnot_lt_le|apply Qle_not_lt].
Qed.

Lemma Qgtb_gt (a b : Q) : (a >? b) = true <-> b < a.
Proof. apply Qltb_lt. Qed.

Lemma Qgtb_le (a b : Q) : (a >? b) = false <-> a <= b.
Proof. apply Qltb_ge. Qed.

(** Decide every comparison of the goal, keeping the facts for [lra]. *)
Ltac compare_all :=
  repeat match goal with
  | |- context [Qltb ?a ?b] =>
      let E := fresh "E" in
      destruct (Qltb a b) eqn:E;
      [apply Qltb_lt in E | apply Qltb_ge in E]
  | |- context [Qgtb ?a ?b] =>
      let E := fresh "E" in
      destruct (Qgtb a b) eqn:E;
      [apply Qgtb_gt in E | apply Qgtb_le in E]
  end.

(** ** Reading the calls of an invocation *)

Lemma callsOn_app uses l1 l2 :
  callsOn uses (l1 ++ l2) = callsOn uses l1 ++ callsOn uses l2.
Proof. apply List.filter_app. Qed.

Lemma directionalCalls_app l1 l2 :
  directionalCalls (l1 ++ l2) = directionalCalls l1 ++ directionalCalls l2.
Proof. apply List.filter_app. Qed.

Lemma callsOn_cons uses c l :
  callsOn uses (c :: l) = callsOn uses [c] ++ callsOn uses l.
Proof. apply (callsOn_app uses [c] l). Qed.

Lemma callsOn_skip uses c l :
  (forall u, onUse u c = false) -> callsOn uses (c :: l) = callsOn uses l.
Proof.
  intros Hc. unfold callsOn. cbn [List.filter].
  replace (existsb _ uses) with false; [reflexivity|].
  symmetry. apply not_true_iff_false. rewrite existsb_exists.
  intros (u & _ & Hu). now rewrite Hc in Hu.
Qed.

(** Decide every test of the goal. *)
Ltac branch_all :=
  repeat match goal with
  | |- context [if ?b then _ else _] => destruct b
  end.

(** ** The mode-toggle loop of the manual controller *)

Lemma toggleFlightModes_step i q fm :
  toggleFlightModes i q fm =
  if (i <? Z.of_nat (length q))%Z then
    match q !! Z.to_nat i with
    | None => (q, fm)
    | Some event =>
        if charIs event char_o
        then toggleFlightModes (i - 1 + 1) (splice1 i q) (nextFlightMode fm)
        else toggleFlightModes (i + 1) q fm
    end
  else (q, fm).
Proof.
  funelim (toggleFlightModes i q fm);
    repeat match goal with
    | E : ?x = _ |- context [?x] => rewrite E
    end; reflexivity.
Qed.


(** The loop at index [length pre], with [pre] already scanned and kept. *)
Lemma toggleFlightModes_scan (suf pre : list KeyEvent) (fm : Z) :
  toggleFlightModes (Z.of_nat (length pre)) (pre ++ suf) fm =
  (pre ++ List.filter notToggle suf, Nat.iter (toggles suf) nextFlightMode fm).
Proof.
  revert pre fm. induction suf as [|event suf IH]; intros pre fm.
  - cbn [List.filter]. rewrite toggleFlightModes_step, app_nil_r.
    now rewrite Z.ltb_irrefl.
  - rewrite toggleFlightModes_step.
    rewrite length_app. cbn [length].
    destruct (Z.ltb_spec (Z.of_nat (length pre))
                (Z.of_nat (length pre + S (length suf)))); [|lia].
    rewrite Nat2Z.id, list_lookup_middle by reflexivity.
    unfold toggles, notToggle. cbn [List.filter].
    destruct (charIs event char_o) eqn:Ec; cbn [negb length].
    + replace (Z.of_nat (length pre) - 1 + 1)%Z with (Z.of_nat (length pre)) by lia.
      rewrite splice1_nat, delete_middle.
      rewrite IH. unfold toggles, notToggle.
      now rewrite Nat.iter_succ_r.
    + replace (Z.of_nat (length pre) + 1)%Z
        with (Z.of_nat (length (pre ++ [event]))) by (rewrite length_app; cbn; lia).
      rewrite (cons_middle event pre suf), app_assoc.
      rewrite IH. unfold toggles, notToggle.
      now rewrite <- app_assoc.
Qed.

Lemma toggleFlightModes_filter (q : list KeyEvent) (fm : Z) :
  toggleFlightModes 0 q fm =
  (List.filter notToggle q, Nat.iter (toggles q) nextFlightMode fm).
Proof. apply (toggleFlightModes_scan q [] fm). Qed.

(** On the flight modes 0 and 1, [n] toggles add [n] modulo the number of
    modes. *)
Lemma toggles_modulo (n : nat) (fm : Z) :
  (0 <= fm < NUM_FLIGHTMODES)%Z ->
  Nat.iter n nextFlightMode fm = ((fm + Z.of_nat n) mod NUM_FLIGHTMODES)%Z.
Proof.
  unfold NUM_FLIGHTMODES. intros Hfm. induction n as [|n IH].
  - cbn. rewrite Z.add_0_r, Z.mod_small; lia.
  - rewrite Nat.iter_succ, IH. unfold nextFlightMode, NUM_FLIGHTMODES.
    rewrite Z.rem_mod_nonneg by (try lia; pose proof (Z.mod_pos_bound (fm + Z.of_nat n) 2); lia).
    rewrite Zplus_mod_idemp_l. f_equal. lia.
Qed.

(** From any number taken as a flight mode, [n] toggles add [n] up to a
    multiple of the number of modes. *)
Lemma toggles_congruent (n : nat) (fm : Z) :
  (Nat.iter n nextFlightMode fm mod NUM_FLIGHTMODES
   = (fm + Z.of_nat n) mod NUM_FLIGHTMODES)%Z.
Proof.
  unfold NUM_FLIGHTMODES. induction n as [|n IH].
  - cbn. now rewrite Z.add_0_r.
  - rewrite Nat.iter_succ. unfold nextFlightMode at 1, NUM_FLIGHTMODES.
    set (x := Nat.iter n nextFlightMode fm) in *.
    pose proof (Z.quot_rem' (x + 1) 2) as Hrem.
    replace (Z.rem (x + 1) 2) with (x + 1 + - ((x + 1) ÷ 2) * 2)%Z by lia.
    rewrite Z_mod_plus_full, <- Zplus_mod_idemp_l, IH, Zplus_mod_idemp_l.
    f_equal. lia.
Qed.

Section ManualProperties.
Context {lib : MatrixLib} {api : SpacecraftApi}.

(** C10. One invocation of the manual controller removes from the shared
    key-press queue exactly the events whose character is 'o' and leaves
    the other events in place, in their order. The flight mode is toggled
    once per removed event, modulo the number of flight modes: the mode it
    ends with is the mode it started with plus the number of 'o' events,
    up to a multiple of the number of modes; and from one of the flight
    modes (0 or 1) it is that sum modulo the number of modes. *)
Theorem fighter_control_consumes_toggles
    (this : FighterController) (controlledEntity : Spacecraft)
    (keys : gmap Z bool) (queue : list KeyEvent) :
  fighter_queue (FighterController_control this controlledEntity keys queue)
  = List.filter notToggle queue
  /\ (flightMode (fighter_after (FighterController_control this controlledEntity keys queue))
        mod NUM_FLIGHTMODES
      = (flightMode this + Z.of_nat (toggles queue)) mod NUM_FLIGHTMODES)%Z
  /\ ((0 <= flightMode this < NUM_FLIGHTMODES)%Z ->
      flightMode (fighter_after (FighterController_control this controlledEntity keys queue))
      = ((flightMode this + Z.of_nat (toggles queue)) mod NUM_FLIGHTMODES)%Z).
Proof.
  unfold FighterController_control.
  rewrite toggleFlightModes_filter.
  destruct (fighter_throttle _ _ _ _) as [throttle intended].
  cbn [fighter_queue fighter_after flightMode].
  split; [reflexivity|]. split.
  - apply toggles_congruent.
  - apply toggles_modulo.
Qed.

(** In compensated mode the throttle keys only move the intended speed. *)
Lemma fighter_throttle_compensated keys intended controlledEntity :
  fst (fighter_throttle keys FM_COMPENSATED intended controlledEntity) = [].
Proof.
  unfold fighter_throttle. cbn [Z.eqb FM_COMPENSATED FM_INERTIAL Pos.eqb].
  branch_all; reflexivity.
Qed.

(** The turning blocks burn the turning thrusters only. *)
Lemma fighter_turning_uses keys controlledEntity turningMatrix uses :
  incl uses translationUses ->
  callsOn uses (fighter_yaw keys controlledEntity turningMatrix) = []
  /\ callsOn uses (fighter_pitch keys controlledEntity turningMatrix) = []
  /\ callsOn uses (fighter_roll keys controlledEntity turningMatrix) = [].
Proof.
  intros Hincl.
  assert (Hno : forall u' v, (u' = "yawLeft" \/ u' = "yawRight" \/ u' = "pitchUp"
            \/ u' = "pitchDown" \/ u' = "rollLeft" \/ u' = "rollRight")%string ->
            existsb (fun u => onUse u (AddThrusterBurn u' v)) uses = false).
  { intros u' v Hu. apply not_true_iff_false. rewrite existsb_exists.
    intros (u & Hin & Hon). apply Hincl in Hin. cbn in Hon.
    apply bool_decide_eq_true in Hon. subst u'.
    unfold translationUses in Hin. cbn in Hin.
    intuition (subst; discriminate). }
  unfold fighter_yaw, fighter_pitch, fighter_roll, callsOn.
  repeat split;
    branch_all; cbn [List.filter app]; rewrite ?Hno by tauto; reflexivity.
Qed.

Section Compensated.
Variables (this : FighterController) (controlledEntity : Spacecraft)
          (keys : gmap Z bool) (queue : list KeyEvent).

Local Abbreviation out := (FighterController_control this controlledEntity keys queue).
Local Abbreviation rv := (relativeVelocityOf (physicalModel controlledEntity)).
Local Abbreviation target := (intendedSpeed (fighter_after out)).
Local Abbreviation needed := (getNeededBurnForAcc controlledEntity).

(** C7. In compensated mode (the mode in force once the queued toggles
    are processed), with the intended speed as this invocation leaves it:
    a strafe, vertical or longitudinal component of the frame-relative
    velocity within 0.0001 of its target (0, 0, the intended speed) gets no
    call on its pair of thruster groups; a component further away gets
    exactly one burn, capped at 0.5, on the group matching the sign of the
    deviation, for the burn needed to cancel it. *)
Theorem compensated_deadband :
  flightMode (fighter_after out) = FM_COMPENSATED ->
  (* strafe *)
  (Qabs (rv.[12] - 0) <= 0.0001 ->
     callsOn ["slideLeft"; "slideRight"] (fighter_calls out) = [])
  /\ (rv.[12] - 0 < -0.0001 ->
     callsOn ["slideLeft"; "slideRight"] (fighter_calls out)
     = [AddThrusterBurnCapped "slideRight" 0.5 (needed (- rv.[12]))])
  /\ (0.0001 < rv.[12] - 0 ->
     callsOn ["slideLeft"; "slideRight"] (fighter_calls out)
     = [AddThrusterBurnCapped "slideLeft" 0.5 (needed rv.[12])])
  (* vertical *)
  /\ (Qabs (rv.[14] - 0) <= 0.0001 ->
     callsOn ["raise"; "lower"] (fighter_calls out) = [])
  /\ (rv.[14] - 0 < -0.0001 ->
     callsOn ["raise"; "lower"] (fighter_calls out)
     = [AddThrusterBurnCapped "raise" 0.5 (needed (- rv.[14]))])
  /\ (0.0001 < rv.[14] - 0 ->
     callsOn ["raise"; "lower"] (fighter_calls out)
     = [AddThrusterBurnCapped "lower" 0.5 (needed rv.[14])])
  (* longitudinal *)
  /\ (Qabs (rv.[13] - target) <= 0.0001 ->
     callsOn ["forward"; "reverse"] (fighter_calls out) = [])
  /\ (rv.[13] - target < -0.0001 ->
     callsOn ["forward"; "reverse"] (fighter_calls out)
     = [AddThrusterBurnCapped "forward" 0.5 (needed (target - rv.[13]))])
  /\ (0.0001 < rv.[13] - target ->
     callsOn ["forward"; "reverse"] (fighter_calls out)
     = [AddThrusterBurnCapped "reverse" 0.5 (needed (rv.[13] - target))]).
Proof.
  unfold FighterController_control.
  destruct (toggleFlightModes 0 queue (flightMode this)) as [queue' fm].
  pose proof (fighter_throttle_compensated keys (intendedSpeed this) controlledEntity)
    as Hthrottle.
  destruct (fighter_throttle keys fm _ _) as [throttle intended] eqn:Et.
  cbn [fighter_after fighter_calls flightMode intendedSpeed].
  intros ->. rewrite Et in Hthrottle. cbn [fst] in Hthrottle. subst throttle.
  assert (Hcalls : forall uses, incl uses translationUses ->
    callsOn uses
      ((if pressed keys 70 then [Fire] else []) ++ [ResetThrusterBurn] ++ []
       ++ fighter_compensate FM_COMPENSATED intended controlledEntity rv
       ++ fighter_yaw keys controlledEntity (turningMatrixOf (physicalModel controlledEntity))
       ++ fighter_pitch keys controlledEntity (turningMatrixOf (physicalModel controlledEntity))
       ++ fighter_roll keys controlledEntity (turningMatrixOf (physicalModel controlledEntity)))
    = callsOn uses (fighter_compensate FM_COMPENSATED intended controlledEntity rv)).
  { intros uses Hincl. rewrite !callsOn_app.
    destruct (fighter_turning_uses keys controlledEntity
                (turningMatrixOf (physicalModel controlledEntity)) uses Hincl)
      as (-> & -> & ->).
    rewrite !app_nil_r.
    destruct (pressed keys 70); rewrite !callsOn_skip by reflexivity; reflexivity. }
  rewrite !Hcalls by (unfold translationUses; intros u Hu; cbn in *; tauto).
  clear Hcalls Et.
  unfold fighter_compensate. cbn [Z.eqb FM_COMPENSATED Pos.eqb].
  generalize (rv.[12]) (rv.[13]) (rv.[14]). intros v12 v13 v14.
  rewrite !Qabs_Qle_condition.
  compare_all; cbn; repeat split; intros; try reflexivity; exfalso; lra.
Qed.

End Compensated.

(** The manual controller normalizes no zero vector: the velocity is
    normalized under the speed test, and a turning vector only in the
    damping branches, where one of its components is beyond the deadband.
    The two assumptions say what [Math.sqrt] and [translationDistance2]
    are: no positive root of a number that is not positive, and the
    squared length of the translation part. *)
Lemma fighter_normalizes_nonzero (controlledEntity : Spacecraft) (keys : gmap Z bool) :
  (forall x : Q, x <= 0 -> Math_sqrt x <= 0) ->
  (forall m : Matrix,
     translationDistance2 m nullMatrix4
     == m.[12] * m.[12] + m.[13] * m.[13] + m.[14] * m.[14]) ->
  forallb (fun v => negb (isZeroVector v)) (fighter_normalized controlledEntity keys)
  = true.
Proof.
  intros Hsqrt Hdist. unfold fighter_normalized.
  set (pm := physicalModel controlledEntity).
  assert (Hpair : forall rate a b : Q,
            (rate == a \/ rate == b) ->
            (rate < -0.0001 \/ 0.0001 < rate) ->
            negb (isZeroVector [a; b]) = true).
  { intros rate a b Hrate Hbeyond. apply negb_true_iff, not_true_iff_false.
    unfold isZeroVector. cbn [forallb]. rewrite !andb_true_iff, !Qeq_bool_iff.
    intros (Ha & Hb & _). destruct Hrate; lra. }
  assert (Hvelocity : (speedOf pm >? 0) = true ->
            negb (isZeroVector (velocity3 pm)) = true).
  { intros Hspeed. apply Qgtb_gt in Hspeed.
    apply negb_true_iff, not_true_iff_false.
    unfold isZeroVector, velocity3. cbn [forallb].
    rewrite !andb_true_iff, !Qeq_bool_iff. intros (H12 & H13 & H14 & _).
    unfold speedOf, speed2Of in Hspeed.
    specialize (Hdist (velocity pm)).
    assert (Hzero : translationDistance2 (velocity pm) nullMatrix4 <= 0).
    { rewrite Hdist, H12, H13, H14. lra. }
    apply Hsqrt in Hzero. lra. }
  rewrite !forallb_app.
  repeat (apply andb_true_intro; split).
  - destruct (speedOf pm >? 0) eqn:E; [|reflexivity].
    cbn [forallb]. now rewrite Hvelocity.
  - compare_all; branch_all; cbn [forallb]; rewrite ?andb_true_r;
      try reflexivity; eapply Hpair; eauto; left; reflexivity.
  - compare_all; branch_all; cbn [forallb]; rewrite ?andb_true_r;
      try reflexivity; eapply Hpair; eauto; right; reflexivity.
  - compare_all; branch_all; cbn [forallb]; rewrite ?andb_true_r;
      try reflexivity; eapply Hpair; eauto; right; reflexivity.
Qed.

End ManualProperties.

(** ** The autonomous controller *)



Section AutonomousProperties.
Context {lib : MatrixLib} {api : SpacecraftApi}.


Lemma AI_roll_calls controlledEntity turningMatrix :
  callsOn (courseUses ++ headingUses) (AI_roll controlledEntity turningMatrix) = []
  /\ directionalCalls (AI_roll controlledEntity turningMatrix) = [].
Proof. unfold AI_roll. split; branch_all; reflexivity. Qed.

Lemma AI_yaw_calls controlledEntity t4 r0 d v turnAcc :
  callsOn courseUses (AI_yaw controlledEntity t4 r0 d v turnAcc) = []
  /\ directionalCalls (AI_yaw controlledEntity t4 r0 d v turnAcc) = [].
Proof. unfold AI_yaw. split; branch_all; reflexivity. Qed.

Lemma AI_pitch_calls controlledEntity t6 r2 d v yd yv turnAcc :
  callsOn courseUses (AI_pitch controlledEntity t6 r2 d v yd yv turnAcc) = []
  /\ directionalCalls (AI_pitch controlledEntity t6 r2 d v yd yv turnAcc) = [].
Proof. unfold AI_pitch. split; branch_all; reflexivity. Qed.

(** C6. When the head goal is closer than 0.5, one invocation removes
    exactly that goal, the rest of the queue keeping its order, and makes
    no call for a longitudinal, yaw or pitch burn: it resets the thrusters
    and damps the roll. *)
Theorem AI_arrival_pops_head
    (this : AIController) (controlledEntity : Spacecraft)
    (g : Goal) (rest : list Goal) :
  goals this = g :: rest ->
  distanceTo g (physicalModel controlledEntity) < 0.5 ->
  goals (AI_after (AIController_control this controlledEntity)) = rest
  /\ AI_calls (AIController_control this controlledEntity)
     = ResetThrusterBurn
       :: AI_roll controlledEntity (turningMatrixOf (physicalModel controlledEntity))
  /\ callsOn (courseUses ++ headingUses)
       (AI_calls (AIController_control this controlledEntity)) = []
  /\ directionalCalls (AI_calls (AIController_control this controlledEntity)) = [].
Proof.
  intros Hgoals Hnear. unfold AIController_control. rewrite Hgoals.
  apply Qltb_lt in Hnear. rewrite Hnear. cbn [AI_after AI_calls goals app].
  destruct (AI_roll_calls controlledEntity
              (turningMatrixOf (physicalModel controlledEntity))) as [Hr Hd].
  repeat split.
  - rewrite callsOn_skip by reflexivity. exact Hr.
  - unfold directionalCalls in *. cbn [List.filter isDirectional]. exact Hd.
Qed.

(** C5. With the head goal at distance 0.5 or more, the velocity pointing
    at it (the closing speed is not negative and makes up the speed, to
    the 0.1 percent within which the code tells the two apart) and the
    squared speed within [2 * distance * acceleration], one invocation
    burns the forward group by 0.5, once, keeps the goal, and makes no
    braking call: no directional burn and none on the reverse group. The
    heading error plays no part. *)
Theorem AI_goal_ahead_burns_forward
    (this : AIController) (controlledEntity : Spacecraft)
    (g : Goal) (rest : list Goal) :
  goals this = g :: rest ->
  0.5 <= distanceTo g (physicalModel controlledEntity) ->
  speedOf (physicalModel controlledEntity) * 0.999
  <= speedTowards g (physicalModel controlledEntity) ->
  0 <= speedTowards g (physicalModel controlledEntity) ->
  speed2Of (physicalModel controlledEntity)
  <= 2 * distanceTo g (physicalModel controlledEntity)
     * (thrust (propulsion controlledEntity) / mass (physicalModel controlledEntity)) ->
  callsOn ["forward"] (AI_calls (AIController_control this controlledEntity))
  = [AddThrusterBurn "forward" 0.5]
  /\ callsOn ["reverse"] (AI_calls (AIController_control this controlledEntity)) = []
  /\ directionalCalls (AI_calls (AIController_control this controlledEntity)) = []
  /\ goals (AI_after (AIController_control this controlledEntity)) = g :: rest.
Proof.
  set (pm := physicalModel controlledEntity).
  intros Hgoals Hfar Htowards Hclosing Hstop.
  unfold AIController_control. rewrite Hgoals. fold pm.
  apply Qltb_ge in Hfar. rewrite Hfar. cbn [AI_after AI_calls].
  assert (Hlong :
    AI_longitudinal controlledEntity (velocityVectorOf pm) (speedOf pm) (speed2Of pm)
      (thrust (propulsion controlledEntity) / mass pm) (distanceTo g pm)
      (speedTowards g pm) (speedTowards g pm * speedTowards g pm)
      (angleDifferenceOfUnitVectors (directionVectorOf pm) (toGoalOf g pm))
    = [AddThrusterBurn "forward" 0.5]).
  { unfold AI_longitudinal.
    apply Qltb_ge in Hclosing. rewrite Hclosing.
    apply Qgtb_le in Htowards. rewrite Htowards.
    apply Qgtb_le in Hstop. now rewrite Hstop. }
  unfold AI_manoeuvre. fold pm. rewrite Hlong.
  match goal with
  | |- context [AI_yaw ?e ?a ?b ?c ?d ?f] =>
      destruct (AI_yaw_calls e a b c d f) as [Hy Hyd];
      generalize dependent (AI_yaw e a b c d f)
  end.
  intros yaw Hy Hyd.
  match goal with
  | |- context [AI_pitch ?e ?a ?b ?c ?d ?f ?h ?k] =>
      destruct (AI_pitch_calls e a b c d f h k) as [Hp Hpd];
      generalize dependent (AI_pitch e a b c d f h k)
  end.
  intros pitch Hp Hpd.
  destruct (AI_roll_calls controlledEntity (turningMatrixOf pm)) as [Hr Hrd].
  generalize dependent (AI_roll controlledEntity (turningMatrixOf pm)).
  intros roll Hr Hrd.
  assert (Hsub : forall u l, In u courseUses ->
            callsOn courseUses l = [] -> callsOn [u] l = []).
  { intros u l Hu. unfold callsOn. induction l as [|c l IH]; [reflexivity|].
    cbn [List.filter]. destruct (existsb _ courseUses) eqn:E; [discriminate|].
    intros Hl. destruct (existsb _ [u]) eqn:E'; [|auto].
    exfalso. cbn in E'. rewrite orb_false_r in E'.
    apply not_true_iff_false in E. apply E. apply existsb_exists. eauto. }
  assert (Hsub' : forall u l, In u courseUses ->
            callsOn (courseUses ++ headingUses) l = [] -> callsOn [u] l = []).
  { intros u l Hu. unfold callsOn. induction l as [|c l IH]; [reflexivity|].
    cbn [List.filter]. destruct (existsb _ (courseUses ++ headingUses)) eqn:E; [discriminate|].
    intros Hl. destruct (existsb _ [u]) eqn:E'; [|auto].
    exfalso. cbn in E'. rewrite orb_false_r in E'.
    apply not_true_iff_false in E. apply E. apply existsb_exists.
    exists u. split; [apply in_or_app; auto|assumption]. }
  repeat split.
  - cbn [app]. rewrite callsOn_skip by reflexivity.
    rewrite callsOn_cons, !callsOn_app.
    rewrite (Hsub "forward"%string yaw), (Hsub "forward"%string pitch),
      (Hsub' "forward"%string roll); cbn; auto.
  - cbn [app]. rewrite callsOn_skip by reflexivity.
    rewrite callsOn_cons, !callsOn_app.
    rewrite (Hsub "reverse"%string yaw), (Hsub "reverse"%string pitch),
      (Hsub' "reverse"%string roll); cbn; auto.
  - cbn [app]. unfold directionalCalls in *. cbn [List.filter isDirectional].
    rewrite !List.filter_app, Hyd, Hpd, Hrd. reflexivity.
  - exact Hgoals.
Qed.

(** The braking burn of the idle branch lies in [-0.5, 0). *)
Lemma idle_burn_bounds (thrust speed mass : Q) :
  0 < thrust -> 0 < speed -> 0 < mass ->
  0.5 * - Qmin thrust (speed * mass) / thrust < 0
  /\ -0.5 <= 0.5 * - Qmin thrust (speed * mass) / thrust.
Proof.
  intros Ht Hs Hm.
  assert (Hsm : 0 < speed * mass) by (apply Qmult_lt_0_compat; assumption).
  assert (Hmin : 0 < Qmin thrust (speed * mass)) by (apply Q.min_glb_lt; assumption).
  pose proof (Q.le_min_l thrust (speed * mass)) as Hle.
  set (m := Qmin thrust (speed * mass)) in *.
  split.
  - apply Qlt_shift_div_r; [assumption|lra].
  - apply Qle_shift_div_l; [assumption|lra].
Qed.

(** The same bounds for a thrust of either sign: with a negative thrust
    the minimum is the thrust itself and the amount is -0.5. *)
Lemma idle_burn_any_thrust (thrust speed mass : Q) :
  ~ thrust == 0 -> 0 < speed -> 0 < mass ->
  0.5 * - Qmin thrust (speed * mass) / thrust < 0
  /\ -0.5 <= 0.5 * - Qmin thrust (speed * mass) / thrust.
Proof.
  intros Hne Hs Hm. destruct (Qlt_le_dec 0 thrust) as [Hpos|Hneg].
  - now apply idle_burn_bounds.
  - assert (Hsm : 0 < speed * mass) by (apply Qmult_lt_0_compat; assumption).
    assert (Hmin : Qmin thrust (speed * mass) == thrust) by (apply Q.min_l; lra).
    assert (Hamount : 0.5 * - Qmin thrust (speed * mass) / thrust == -0.5).
    { rewrite Hmin. field. exact Hne. }
    rewrite Hamount. split; lra.
Qed.

(** C9 (amended). With no goal and a speed above zero, on a craft of
    positive mass whose thrust is not zero, one invocation makes exactly
    one directional burn, along the normalized velocity, by an amount that
    is negative (the burn opposes the velocity), not zero, and of
    magnitude at most 1. *)
Theorem AI_idle_brakes
    (this : AIController) (controlledEntity : Spacecraft) :
  goals this = [] ->
  0 < speedOf (physicalModel controlledEntity) ->
  ~ thrust (propulsion controlledEntity) == 0 ->
  0 < mass (physicalModel controlledEntity) ->
  exists amount : Q,
    directionalCalls (AI_calls (AIController_control this controlledEntity))
    = [AddDirectionalThrusterBurn
         (normalizeVector (velocity3 (physicalModel controlledEntity))) amount]
    /\ amount < 0
    /\ ~ amount == 0
    /\ Qabs amount <= 1.
Proof.
  set (pm := physicalModel controlledEntity).
  intros Hgoals Hspeed Hthrust Hmass.
  destruct (idle_burn_any_thrust _ _ _ Hthrust Hspeed Hmass) as [Hneg Hlow].
  eexists. split.
  - unfold AIController_control. rewrite Hgoals. fold pm. cbn [AI_calls].
    unfold AI_idle, velocityVectorOf. fold pm.
    apply Qgtb_gt in Hspeed. rewrite Hspeed.
    destruct (AI_roll_calls controlledEntity (turningMatrixOf pm)) as [_ Hrd].
    unfold directionalCalls in *.
    rewrite !List.filter_app, Hrd.
    cbn [List.filter isDirectional app].
    branch_all; reflexivity.
  - fold pm. repeat split.
    + exact Hneg.
    + lra.
    + apply Qabs_Qle_condition. lra.
Qed.

(** The pitch block follows the worded policy whenever the yaw check and
    the pitch check agree, and whenever the goal is not below the nose. *)
Lemma AI_pitch_agrees controlledEntity t6 r2 pd pv yd yv turnAcc :
  (yv * yv <? 2 * yd * turnAcc) = (pv * pv <? 2 * pd * turnAcc)
  \/ (r2 <? -0.0001) = false ->
  AI_pitch controlledEntity t6 r2 pd pv yd yv turnAcc
  = AI_pitch_own_axis controlledEntity t6 r2 pd pv turnAcc.
Proof.
  unfold AI_pitch, AI_pitch_own_axis. intros [-> | Hr2]; [reflexivity|].
  rewrite Hr2. reflexivity.
Qed.

(** C4 (fails). With the goal below the nose, no pitch rate, a pitch
    error of 0.5, and the craft yawing at 0.3 with a yaw error of 0.02,
    the pitch check [0 < 2 * 0.5 * 1] of the worded policy holds and asks
    for the 0.5 burn on the pitch-down group; the code tests the yaw
    readings instead, [0.3 * 0.3 < 2 * 0.02 * 1], and makes no pitch call.
    The yaw block and the first pitch branch do test their own axis. *)
Theorem AI_pitch_down_gate_reads_yaw (controlledEntity : Spacecraft) :
  AI_pitch controlledEntity 0 (-0.5) 0.5 0 0.02 0.3 1 = []
  /\ AI_pitch_own_axis controlledEntity 0 (-0.5) 0.5 0 1
     = [AddThrusterBurn "pitchDown" 0.5]
  /\ AI_pitch controlledEntity 0 0.5 0.5 0 0.02 0.3 1
     = [AddThrusterBurn "pitchUp" 0.5].
Proof. repeat split. Qed.



(** With the head goal at the craft's own position the offset handed to
    [normalizeVector] for [toGoal] is the zero vector; the arrival test
    comes after the call. *)
Lemma AI_normalizes_reached_goal
    (this : AIController) (controlledEntity : Spacecraft)
    (g : Goal) (rest : list Goal) :
  goals this = g :: rest ->
  goalReached g (physicalModel controlledEntity) ->
  existsb isZeroVector (AI_normalized this controlledEntity) = true.
Proof.
  intros Hgoals (H12 & H13 & H14). unfold AI_normalized. rewrite Hgoals.
  rewrite !existsb_app. cbn [existsb].
  assert (Hzero : isZeroVector (goalOffset g (physicalModel controlledEntity)) = true).
  { unfold isZeroVector, goalOffset. cbn [forallb].
    rewrite !andb_true_iff. repeat split; apply Qeq_bool_iff; lra. }
  rewrite Hzero. cbn [orb]. now rewrite !orb_true_r.
Qed.

(** C3 (fails). When the angular velocity is the identity rotation (the
    craft does not turn: composing it with the orientation gives the
    orientation back), the future direction is the direction, and their
    cross product, handed unguarded to [normalizeVector] for the turning
    axis, is the zero vector. Only the velocity is guarded by a speed
    test. *)
Theorem AI_normalizes_zero_turning_axis
    (this : AIController) (controlledEntity : Spacecraft) :
  (forall v : Vector, isZeroVector (crossProduct v v) = true) ->
  mul (orientation (physicalModel controlledEntity))
      (angularVelocity (physicalModel controlledEntity))
  = orientation (physicalModel controlledEntity) ->
  existsb isZeroVector (AI_normalized this controlledEntity) = true.
Proof.
  intros Hcross Hstill. unfold AI_normalized. rewrite Hstill.
  fold (directionVectorOf (physicalModel controlledEntity)).
  rewrite !existsb_app. cbn [existsb]. rewrite Hcross.
  cbn [orb]. now rewrite !orb_true_r.
Qed.

End AutonomousProperties.

(** ** The camera *)

Section CameraProperties.
Context {lib : MatrixLib}.


Lemma controlCamera_follows keys camera followedObject :
  Camera.followedObject camera = Some followedObject ->
  Camera.orientation (controlCamera keys camera)
  = Camera.orientation (follow camera followedObject)
  /\ Camera.position (controlCamera keys camera)
     = Camera.position (follow camera followedObject).
Proof.
  intros Hfollowed. unfold controlCamera.
  destruct (Camera.controllableDirection camera);
    destruct (Camera.controllablePosition _);
    cbn [Camera.followedObject Camera.with_velocity Camera.with_angularVelocity];
    rewrite Hfollowed;
    destruct (pressed keys 90); destruct (pressed keys 85);
    cbn [Camera.followedObject Camera.setFOV
         Camera.with_velocity Camera.with_angularVelocity];
    rewrite Hfollowed; split; reflexivity.
Qed.

(** C8 (amended). One tick of a camera bound to a followed object
    recomputes its orientation and position from the followed object's
    current orientation and position and the camera's fixed follow-offset
    alone, as the view of their composition rather than the composition
    itself: the orientation is the inverse of the followed orientation,
    turned by the fixed quarter turn about x and composed with the follow
    orientation; the position is the translation opposite to the one of
    follow position x followed orientation x followed position. Nothing
    else of the camera enters the result: two cameras bound to the same
    object with the same offset end with the same orientation and
    position, whatever their velocity, angular velocity, position,
    orientation and the keys held. *)
Theorem camera_follow_recomputed
    (keys keys' : gmap Z bool) (camera camera' : Camera.t)
    (followedObject : VisualObject) :
  Camera.followedObject camera = Some followedObject ->
  Camera.followedObject camera' = Some followedObject ->
  Camera.followPosition camera' = Camera.followPosition camera ->
  Camera.followOrientation camera' = Camera.followOrientation camera ->
  Camera.orientation (controlCamera keys camera)
  = mul (mul (matrix4from3 (inverse3 (matrix3from4 (getOrientation followedObject))))
             (rotationMatrix4 [1; 0; 0] (3.1415 / 2)))
        (Camera.followOrientation camera)
  /\ (let carried :=
        mul (mul (Camera.followPosition camera) (getOrientation followedObject))
            (getPosition followedObject) in
      Camera.position (controlCamera keys camera)
      = translationMatrix (- carried.[12]) (- carried.[13]) (- carried.[14]))
  /\ Camera.orientation (controlCamera keys' camera')
     = Camera.orientation (controlCamera keys camera)
  /\ Camera.position (controlCamera keys' camera')
     = Camera.position (controlCamera keys camera).
Proof.
  intros H H' Hp Ho.
  destruct (controlCamera_follows keys camera followedObject H) as [-> ->].
  destruct (controlCamera_follows keys' camera' followedObject H') as [-> ->].
  unfold follow.
  cbn [Camera.orientation Camera.position Camera.followPosition
       Camera.followOrientation Camera.with_orientation Camera.with_velocity
       Camera.with_position].
  rewrite Hp, Ho. repeat split.
Qed.

End CameraProperties.

(** ** The dispatcher *)

(** An event has one character. *)
Lemma charIs_unique (event : KeyEvent) (c c' : Z) :
  charIs event c = true -> c <> c' -> charIs event c' = false.
Proof.
  unfold charIs. destruct (getChar event) as [k|]; [|discriminate].
  intros Hc Hne. apply Z.eqb_eq in Hc. subst k. now apply Z.eqb_neq.
Qed.

(** The next-camera step keeps an index of the list in the list. *)
Lemma next_camera_in_list (z : Z) (n : nat) :
  (0 <= z < Z.of_nat n)%Z ->
  exists z', jsRem (jsAdd (Int z) 1) n = Int z' /\ (0 <= z' < Z.of_nat n)%Z.
Proof.
  intros Hz. unfold jsRem, jsAdd.
  destruct (Z.eqb_spec (Z.of_nat n) 0); [lia|].
  eexists; split; [reflexivity|].
  rewrite Z.rem_mod_nonneg by lia. apply Z.mod_pos_bound. lia.
Qed.

(** The previous-camera step from the first camera: the remainder of [-1]
    keeps the sign of [-1]. *)
Lemma previous_camera_from_first (n : nat) :
  (2 <= n)%nat -> jsRem (jsAdd (Int 0) (-1)) n = Int (-1).
Proof.
  intros Hn. unfold jsRem, jsAdd.
  destruct (Z.eqb_spec (Z.of_nat n) 0); [lia|].
  f_equal. change (0 + -1)%Z with (- (1))%Z.
  rewrite Z.rem_opp_l by lia. rewrite Z.rem_small by lia. reflexivity.
Qed.

Section DispatcherProperties.
Context {lib : MatrixLib} {scene : Scene}.

Lemma processEvents_step (i : Z) (w : World) :
  processEvents i w =
  if (i <? Z.of_nat (length (keyPressEvents w)))%Z then
    match keyPressEvents w !! Z.to_nat i with
    | None => Normal w
    | Some event =>
        match handleEvent w i event with
        | Throw w' => Throw w'
        | Normal (w', i') =>
            processEvents (i' - 1 + 1)
              (with_keyPressEvents (splice1 i' (keyPressEvents w')) w')
        end
    end
  else Normal w.
Proof.
  funelim (processEvents i w);
    repeat match goal with
    | E : ?x = _ |- context [?x] => rewrite E
    end; reflexivity.
Qed.

(** A plain event leaves the loop variable alone. *)
Lemma handleEvent_plain_index w i event w' i' :
  plainEvent event = true ->
  handleEvent w i event = Normal (w', i') -> i' = i.
Proof.
  unfold plainEvent. rewrite andb_true_iff, !negb_true_iff. intros [H0 Hh].
  unfold handleEvent. rewrite H0, Hh.
  repeat match goal with
  | |- context [match ?c with Normal _ => _ | Throw _ => _ end] =>
      destruct c; try discriminate
  | |- context [if ?b then _ else _] => destruct b
  end; now intros [= _ <-].
Qed.

(** On a queue of plain events the loop handles every event once, in
    order, and ends with the queue empty unless a handler throws. *)
Lemma processEvents_plain (queue : list KeyEvent) (w : World) :
  keyPressEvents w = queue ->
  forallb plainEvent queue = true ->
  processEvents 0 w = handleInTurn queue w.
Proof.
  revert w. induction queue as [|event queue IH]; intros w Hqueue Hplain.
  - rewrite processEvents_step, Hqueue. reflexivity.
  - cbn [forallb] in Hplain. apply andb_true_iff in Hplain as [Hevent Hplain].
    rewrite processEvents_step, Hqueue.
    change (0 <? Z.of_nat (length (event :: queue)))%Z with true.
    change ((event :: queue) !! Z.to_nat 0) with (Some event).
    cbv beta iota. cbn [handleInTurn].
    destruct (handleEvent w 0 event) as [[w' i']|w'] eqn:Ebody; [|reflexivity].
    pose proof (handleEvent_plain_index _ _ _ _ _ Hevent Ebody) as ->.
    apply handleEvent_queue in Ebody. rewrite Ebody, Hqueue.
    change (splice1 0 (event :: queue)) with queue.
    apply IH; [reflexivity|assumption].
Qed.

Lemma handleInTurn_drains (queue : list KeyEvent) (w w' : World) :
  keyPressEvents w = queue ->
  handleInTurn queue w = Normal w' -> keyPressEvents w' = [].
Proof.
  revert w. induction queue as [|event queue IH]; intros w Hqueue.
  - cbn. now intros [= <-].
  - cbn [handleInTurn].
    destruct (handleEvent w 0 event) as [[w1 i1]|w1]; [|discriminate].
    apply IH. reflexivity.
Qed.

(** C2 (fails). With two or more cameras and the first one active, a
    previous-camera event sets the active camera index to -1, which is
    not an index of the camera list: the camera read there is [undefined]
    and the active camera follows none. *)
Theorem previous_camera_leaves_list (w : World) (i : Z) (event : KeyEvent) :
  charIs event char_x = true ->
  activeCameraIndex w = Int 0 ->
  (2 <= length (cameras w))%nat ->
  exists w' : World,
    handleEvent w i event = Normal (w', i)
    /\ activeCameraIndex w' = Int (-1)
    /\ jsIndex (cameras w') (activeCameraIndex w') = None
    /\ Camera.followedCamera (activeCamera w') = None.
Proof.
  intros Hx Hfirst Hmany. unfold handleEvent.
  rewrite (charIs_unique event char_x char_c Hx) by discriminate.
  rewrite Hx, Hfirst, (previous_camera_from_first _ Hmany).
  cbn [activeCameraIndex with_activeCamera with_activeCameraIndex jsPositive Z.ltb
       Z.compare andb].
  rewrite !andb_false_r.
  rewrite (charIs_unique event char_x char_0 Hx) by discriminate.
  rewrite (charIs_unique event char_x char_l Hx) by discriminate.
  rewrite (charIs_unique event char_x char_h Hx) by discriminate.
  eexists. split; [reflexivity|].
  cbn. repeat split.
Qed.

(** C1 (fails). With one spacecraft, a stop-all event at the head of a
    queue of two leaves the loop variable at 1, the number of spacecraft:
    the event spliced out is the second one, which is never handled, and
    the loop ends with the stop-all event still queued. The world is as
    before but for the cleared goals and the event lost. *)
Theorem stop_all_drops_next_event
    (w : World) (e0 e1 : KeyEvent) (s : Spacecraft) (c : Controller) :
  keyPressEvents w = [e0; e1] ->
  charIs e0 char_0 = true ->
  spacecrafts w = [s] ->
  controller s = Some c ->
  processEvents 0 w
  = Normal (with_keyPressEvents [e0]
              (with_spacecrafts [with_controller (Some (clearGoals c)) s] w)).
Proof.
  intros Hqueue Hstop Hcrafts Hctl.
  rewrite processEvents_step, Hqueue.
  change (0 <? Z.of_nat (length [e0; e1]))%Z with true.
  change ([e0; e1] !! Z.to_nat 0) with (Some e0).
  cbv beta iota. unfold handleEvent.
  rewrite (charIs_unique e0 char_0 char_c Hstop) by discriminate.
  rewrite (charIs_unique e0 char_0 char_x Hstop) by discriminate.
  rewrite (charIs_unique e0 char_0 char_m Hstop) by discriminate.
  rewrite (charIs_unique e0 char_0 char_n Hstop) by discriminate.
  rewrite (charIs_unique e0 char_0 char_l Hstop) by discriminate.
  rewrite (charIs_unique e0 char_0 char_h Hstop) by discriminate.
  rewrite Hstop. cbn [andb]. cbv beta iota. rewrite Hcrafts.
  cbn [stopAll]. rewrite Hctl. cbn [app stopAll length].
  rewrite processEvents_step.
  cbn [keyPressEvents with_keyPressEvents with_spacecrafts].
  rewrite Hqueue. reflexivity.
Qed.

End DispatcherProperties.

(** ** The properties on concrete states

    The states below run on the reference collaborators. *)

(** Settle a closed comparison or equation by computing both sides. *)
Ltac by_computation :=
  vm_compute;
  first [ reflexivity | discriminate | (let H := fresh in intro H; discriminate H) ].

Module Runs.
Import Reference.

(** A craft drifting sideways and forward at (0.3, 0.4, 0), speed 0.5. *)
Definition drifting : Spacecraft := craft (moving 0.3 0.4 0) None.

(** A craft flying along its nose at speed 0.1. *)
Definition cruising : Spacecraft := craft (moving 0 0.1 0) None.

(** A craft at rest that does not turn. *)
Definition resting : Spacecraft := craft atRest None.

(** A craft flying at (0.1, 0.1, 0), across its nose, and a controller
    whose head goal lies on that line. *)
Definition slanting : Spacecraft := craft (moving 0.1 0.1 0) None.
Definition aslant : AIController := {| goals := [goalAt 10 10 0; goalAt 5 5 5] |}.

(** Crafts flying along their nose at speed 0.1: one without mass, one
    of negative mass, one without thrust. *)
Definition weighing (m : Q) : PhysicalModel :=
  {| position := identity4; orientation := identity4;
     velocity := [0;0;0;0; 0;0;0;0; 0;0;0;0; 0; 0.1; 0; 0];
     angularVelocity := identity4;
     mass := m; modelMatrixInverse := identity4 |}.
Definition massless : Spacecraft := craft (weighing 0) None.
Definition antimass : Spacecraft := craft (weighing (-1)) None.
Definition thrustless : Spacecraft :=
  {| physicalModel := weighing 1;
     propulsion := {| thrust := 0; angularThrust := 1 |};
     controller := None; subnodes := [] |}.

Definition inertial : FighterController :=
  {| flightMode := FM_INERTIAL; intendedSpeed := 0 |}.

(** A goal 10 ahead of the nose, then one elsewhere. *)
Definition ahead : AIController := {| goals := [goalAt 0 10 0; goalAt 5 5 5] |}.

(** A goal 0.4 ahead of the nose, then one elsewhere. *)
Definition arriving : AIController := {| goals := [goalAt 0 0.4 0; goalAt 5 5 5] |}.

Definition idle : AIController := {| goals := [] |}.

Definition target : VisualObject :=
  {| getOrientation := identity4; getPosition := translation 1 2 3 |}.

(** Two cameras bound to [target] with the same offset: one at rest, one
    moving and turning. *)
Definition still : Camera.t := camera (Some target) [0; 0; 0] [0; 0; 0].
Definition swinging : Camera.t := camera (Some target) [1; 2; 3] [0.05; 0.02; 0].

(** The left arrow held down. *)
Definition leftHeld : gmap Z bool := handleKeyDown ∅ {| which := None; keyCode := 37; charCode := 0 |}.

(** A world with three cameras, the first one active, and one spacecraft
    under autonomous control with a goal. *)
Definition fleet (queue : list KeyEvent) : World :=
  world 0 queue [craft atRest (Some (Autonomous {| goals := [goalAt 1 2 3] |}))].

End Runs.

Lemma manual_run_toggles_and_compensates :
  FighterController_control (lib := Reference.matrices) (api := Reference.estimators)
    Runs.inertial Runs.drifting ∅
    [Reference.key char_o; Reference.key char_c; Reference.key char_o; Reference.key char_o]
  = {| fighter_after := {| flightMode := FM_COMPENSATED; intendedSpeed := 0 |};
       fighter_queue := [Reference.key char_c];
       fighter_calls :=
         [ResetThrusterBurn;
          AddThrusterBurnCapped "slideLeft" 0.5 0.30;
          AddThrusterBurnCapped "reverse" 0.5 0.40] |}.
Proof. vm_compute. reflexivity. Qed.

Lemma compensated_deadband_witness :
  flightMode
    (fighter_after
       (FighterController_control (lib := Reference.matrices)
          (api := Reference.estimators)
          Runs.inertial Runs.drifting ∅ [Reference.key char_o]))
  = FM_COMPENSATED
  /\ callsOn ["raise"; "lower"]
       (fighter_calls
          (FighterController_control (lib := Reference.matrices)
             (api := Reference.estimators)
             Runs.inertial Runs.drifting ∅ [Reference.key char_o])) = [].
Proof.
  assert (Hmode :
    flightMode
      (fighter_after
         (FighterController_control (lib := Reference.matrices)
            (api := Reference.estimators)
            Runs.inertial Runs.drifting ∅ [Reference.key char_o]))
    = FM_COMPENSATED) by reflexivity.
  split; [exact Hmode|].
  destruct (compensated_deadband (lib := Reference.matrices)
              (api := Reference.estimators)
              Runs.inertial Runs.drifting ∅ [Reference.key char_o] Hmode)
    as (_ & _ & _ & Hvertical & _).
  apply Hvertical. by_computation.
Defined.

Lemma fighter_control_consumes_toggles_witness :
  (0 <= flightMode Runs.inertial < NUM_FLIGHTMODES)%Z
  /\ flightMode
       (fighter_after
          (FighterController_control (lib := Reference.matrices)
             (api := Reference.estimators)
             Runs.inertial Runs.drifting ∅
             [Reference.key char_o; Reference.key char_c;
              Reference.key char_o; Reference.key char_o]))
     = FM_COMPENSATED.
Proof.
  assert (Hmode : (0 <= flightMode Runs.inertial < NUM_FLIGHTMODES)%Z)
    by (split; by_computation).
  refine (conj Hmode _).
  exact (proj2 (proj2
           (fighter_control_consumes_toggles (lib := Reference.matrices)
              (api := Reference.estimators)
              Runs.inertial Runs.drifting ∅
              [Reference.key char_o; Reference.key char_c;
               Reference.key char_o; Reference.key char_o]))
           Hmode).
Defined.

Lemma AI_arrival_pops_head_witness :
  goals Runs.arriving = [Reference.goalAt 0 0.4 0; Reference.goalAt 5 5 5]
  /\ distanceTo (lib := Reference.matrices) (Reference.goalAt 0 0.4 0)
       (physicalModel Runs.cruising) < 0.5
  /\ goals (AI_after (AIController_control (lib := Reference.matrices)
                        (api := Reference.estimators) Runs.arriving Runs.cruising))
     = [Reference.goalAt 5 5 5].
Proof.
  assert (Hgoals : goals Runs.arriving
                   = [Reference.goalAt 0 0.4 0; Reference.goalAt 5 5 5]) by reflexivity.
  assert (Hnear : distanceTo (lib := Reference.matrices) (Reference.goalAt 0 0.4 0)
                    (physicalModel Runs.cruising) < 0.5) by by_computation.
  refine (conj Hgoals (conj Hnear _)).
  exact (proj1 (AI_arrival_pops_head (lib := Reference.matrices)
                  (api := Reference.estimators)
                  Runs.arriving Runs.cruising _ _ Hgoals Hnear)).
Defined.

Lemma AI_goal_ahead_burns_forward_witness :
  0.5 <= distanceTo (lib := Reference.matrices) (Reference.goalAt 10 10 0)
           (physicalModel Runs.slanting)
  /\ speedOf (lib := Reference.matrices) (physicalModel Runs.slanting) * 0.999
     <= speedTowards (lib := Reference.matrices) (Reference.goalAt 10 10 0)
          (physicalModel Runs.slanting)
  /\ callsOn ["forward"]
       (AI_calls (AIController_control (lib := Reference.matrices)
                    (api := Reference.estimators) Runs.aslant Runs.slanting))
     = [AddThrusterBurn "forward" 0.5]
  /\ directionalCalls
       (AI_calls (AIController_control (lib := Reference.matrices)
                    (api := Reference.estimators) Runs.aslant Runs.slanting))
     = [].
Proof.
  assert (Hfar : 0.5 <= distanceTo (lib := Reference.matrices) (Reference.goalAt 10 10 0)
                          (physicalModel Runs.slanting)) by by_computation.
  assert (Htowards : speedOf (lib := Reference.matrices) (physicalModel Runs.slanting)
                     * 0.999
                     <= speedTowards (lib := Reference.matrices)
                          (Reference.goalAt 10 10 0) (physicalModel Runs.slanting))
    by by_computation.
  refine (conj Hfar (conj Htowards _)).
  assert (Hclosing : 0 <= speedTowards (lib := Reference.matrices)
                            (Reference.goalAt 10 10 0) (physicalModel Runs.slanting))
    by by_computation.
  assert (Hstop : speed2Of (lib := Reference.matrices) (physicalModel Runs.slanting)
                  <= 2 * distanceTo (lib := Reference.matrices)
                           (Reference.goalAt 10 10 0) (physicalModel Runs.slanting)
                     * (thrust (propulsion Runs.slanting)
                        / mass (physicalModel Runs.slanting))) by by_computation.
  destruct (AI_goal_ahead_burns_forward (lib := Reference.matrices)
              (api := Reference.estimators)
              Runs.aslant Runs.slanting _ _ eq_refl Hfar Htowards Hclosing Hstop)
    as (Hforward & _ & Hnone & _).
  exact (conj Hforward Hnone).
Defined.

Lemma AI_idle_brakes_witness :
  0 < speedOf (lib := Reference.matrices) (physicalModel Runs.drifting)
  /\ exists amount : Q,
       directionalCalls
         (AI_calls (AIController_control (lib := Reference.matrices)
                      (api := Reference.estimators) Runs.idle Runs.drifting))
       = [AddDirectionalThrusterBurn
            (Reference.normalize (velocity3 (physicalModel Runs.drifting))) amount]
       /\ amount < 0 /\ ~ amount == 0 /\ Qabs amount <= 1.
Proof.
  assert (Hspeed : 0 < speedOf (lib := Reference.matrices) (physicalModel Runs.drifting))
    by by_computation.
  split; [exact Hspeed|].
  refine (AI_idle_brakes (lib := Reference.matrices) (api := Reference.estimators)
            Runs.idle Runs.drifting eq_refl Hspeed _ _); by_computation.
Defined.

(** C9 (as stated, fails). A craft without mass needs no force to stop:
    with no goal and a speed of 0.1 the invocation makes its one
    directional burn by the amount zero. So it does on a craft without
    thrust; and on a craft of negative mass the amount is positive, along
    the velocity, not against it. *)
Lemma AI_idle_burn_vanishes_without_mass :
  goals Runs.idle = []
  /\ 0 < speedOf (lib := Reference.matrices) (physicalModel Runs.massless)
  /\ (exists (direction : Vector) (amount : Q),
        directionalCalls
          (AI_calls (AIController_control (lib := Reference.matrices)
                       (api := Reference.estimators) Runs.idle Runs.massless))
        = [AddDirectionalThrusterBurn direction amount]
        /\ amount == 0)
  /\ (exists (direction : Vector) (amount : Q),
        directionalCalls
          (AI_calls (AIController_control (lib := Reference.matrices)
                       (api := Reference.estimators) Runs.idle Runs.thrustless))
        = [AddDirectionalThrusterBurn direction amount]
        /\ amount == 0)
  /\ (exists (direction : Vector) (amount : Q),
        directionalCalls
          (AI_calls (AIController_control (lib := Reference.matrices)
                       (api := Reference.estimators) Runs.idle Runs.antimass))
        = [AddDirectionalThrusterBurn direction amount]
        /\ 0 < amount).
Proof.
  split; [reflexivity|]. split; [by_computation|].
  repeat split;
    match goal with
    | |- exists direction amount, ?calls = _ /\ _ =>
        let l := fresh "l" in
        let E := fresh "E" in
        remember calls as l eqn:E; vm_compute in E; subst l;
        eexists _, _; split; [reflexivity|by_computation]
    end.
Qed.

Lemma reference_cross_self (v : Vector) :
  isZeroVector (Reference.cross v v) = true.
Proof.
  unfold isZeroVector, Reference.cross. cbn [forallb].
  rewrite !andb_true_iff. repeat split; apply Qeq_bool_iff; ring.
Qed.

Lemma AI_normalizes_zero_turning_axis_witness :
  existsb isZeroVector
    (AI_normalized (lib := Reference.matrices) Runs.idle Runs.resting) = true.
Proof.
  apply (AI_normalizes_zero_turning_axis (lib := Reference.matrices)
           Runs.idle Runs.resting).
  - exact reference_cross_self.
  - vm_compute. reflexivity.
Defined.

Lemma camera_follow_recomputed_witness :
  Camera.followedObject Runs.still = Some Runs.target
  /\ Camera.followedObject Runs.swinging = Some Runs.target
  /\ Camera.position (controlCamera (lib := Reference.matrices) Runs.leftHeld Runs.swinging)
     = Camera.position (controlCamera (lib := Reference.matrices) ∅ Runs.still).
Proof.
  refine (conj eq_refl (conj eq_refl _)).
  exact (proj2 (proj2 (proj2
    (camera_follow_recomputed (lib := Reference.matrices)
       ∅ Runs.leftHeld Runs.still Runs.swinging Runs.target
       eq_refl eq_refl eq_refl eq_refl)))).
Defined.

(** C8 (as stated, fails). The camera [Runs.still] follows an object at
    (1, 2, 3) that is not turned, with the offset (0, -10, 2) and no turn
    of its own. Composed either way, the followed position and the offset
    give a translation by 1 along x, and the orientations give the
    identity; the tick leaves the camera with a translation by -1 along x,
    the opposite, and with an orientation turned about x, whose entry 5 is
    not 1. *)
Lemma camera_follow_is_not_the_composition :
  Camera.followedObject Runs.still = Some Runs.target
  /\ ~ (Camera.position (controlCamera (lib := Reference.matrices) ∅ Runs.still)).[12]
       == (followingPosition (lib := Reference.matrices) Runs.target
             (Camera.followPosition Runs.still)).[12]
  /\ ~ (Camera.position (controlCamera (lib := Reference.matrices) ∅ Runs.still)).[12]
       == (mul (MatrixLib := Reference.matrices) (Camera.followPosition Runs.still)
             (getPosition Runs.target)).[12]
  /\ (Camera.position (controlCamera (lib := Reference.matrices) ∅ Runs.still)).[12]
     == - (followingPosition (lib := Reference.matrices) Runs.target
             (Camera.followPosition Runs.still)).[12]
  /\ ~ (Camera.orientation (controlCamera (lib := Reference.matrices) ∅ Runs.still)).[5]
       == (followingOrientation (lib := Reference.matrices) Runs.target
             (Camera.followOrientation Runs.still)).[5]
  /\ ~ (Camera.orientation (controlCamera (lib := Reference.matrices) ∅ Runs.still)).[5]
       == (mul (MatrixLib := Reference.matrices) (Camera.followOrientation Runs.still)
             (getOrientation Runs.target)).[5].
Proof.
  split; [reflexivity|].
  pattern (controlCamera (lib := Reference.matrices) ∅ Runs.still).
  vm_compute.
  repeat apply conj; first [reflexivity | discriminate].
Qed.

Lemma previous_camera_leaves_list_witness :
  charIs (Reference.key char_x) char_x = true
  /\ activeCameraIndex (Runs.fleet [Reference.key char_x]) = Int 0
  /\ exists w' : World,
       handleEvent (lib := Reference.matrices) (scene := Reference.scene)
         (Runs.fleet [Reference.key char_x]) 0 (Reference.key char_x)
       = Normal (w', 0%Z)
       /\ activeCameraIndex w' = Int (-1)
       /\ jsIndex (cameras w') (activeCameraIndex w') = None
       /\ Camera.followedCamera (activeCamera w') = None.
Proof.
  refine (conj eq_refl (conj eq_refl _)).
  apply (previous_camera_leaves_list (lib := Reference.matrices)
           (scene := Reference.scene)
           (Runs.fleet [Reference.key char_x]) 0 (Reference.key char_x));
    [reflexivity | reflexivity | cbn; lia].
Defined.

Lemma stop_all_drops_next_event_witness :
  exists w' : World,
    processEvents (lib := Reference.matrices) (scene := Reference.scene) 0
      (Runs.fleet [Reference.key char_0; Reference.key char_l])
    = Normal w'
    /\ keyPressEvents w' = [Reference.key char_0]
    /\ lightTurn w' = lightTurn (Runs.fleet [Reference.key char_0; Reference.key char_l]).
Proof.
  eexists. split.
  - apply (stop_all_drops_next_event (lib := Reference.matrices)
             (scene := Reference.scene)
             (Runs.fleet [Reference.key char_0; Reference.key char_l])
             (Reference.key char_0) (Reference.key char_l));
      reflexivity.
  - split; reflexivity.
Defined.

(** The whole of [control] on that world: the tick ends with the stop-all
    event still queued and the light toggle lost. *)
Lemma control_leaves_stop_all_queued :
  match control (lib := Reference.matrices) (scene := Reference.scene)
          (Runs.fleet [Reference.key char_0; Reference.key char_l]) with
  | Normal w' =>
      keyPressEvents w' = [Reference.key char_0]
      /\ lightTurn w' = false
      /\ map controller (spacecrafts w') = [Some (Autonomous {| goals := [] |})]
  | Throw _ => False
  end.
Proof. vm_compute. repeat split. Qed.

(** Without the stop-all event the same tick drains the queue and toggles
    the light. *)
Lemma control_drains_plain_queue :
  match control (lib := Reference.matrices) (scene := Reference.scene)
          (Runs.fleet [Reference.key char_c; Reference.key char_l]) with
  | Normal w' =>
      keyPressEvents w' = []
      /\ lightTurn w' = true
      /\ activeCameraIndex w' = Int 1
  | Throw _ => False
  end.
Proof. vm_compute. repeat split. Qed.

(** * Further properties *)

(** ** The keyboard state *)

(** X1. The key map answers with the last event of a key: held after its
    key-down, not held after its key-up, and the other keys read as
    before; a key that never had an event reads as not held. *)
Theorem key_state_follows_events (keys : gmap Z bool) (event : KeyEvent) :
  pressed (handleKeyDown keys event) (keyCode event) = true
  /\ pressed (handleKeyUp keys event) (keyCode event) = false
  /\ (forall code : Z, code <> keyCode event ->
        pressed (handleKeyDown keys event) code = pressed keys code
        /\ pressed (handleKeyUp keys event) code = pressed keys code)
  /\ (forall code : Z, pressed ∅ code = false).
Proof.
  unfold pressed, handleKeyDown, handleKeyUp. repeat split.
  - now rewrite lookup_insert_eq.
  - now rewrite lookup_insert_eq.
  - now rewrite lookup_insert_ne by congruence.
  - now rewrite lookup_insert_ne by congruence.
Qed.

(** The character of an event is a 16-bit code unit. *)
Lemma getChar_code_unit (event : KeyEvent) (k : Z) :
  getChar event = Some k -> (0 <= k < 65536)%Z.
Proof.
  unfold getChar, fromCharCode.
  destruct (which event) as [w|].
  - destruct (_ && _); [|discriminate]. intros [= <-]. now apply Z.mod_pos_bound.
  - intros [= <-]. now apply Z.mod_pos_bound.
Qed.

(** [getChar] answers [null] exactly for the special keys: [which] is not
    [null], and [which] or [charCode] is 0. *)
Lemma getChar_special (event : KeyEvent) :
  getChar event = None
  <-> exists w : Z, which event = Some w /\ (w = 0%Z \/ charCode event = 0%Z).
Proof.
  unfold getChar. destruct (which event) as [w|].
  - destruct (Z.eqb_spec w 0), (Z.eqb_spec (charCode event) 0); cbn;
      split; try discriminate; eauto;
      intros (w' & [= <-] & [?|?]); congruence.
  - split; [discriminate|]. now intros (w & ? & _).
Qed.

Section ManualFurther.
Context {lib : MatrixLib} {api : SpacecraftApi}.

(** X2. A key press queued behind the others is seen last by the manual
    controller. If it is not an 'o', the invocation ends in the same mode
    as without it and the event stays queued, last. If it is an 'o', the
    queue the invocation leaves is the same, and a controller that started
    in one of the flight modes (0 or 1) ends in the other mode than
    without it: that mode plus one, modulo the number of modes. *)
Theorem fighter_control_after_key_press
    (this : FighterController) (controlledEntity : Spacecraft)
    (keys : gmap Z bool) (queue : list KeyEvent) (event : KeyEvent) :
  fighter_queue
    (FighterController_control this controlledEntity keys (handleKeyPress queue event))
  = fighter_queue (FighterController_control this controlledEntity keys queue)
    ++ (if charIs event char_o then [] else [event])
  /\ (charIs event char_o = false ->
      flightMode
        (fighter_after
           (FighterController_control this controlledEntity keys
              (handleKeyPress queue event)))
      = flightMode
          (fighter_after (FighterController_control this controlledEntity keys queue)))
  /\ (charIs event char_o = true ->
      (0 <= flightMode this < NUM_FLIGHTMODES)%Z ->
      flightMode
        (fighter_after
           (FighterController_control this controlledEntity keys
              (handleKeyPress queue event)))
      = ((flightMode
            (fighter_after (FighterController_control this controlledEntity keys queue))
          + 1) mod NUM_FLIGHTMODES)%Z).
Proof.
  unfold FighterController_control, handleKeyPress.
  rewrite !toggleFlightModes_filter.
  do 2 destruct (fighter_throttle _ _ _ _).
  cbn [fighter_queue fighter_after flightMode].
  unfold toggles, notToggle. rewrite !List.filter_app. cbn [List.filter].
  destruct (charIs event char_o); cbn [negb].
  - rewrite length_app, Nat.add_comm. cbn [length Nat.add].
    rewrite app_nil_r. split; [reflexivity|]. split; [discriminate|].
    intros _ Hmode. rewrite !toggles_modulo by assumption.
    rewrite Zplus_mod_idemp_l. f_equal. lia.
  - rewrite app_nil_r. split; [reflexivity|]. split; [reflexivity|discriminate].
Qed.

Lemma fighter_throttle_inertial keys intended controlledEntity :
  fighter_throttle keys FM_INERTIAL intended controlledEntity
  = ((if pressed keys 87 then [AddThrusterBurn "forward" 0.5] else [])
     ++ (if pressed keys 83 then [AddThrusterBurn "reverse" 0.5] else []),
     intended).
Proof.
  unfold fighter_throttle. cbn [Z.eqb FM_COMPENSATED FM_INERTIAL Pos.eqb].
  branch_all; reflexivity.
Qed.

(** The calls of an invocation on translation groups come from the
    throttle and compensation blocks. *)
Lemma fighter_calls_on_translation this controlledEntity keys queue uses :
  incl uses translationUses ->
  callsOn uses (fighter_calls (FighterController_control this controlledEntity keys queue))
  = callsOn uses
      (fst (fighter_throttle keys
              (flightMode (fighter_after
                 (FighterController_control this controlledEntity keys queue)))
              (intendedSpeed this) controlledEntity)
       ++ fighter_compensate
            (flightMode (fighter_after
               (FighterController_control this controlledEntity keys queue)))
            (intendedSpeed (fighter_after
               (FighterController_control this controlledEntity keys queue)))
            controlledEntity (relativeVelocityOf (physicalModel controlledEntity))).
Proof.
  intros Hincl. unfold FighterController_control.
  destruct (toggleFlightModes 0 queue (flightMode this)) as [queue' fm].
  destruct (fighter_throttle keys fm _ _) as [throttle intended] eqn:Et.
  cbn [fighter_after fighter_calls flightMode intendedSpeed].
  rewrite Et. cbn [fst]. rewrite !callsOn_app.
  destruct (fighter_turning_uses keys controlledEntity
              (turningMatrixOf (physicalModel controlledEntity)) uses Hincl)
    as (-> & -> & ->).
  rewrite !app_nil_r.
  destruct (pressed keys 70); rewrite !callsOn_skip by reflexivity; reflexivity.
Qed.

(** X3. In inertial mode (the mode in force once the queued toggles are
    processed) the forward group is burnt by exactly 0.5 while W is held
    and not at all otherwise, the reverse group likewise with S; the
    slide, raise and lower groups get no call, and the intended speed is
    left as it was. *)
Theorem inertial_throttle_is_half_or_nothing
    (this : FighterController) (controlledEntity : Spacecraft)
    (keys : gmap Z bool) (queue : list KeyEvent) :
  flightMode (fighter_after (FighterController_control this controlledEntity keys queue))
  = FM_INERTIAL ->
  callsOn ["forward"]
    (fighter_calls (FighterController_control this controlledEntity keys queue))
  = (if pressed keys 87 then [AddThrusterBurn "forward" 0.5] else [])
  /\ callsOn ["reverse"]
       (fighter_calls (FighterController_control this controlledEntity keys queue))
     = (if pressed keys 83 then [AddThrusterBurn "reverse" 0.5] else [])
  /\ callsOn ["slideLeft"; "slideRight"; "raise"; "lower"]
       (fighter_calls (FighterController_control this controlledEntity keys queue)) = []
  /\ intendedSpeed
       (fighter_after (FighterController_control this controlledEntity keys queue))
     = intendedSpeed this.
Proof.
  intros Hmode.
  rewrite !fighter_calls_on_translation
    by (unfold translationUses; intros u Hu; cbn in *; tauto).
  rewrite Hmode, fighter_throttle_inertial. cbn [fst].
  repeat split; try (unfold fighter_compensate;
    cbn [Z.eqb FM_COMPENSATED FM_INERTIAL]; branch_all; reflexivity).
  revert Hmode. unfold FighterController_control.
  destruct (toggleFlightModes 0 queue (flightMode this)) as [queue' fm].
  destruct (fighter_throttle keys fm _ _) as [throttle intended] eqn:Et.
  cbn [fighter_after flightMode intendedSpeed]. intros ->.
  rewrite fighter_throttle_inertial in Et. now injection Et.
Qed.


(** X5. In compensated mode the backspace key resets the intended speed
    to zero, whatever W and S add or take in the same invocation. *)
Theorem backspace_resets_intended_speed
    (this : FighterController) (controlledEntity : Spacecraft)
    (keys : gmap Z bool) (queue : list KeyEvent) :
  pressed keys 8 = true ->
  flightMode (fighter_after (FighterController_control this controlledEntity keys queue))
  = FM_COMPENSATED ->
  intendedSpeed (fighter_after (FighterController_control this controlledEntity keys queue))
  = 0.
Proof.
  intros Hback. unfold FighterController_control.
  destruct (toggleFlightModes 0 queue (flightMode this)) as [queue' fm].
  destruct (fighter_throttle keys fm _ _) as [throttle intended] eqn:Et.
  cbn [fighter_after flightMode intendedSpeed]. intros ->.
  revert Et. unfold fighter_throttle. rewrite Hback.
  cbn [Z.eqb FM_COMPENSATED FM_INERTIAL Pos.eqb].
  branch_all; now intros [= _ <-].
Qed.

(** The braking burn of a turning axis is capped at 0.5. *)
Lemma fighter_damping_capped controlledEntity ref a b :
  0 < angularThrust (propulsion controlledEntity) ->
  fighter_damping controlledEntity ref a b <= 0.5.
Proof.
  intros Hthrust. unfold fighter_damping.
  apply Qle_shift_div_r; [assumption|].
  pose proof (Q.le_min_l (angularThrust (propulsion controlledEntity))
    (angleDifferenceOfUnitVectors2D ref (normalizeVector2D [a; b])
     * mass (physicalModel controlledEntity))).
  lra.
Qed.

(** X6. An invocation of the manual controller fires first if F is held,
    resets the thrusters once, and then only burns named groups, each by
    at most 0.5: it makes no directional burn, and no second reset. *)
Theorem manual_calls_are_capped_burns
    (this : FighterController) (controlledEntity : Spacecraft)
    (keys : gmap Z bool) (queue : list KeyEvent) :
  0 < angularThrust (propulsion controlledEntity) ->
  exists burns : list ThrusterCall,
    fighter_calls (FighterController_control this controlledEntity keys queue)
    = (if pressed keys 70 then [Fire] else []) ++ ResetThrusterBurn :: burns
    /\ Forall manualBurn burns.
Proof.
  intros Hthrust. unfold FighterController_control.
  destruct (toggleFlightModes 0 queue (flightMode this)) as [queue' fm].
  destruct (fighter_throttle keys fm _ _) as [throttle intended] eqn:Et.
  cbn [fighter_calls]. eexists. split; [reflexivity|].
  assert (Hhalf : (0.5 <= 0.5)%Q) by lra.
  pose proof (fighter_damping_capped controlledEntity) as Hcap.
  repeat rewrite Forall_app. repeat split.
  - revert Et. unfold fighter_throttle.
    branch_all; intros [= <- _]; repeat constructor; exact Hhalf.
  - unfold fighter_compensate. branch_all; repeat constructor.
  - unfold fighter_yaw. branch_all; repeat constructor; cbn; auto.
  - unfold fighter_pitch. branch_all; repeat constructor; cbn; auto.
  - unfold fighter_roll. branch_all; repeat constructor; cbn; auto.
Qed.

(** The calls of an invocation on turning groups come from the yaw, pitch
    and roll blocks. *)
Lemma fighter_calls_on_turning this controlledEntity keys queue uses :
  incl uses turningUses ->
  callsOn uses (fighter_calls (FighterController_control this controlledEntity keys queue))
  = callsOn uses
      (fighter_yaw keys controlledEntity (turningMatrixOf (physicalModel controlledEntity)))
    ++ callsOn uses
      (fighter_pitch keys controlledEntity (turningMatrixOf (physicalModel controlledEntity)))
    ++ callsOn uses
      (fighter_roll keys controlledEntity (turningMatrixOf (physicalModel controlledEntity))).
Proof.
  intros Hincl.
  assert (Hno : forall c,
            match c with
            | AddThrusterBurn u' _ | AddThrusterBurnCapped u' _ _ => In u' translationUses
            | _ => True
            end ->
            existsb (fun u => onUse u c) uses = false).
  { intros c Hc. apply not_true_iff_false. rewrite existsb_exists.
    intros (u & Hin & Hon). apply Hincl in Hin.
    destruct c as [| |u' v|u' v n|d v]; cbn in Hon; try discriminate;
      apply bool_decide_eq_true in Hon; subst u';
      unfold translationUses, turningUses in *; cbn in Hc, Hin;
      intuition (subst; discriminate). }
  unfold FighterController_control.
  destruct (toggleFlightModes 0 queue (flightMode this)) as [queue' fm].
  destruct (fighter_throttle keys fm _ _) as [throttle intended] eqn:Et.
  cbn [fighter_calls]. rewrite !callsOn_app.
  assert (Hthrottle : callsOn uses throttle = []).
  { revert Et. unfold fighter_throttle, callsOn.
    branch_all; intros [= <- _]; cbn [List.filter app];
      rewrite ?Hno by (unfold translationUses; cbn; tauto); reflexivity. }
  assert (Hcomp : callsOn uses
            (fighter_compensate fm intended controlledEntity
               (relativeVelocityOf (physicalModel controlledEntity))) = []).
  { unfold fighter_compensate, callsOn.
    branch_all; cbn [List.filter app];
      rewrite ?Hno by (unfold translationUses; cbn; tauto); reflexivity. }
  rewrite Hthrottle, Hcomp. cbn [app].
  destruct (pressed keys 70); rewrite !callsOn_skip by reflexivity; reflexivity.
Qed.

(** X7. With none of the six turning keys held and the three readings of
    the turning matrix within the 0.0001 dead band, an invocation makes no
    call on any turning group. *)
Theorem manual_turning_rests_in_dead_band
    (this : FighterController) (controlledEntity : Spacecraft)
    (keys : gmap Z bool) (queue : list KeyEvent) :
  Forall (fun code => pressed keys code = false) [37; 39; 38; 40; 34; 33]%Z ->
  Qabs (turningMatrixOf (physicalModel controlledEntity)).[4] <= 0.0001 ->
  Qabs (turningMatrixOf (physicalModel controlledEntity)).[6] <= 0.0001 ->
  Qabs (turningMatrixOf (physicalModel controlledEntity)).[2] <= 0.0001 ->
  callsOn turningUses
    (fighter_calls (FighterController_control this controlledEntity keys queue)) = [].
Proof.
  intros Hkeys H4 H6 H2.
  rewrite fighter_calls_on_turning by apply incl_refl.
  repeat match goal with
  | H : Forall _ (_ :: _) |- _ => apply Forall_cons_iff in H as [? H]
  end.
  apply Qabs_Qle_condition in H4, H6, H2.
  unfold fighter_yaw, fighter_pitch, fighter_roll.
  repeat match goal with E : pressed keys _ = false |- _ => rewrite E; clear E end.
  generalize dependent (turningMatrixOf (physicalModel controlledEntity)).
  intros tm H4 H6 H2.
  compare_all; try reflexivity; exfalso; lra.
Qed.

(** X8. A turning key burns nothing once the craft turns that way at
    the turning limit of 0.1 or beyond: left with the yaw reading at or
    below -0.1, right (left not held) with it at or above 0.1; and the left
    key wins over the right key when both are held. *)
Theorem manual_yaw_respects_turning_limit
    (this : FighterController) (controlledEntity : Spacecraft)
    (keys : gmap Z bool) (queue : list KeyEvent) :
  (pressed keys 37 = true ->
   (turningMatrixOf (physicalModel controlledEntity)).[4] <= - TURNING_LIMIT ->
   callsOn ["yawLeft"; "yawRight"]
     (fighter_calls (FighterController_control this controlledEntity keys queue)) = [])
  /\ (pressed keys 37 = false -> pressed keys 39 = true ->
      TURNING_LIMIT <= (turningMatrixOf (physicalModel controlledEntity)).[4] ->
      callsOn ["yawLeft"; "yawRight"]
        (fighter_calls (FighterController_control this controlledEntity keys queue)) = [])
  /\ (pressed keys 37 = true ->
      - TURNING_LIMIT < (turningMatrixOf (physicalModel controlledEntity)).[4] ->
      callsOn ["yawLeft"; "yawRight"]
        (fighter_calls (FighterController_control this controlledEntity keys queue))
      = [AddThrusterBurn "yawLeft" 0.5]).
Proof.
  assert (Hincl : incl ["yawLeft"; "yawRight"]%string turningUses)
    by (unfold turningUses; intros u Hu; cbn in *; tauto).
  rewrite !(fighter_calls_on_turning _ _ _ _ _ Hincl).
  assert (Hpitch : forall tm, callsOn ["yawLeft"; "yawRight"]
            (fighter_pitch keys controlledEntity tm) = [])
    by (intros; unfold fighter_pitch; branch_all; reflexivity).
  assert (Hroll : forall tm, callsOn ["yawLeft"; "yawRight"]
            (fighter_roll keys controlledEntity tm) = [])
    by (intros; unfold fighter_roll; branch_all; reflexivity).
  rewrite Hpitch, Hroll, !app_nil_r. unfold fighter_yaw, TURNING_LIMIT.
  generalize ((turningMatrixOf (physicalModel controlledEntity)).[4]). intros t4.
  repeat split.
  - intros -> Hlimit. apply Qgtb_le in Hlimit. now rewrite Hlimit.
  - intros -> -> Hlimit. apply Qltb_ge in Hlimit. now rewrite Hlimit.
  - intros -> Hlimit. apply Qgtb_gt in Hlimit. now rewrite Hlimit.
Qed.

End ManualFurther.

(** ** The autonomous controller *)

(** Choose the disjunct of a burn description that holds. *)
Ltac pick_burn :=
  solve [ reflexivity | assumption
        | split; pick_burn | left; pick_burn | right; pick_burn ].

(** Describe every burn of a list of calls. *)
Ltac describe_burns :=
  repeat first
    [ apply List.Forall_nil
    | apply List.Forall_cons;
      [cbv beta iota delta [autonomousBurn manualBurn turningUses]; cbn [In]; pick_burn|] ].

Section AutonomousFurther.
Context {lib : MatrixLib} {api : SpacecraftApi}.

(** The drift correction of the second longitudinal branch, for a share
    [k] of the thrust that is 0.25 or 0.75: negative, and not below -0.5. *)
Lemma drift_burn_bounds (thrust mass speed towards k : Q) :
  0 < thrust -> 0 < mass -> 0 <= towards -> towards < speed * 0.999 ->
  0 < k -> k <= 1 ->
  0.5 * - Qmin (thrust * k) ((speed - towards) / mass) / thrust < 0
  /\ -0.5 <= 0.5 * - Qmin (thrust * k) ((speed - towards) / mass) / thrust.
Proof.
  intros Ht Hm Hclosing Hdrift Hk Hk1.
  assert (Hshare : 0 < thrust * k) by (apply Qmult_lt_0_compat; assumption).
  assert (Hshare1 : thrust * k <= thrust) by nra.
  assert (Hexcess : 0 < (speed - towards) / mass)
    by (apply Qlt_shift_div_l; [assumption|lra]).
  assert (Hmin : 0 < Qmin (thrust * k) ((speed - towards) / mass))
    by (apply Q.min_glb_lt; assumption).
  pose proof (Q.le_min_l (thrust * k) ((speed - towards) / mass)) as Hle.
  set (m := Qmin (thrust * k) ((speed - towards) / mass)) in *.
  split.
  - apply Qlt_shift_div_r; [assumption|lra].
  - apply Qle_shift_div_l; [assumption|lra].
Qed.

Lemma AI_longitudinal_burns controlledEntity velocityVector
    speed speed2 acc distance towards towards2 angle :
  0 < thrust (propulsion controlledEntity) ->
  0 < mass (physicalModel controlledEntity) ->
  Forall (autonomousBurn velocityVector)
    (AI_longitudinal controlledEntity velocityVector speed speed2 acc distance
       towards towards2 angle).
Proof.
  intros Ht Hm. unfold AI_longitudinal.
  assert (Hfull : (-0.5 < 0 /\ -0.5 <= -0.5)%Q) by (split; lra).
  destruct Hfull as [Hfull Hfull'].
  destruct (towards <? 0) eqn:Eaway; [describe_burns|].
  apply Qltb_ge in Eaway.
  destruct (speed * 0.999 >? towards) eqn:Edrift.
  - apply Qgtb_gt in Edrift.
    destruct (drift_burn_bounds _ _ _ _ 0.25 Ht Hm Eaway Edrift) as [? ?]; [lra|lra|].
    destruct (drift_burn_bounds _ _ _ _ 0.75 Ht Hm Eaway Edrift) as [? ?]; [lra|lra|].
    destruct (_ && _); describe_burns.
  - destruct (speed2 >? 2 * distance * acc); describe_burns.
Qed.

Lemma AI_turning_burns controlledEntity velocityVector :
  (forall t4 r0 d v turnAcc,
     Forall (autonomousBurn velocityVector) (AI_yaw controlledEntity t4 r0 d v turnAcc))
  /\ (forall t6 r2 d v yd yv turnAcc,
     Forall (autonomousBurn velocityVector)
       (AI_pitch controlledEntity t6 r2 d v yd yv turnAcc))
  /\ (forall tm, Forall (autonomousBurn velocityVector) (AI_roll controlledEntity tm)).
Proof.
  unfold AI_yaw, AI_pitch, AI_roll, turningUses.
  repeat split; intros; branch_all; describe_burns.
Qed.

(** X9. On a craft of positive thrust and mass, an invocation of the
    autonomous controller resets the thrusters once and then makes only
    these calls: a forward burn of 0.5 or 0.375, a turning burn of 0.5 or
    capped at 0.5, and directional burns along the unit velocity by an
    amount in [-0.5, 0). It never accelerates along the velocity and never
    burns the reverse, slide, raise or lower groups. *)
Theorem autonomous_calls_are_bounded
    (this : AIController) (controlledEntity : Spacecraft) :
  0 < thrust (propulsion controlledEntity) ->
  0 < mass (physicalModel controlledEntity) ->
  exists burns : list ThrusterCall,
    AI_calls (AIController_control this controlledEntity) = ResetThrusterBurn :: burns
    /\ Forall (autonomousBurn (velocityVectorOf (physicalModel controlledEntity))) burns.
Proof.
  intros Ht Hm.
  set (pm := physicalModel controlledEntity).
  destruct (AI_turning_burns controlledEntity (velocityVectorOf pm))
    as (Hyaw & Hpitch & Hroll).
  unfold AIController_control. fold pm.
  destruct (goals this) as [|g rest].
  - cbn [AI_calls app]. eexists. split; [reflexivity|].
    rewrite Forall_app. split; [|apply Hroll].
    unfold AI_idle. rewrite !Forall_app. repeat split.
    + destruct (speedOf pm >? 0) eqn:Espeed; [|constructor].
      apply Qgtb_gt in Espeed.
      destruct (idle_burn_bounds _ _ _ Ht Espeed Hm) as [? ?].
      describe_burns.
    + unfold turningUses. branch_all; describe_burns.
    + unfold turningUses. branch_all; describe_burns.
  - destruct (distanceTo g pm <? 0.5); cbn [AI_calls app];
      (eexists; split; [reflexivity|]).
    + apply Hroll.
    + rewrite Forall_app. split; [|apply Hroll].
      unfold AI_manoeuvre. fold pm. rewrite !Forall_app. repeat split.
      * now apply AI_longitudinal_burns.
      * apply Hyaw.
      * apply Hpitch.
Qed.

(** The calls of an invocation on the roll groups are those of the roll
    damping. *)
Lemma AI_calls_on_roll this controlledEntity :
  callsOn ["rollLeft"; "rollRight"] (AI_calls (AIController_control this controlledEntity))
  = AI_roll controlledEntity (turningMatrixOf (physicalModel controlledEntity)).
Proof.
  set (pm := physicalModel controlledEntity).
  assert (Hroll : forall tm,
            callsOn ["rollLeft"; "rollRight"] (AI_roll controlledEntity tm)
            = AI_roll controlledEntity tm)
    by (intros; unfold AI_roll; branch_all; reflexivity).
  assert (Hyaw : forall t4 r0 d v ta,
            callsOn ["rollLeft"; "rollRight"] (AI_yaw controlledEntity t4 r0 d v ta) = [])
    by (intros; unfold AI_yaw; branch_all; reflexivity).
  assert (Hpitch : forall t6 r2 d v yd yv ta,
            callsOn ["rollLeft"; "rollRight"]
              (AI_pitch controlledEntity t6 r2 d v yd yv ta) = [])
    by (intros; unfold AI_pitch; branch_all; reflexivity).
  assert (Hlong : forall vv a b c d e f h,
            callsOn ["rollLeft"; "rollRight"]
              (AI_longitudinal controlledEntity vv a b c d e f h) = [])
    by (intros; unfold AI_longitudinal; branch_all; reflexivity).
  assert (Hidle : forall vv sp tm,
            callsOn ["rollLeft"; "rollRight"] (AI_idle controlledEntity vv sp tm) = [])
    by (intros; unfold AI_idle; branch_all; reflexivity).
  unfold AIController_control. fold pm.
  destruct (goals this) as [|g rest]; [|destruct (distanceTo g pm <? 0.5)];
    cbn [AI_calls]; rewrite !callsOn_app, ?callsOn_skip by reflexivity;
    unfold AI_manoeuvre; rewrite ?callsOn_app, ?Hidle, ?Hlong, ?Hyaw, ?Hpitch, Hroll;
    reflexivity.
Qed.

(** X10. The roll is damped the same way whatever the goals: two
    controllers on the same craft make the same calls on the roll groups,
    and with the roll reading within the 0.0001 dead band they make none. *)
Theorem roll_damping_ignores_goals
    (this this' : AIController) (controlledEntity : Spacecraft) :
  callsOn ["rollLeft"; "rollRight"] (AI_calls (AIController_control this controlledEntity))
  = callsOn ["rollLeft"; "rollRight"]
      (AI_calls (AIController_control this' controlledEntity))
  /\ (Qabs (turningMatrixOf (physicalModel controlledEntity)).[2] <= 0.0001 ->
      callsOn ["rollLeft"; "rollRight"]
        (AI_calls (AIController_control this controlledEntity)) = []).
Proof.
  rewrite !AI_calls_on_roll. split; [reflexivity|].
  intros Hband. apply Qabs_Qle_condition in Hband. unfold AI_roll.
  compare_all; try reflexivity; exfalso; lra.
Qed.

(** X11. A craft with no goal, no speed and its three turning readings
    within the dead band is left alone: the invocation resets the
    thrusters and makes no other call. *)
Theorem idle_craft_at_rest_only_resets
    (this : AIController) (controlledEntity : Spacecraft) :
  goals this = [] ->
  speedOf (physicalModel controlledEntity) <= 0 ->
  Qabs (turningMatrixOf (physicalModel controlledEntity)).[4] <= 0.0001 ->
  Qabs (turningMatrixOf (physicalModel controlledEntity)).[6] <= 0.0001 ->
  Qabs (turningMatrixOf (physicalModel controlledEntity)).[2] <= 0.0001 ->
  AI_calls (AIController_control this controlledEntity) = [ResetThrusterBurn].
Proof.
  intros Hgoals Hspeed H4 H6 H2.
  apply Qabs_Qle_condition in H4, H6, H2.
  unfold AIController_control. rewrite Hgoals. cbn [AI_calls].
  unfold AI_idle, AI_roll.
  apply Qgtb_le in Hspeed. rewrite Hspeed.
  generalize dependent (turningMatrixOf (physicalModel controlledEntity)).
  intros tm H4 H6 H2.
  compare_all; try reflexivity; exfalso; lra.
Qed.

(** Calls on none of the groups [uses'] are on none of fewer groups. *)
Lemma callsOn_incl_nil (uses uses' : list string) (l : list ThrusterCall) :
  incl uses uses' -> callsOn uses' l = [] -> callsOn uses l = [].
Proof.
  intros Hincl. unfold callsOn. induction l as [|c l IH]; [reflexivity|].
  cbn [List.filter]. destruct (existsb _ uses') eqn:E'; [discriminate|].
  intros Hl. destruct (existsb _ uses) eqn:E; [|auto].
  exfalso. apply not_true_iff_false in E'. apply E'.
  apply existsb_exists in E as (u & Hu & Hon).
  apply existsb_exists. eauto.
Qed.

(** The calls of an invocation that steers towards its head goal: the
    longitudinal chain, then yaw and pitch calls, then roll calls, of which
    only the chain touches the course. *)
Lemma AI_navigating_calls this controlledEntity g rest :
  goals this = g :: rest ->
  0.5 <= distanceTo g (physicalModel controlledEntity) ->
  exists turning : list ThrusterCall,
    AI_calls (AIController_control this controlledEntity)
    = ResetThrusterBurn
      :: AI_longitudinal controlledEntity
           (velocityVectorOf (physicalModel controlledEntity))
           (speedOf (physicalModel controlledEntity))
           (speed2Of (physicalModel controlledEntity))
           (thrust (propulsion controlledEntity) / mass (physicalModel controlledEntity))
           (distanceTo g (physicalModel controlledEntity))
           (speedTowards g (physicalModel controlledEntity))
           (speedTowards g (physicalModel controlledEntity)
            * speedTowards g (physicalModel controlledEntity))
           (angleDifferenceOfUnitVectors
              (directionVectorOf (physicalModel controlledEntity))
              (toGoalOf g (physicalModel controlledEntity)))
         ++ turning
    /\ callsOn courseUses turning = []
    /\ directionalCalls turning = []
    /\ goals (AI_after (AIController_control this controlledEntity)) = g :: rest.
Proof.
  set (pm := physicalModel controlledEntity).
  intros Hgoals Hfar. unfold AIController_control. rewrite Hgoals. fold pm.
  apply Qltb_ge in Hfar. rewrite Hfar. cbn [AI_after AI_calls app].
  unfold AI_manoeuvre. fold pm.
  match goal with
  | |- context [AI_yaw ?e ?a ?b ?c ?d ?f] =>
      destruct (AI_yaw_calls e a b c d f) as [Hy Hyd];
      generalize dependent (AI_yaw e a b c d f)
  end.
  intros yaw Hy Hyd.
  match goal with
  | |- context [AI_pitch ?e ?a ?b ?c ?d ?f ?h ?k] =>
      destruct (AI_pitch_calls e a b c d f h k) as [Hp Hpd];
      generalize dependent (AI_pitch e a b c d f h k)
  end.
  intros pitch Hp Hpd.
  destruct (AI_roll_calls controlledEntity (turningMatrixOf pm)) as [Hr Hrd].
  generalize dependent (AI_roll controlledEntity (turningMatrixOf pm)).
  intros roll Hr Hrd.
  exists (yaw ++ pitch ++ roll). repeat split.
  - now rewrite <- !app_assoc.
  - rewrite !callsOn_app, Hy, Hp.
    rewrite (callsOn_incl_nil courseUses (courseUses ++ headingUses) roll);
      [reflexivity|apply incl_appl, incl_refl|assumption].
  - rewrite !directionalCalls_app, Hyd, Hpd, Hrd. reflexivity.
  - assumption.
Qed.

(** X12. When the craft recedes from its head goal (the closing speed is
    negative) at distance 0.5 or more, the invocation makes one
    directional burn, along the unit velocity by -0.5, and no call on the
    forward group. When it closes in without drift but the squared speed
    exceeds [2 * distance * acceleration], it does the same. *)
Theorem AI_brakes_when_receding_or_too_fast
    (this : AIController) (controlledEntity : Spacecraft)
    (g : Goal) (rest : list Goal) :
  goals this = g :: rest ->
  0.5 <= distanceTo g (physicalModel controlledEntity) ->
  speedTowards g (physicalModel controlledEntity) < 0
  \/ (speedOf (physicalModel controlledEntity) * 0.999
      <= speedTowards g (physicalModel controlledEntity)
      /\ 2 * distanceTo g (physicalModel controlledEntity)
           * (thrust (propulsion controlledEntity)
              / mass (physicalModel controlledEntity))
         < speed2Of (physicalModel controlledEntity)) ->
  directionalCalls (AI_calls (AIController_control this controlledEntity))
  = [AddDirectionalThrusterBurn
       (velocityVectorOf (physicalModel controlledEntity)) (-0.5)]
  /\ callsOn ["forward"] (AI_calls (AIController_control this controlledEntity)) = [].
Proof.
  intros Hgoals Hfar Hcase.
  destruct (AI_navigating_calls this controlledEntity g rest Hgoals Hfar)
    as (turning & -> & Hcourse & Hdir & _).
  apply (callsOn_incl_nil ["forward"]%string) in Hcourse;
    [|unfold courseUses; intros u Hu; cbn in *; tauto].
  match goal with
  | |- context [AI_longitudinal ?e ?vv ?a ?b ?c ?d ?f ?h ?k] =>
      assert (Hlong : AI_longitudinal e vv a b c d f h k
                      = [AddDirectionalThrusterBurn vv (-0.5)])
  end.
  { unfold AI_longitudinal. destruct Hcase as [Haway|[Hnodrift Hfast]].
    - apply Qltb_lt in Haway. now rewrite Haway.
    - destruct (_ <? 0); [reflexivity|].
      apply Qgtb_le in Hnodrift. rewrite Hnodrift.
      apply Qgtb_gt in Hfast. now rewrite Hfast. }
  rewrite Hlong. cbn [app]. split.
  - unfold directionalCalls in *. cbn [List.filter isDirectional]. now rewrite Hdir.
  - rewrite callsOn_skip by reflexivity. rewrite callsOn_skip by reflexivity.
    exact Hcourse.
Qed.

(** The course calls of a list are made of its heads that act on the
    course. *)
Lemma courseCalls_keep (c : ThrusterCall) (l : list ThrusterCall) :
  isDirectional c || existsb (fun u => onUse u c) courseUses = true ->
  courseCalls (c :: l) = c :: courseCalls l.
Proof. intros H. unfold courseCalls. cbn [List.filter]. now rewrite H. Qed.

Lemma courseCalls_skip (c : ThrusterCall) (l : list ThrusterCall) :
  isDirectional c || existsb (fun u => onUse u c) courseUses = false ->
  courseCalls (c :: l) = courseCalls l.
Proof. intros H. unfold courseCalls. cbn [List.filter]. now rewrite H. Qed.

Lemma courseCalls_nil (l : list ThrusterCall) :
  callsOn courseUses l = [] -> directionalCalls l = [] -> courseCalls l = [].
Proof.
  unfold callsOn, directionalCalls, courseCalls.
  induction l as [|c l IH]; [reflexivity|]. cbn [List.filter].
  destruct (existsb _ courseUses); [discriminate|].
  destruct (isDirectional c); [discriminate|]. exact IH.
Qed.

(** The drift correction for a share [k] of the thrust is not below
    [-0.5 * k]. *)
Lemma drift_burn_share (thrust mass speed towards k : Q) :
  0 < thrust -> 0 < mass -> 0 <= towards -> towards < speed * 0.999 ->
  0 < k -> k <= 1 ->
  0.5 * - Qmin (thrust * k) ((speed - towards) / mass) / thrust < 0
  /\ -0.5 * k <= 0.5 * - Qmin (thrust * k) ((speed - towards) / mass) / thrust.
Proof.
  intros Ht Hm Hclosing Hdrift Hk Hk1.
  destruct (drift_burn_bounds thrust mass speed towards k) as [Hneg _];
    try assumption.
  split; [exact Hneg|].
  pose proof (Q.le_min_l (thrust * k) ((speed - towards) / mass)) as Hle.
  set (m := Qmin (thrust * k) ((speed - towards) / mass)) in *.
  apply Qle_shift_div_l; [assumption|]. nra.
Qed.

(** X13. When the craft closes in on its head goal with drift (the speed
    times 0.999 exceeds the closing speed, which is not negative), the
    first call of the invocation that acts on the course is a directional
    burn along the unit velocity. If the stopping distance allows
    ([closing speed^2 < 2 * distance * acceleration]) and the heading
    error is below 0.1, the second and last is a burn of the forward group
    by 0.375; otherwise it is a second directional burn along the unit
    velocity, and the forward group is not burnt. On a craft of positive
    thrust and mass both directional burns brake: the first amount is in
    [-0.125, 0), the second in [-0.375, 0). *)
Theorem AI_corrects_drift
    (this : AIController) (controlledEntity : Spacecraft)
    (g : Goal) (rest : list Goal) :
  goals this = g :: rest ->
  0.5 <= distanceTo g (physicalModel controlledEntity) ->
  0 <= speedTowards g (physicalModel controlledEntity) ->
  speedTowards g (physicalModel controlledEntity)
  < speedOf (physicalModel controlledEntity) * 0.999 ->
  exists first second : Q,
    (0 < thrust (propulsion controlledEntity) ->
     0 < mass (physicalModel controlledEntity) ->
     (-0.125 <= first /\ first < 0) /\ (-0.375 <= second /\ second < 0))
    /\ (speedTowards g (physicalModel controlledEntity)
        * speedTowards g (physicalModel controlledEntity)
        < 2 * distanceTo g (physicalModel controlledEntity)
          * (thrust (propulsion controlledEntity)
             / mass (physicalModel controlledEntity)) ->
        angleDifferenceOfUnitVectors
          (directionVectorOf (physicalModel controlledEntity))
          (toGoalOf g (physicalModel controlledEntity)) < 0.1 ->
        courseCalls (AI_calls (AIController_control this controlledEntity))
        = [AddDirectionalThrusterBurn
             (velocityVectorOf (physicalModel controlledEntity)) first;
           AddThrusterBurn "forward" 0.375])
    /\ (2 * distanceTo g (physicalModel controlledEntity)
          * (thrust (propulsion controlledEntity)
             / mass (physicalModel controlledEntity))
        <= speedTowards g (physicalModel controlledEntity)
           * speedTowards g (physicalModel controlledEntity)
        \/ 0.1 <= angleDifferenceOfUnitVectors
                    (directionVectorOf (physicalModel controlledEntity))
                    (toGoalOf g (physicalModel controlledEntity)) ->
        courseCalls (AI_calls (AIController_control this controlledEntity))
        = [AddDirectionalThrusterBurn
             (velocityVectorOf (physicalModel controlledEntity)) first;
           AddDirectionalThrusterBurn
             (velocityVectorOf (physicalModel controlledEntity)) second]).
Proof.
  intros Hgoals Hfar Hclosing Hdrift.
  destruct (AI_navigating_calls this controlledEntity g rest Hgoals Hfar)
    as (turning & -> & Hcourse & Hdir & _).
  pose proof (courseCalls_nil turning Hcourse Hdir) as Hturning.
  set (pm := physicalModel controlledEntity) in *.
  exists (0.5 * - Qmin (thrust (propulsion controlledEntity) * 0.25)
                   ((speedOf pm - speedTowards g pm) / mass pm)
          / thrust (propulsion controlledEntity)),
         (0.5 * - Qmin (thrust (propulsion controlledEntity) * 0.75)
                   ((speedOf pm - speedTowards g pm) / mass pm)
          / thrust (propulsion controlledEntity)).
  split; [|split].
  - intros Ht Hm.
    destruct (drift_burn_share _ _ _ _ 0.25 Ht Hm Hclosing Hdrift) as [? ?];
      [lra|lra|].
    destruct (drift_burn_share _ _ _ _ 0.75 Ht Hm Hclosing Hdrift) as [? ?];
      [lra|lra|].
    repeat apply conj; lra.
  - intros Hstop Hheading. unfold AI_longitudinal. fold pm.
    apply Qltb_ge in Hclosing. rewrite Hclosing.
    apply Qgtb_gt in Hdrift. rewrite Hdrift.
    apply Qgtb_gt in Hstop. apply Qltb_lt in Hheading. rewrite Hstop, Hheading.
    cbn [andb app].
    rewrite courseCalls_skip by reflexivity.
    rewrite !courseCalls_keep by reflexivity.
    now rewrite Hturning.
  - intros Hno. unfold AI_longitudinal. fold pm.
    apply Qltb_ge in Hclosing. rewrite Hclosing.
    apply Qgtb_gt in Hdrift. rewrite Hdrift.
    assert (Hcond : forall a b c d, (a >? b) && (c <? d) = false
              <-> a <= b \/ d <= c).
    { intros. rewrite andb_false_iff, Qgtb_le, Qltb_ge. reflexivity. }
    apply Hcond in Hno. rewrite Hno.
    cbn [app].
    rewrite courseCalls_skip by reflexivity.
    rewrite !courseCalls_keep by reflexivity.
    now rewrite Hturning.
Qed.

(** X14. The goal queue is first in, first out: an invocation leaves it as
    it is or removes its head, and it removes the head exactly when the
    head is closer than 0.5; the goals behind keep their order. *)
Theorem AI_goals_are_first_in_first_out
    (this : AIController) (controlledEntity : Spacecraft) :
  match goals this with
  | [] => goals (AI_after (AIController_control this controlledEntity)) = []
  | g :: rest =>
      (distanceTo g (physicalModel controlledEntity) < 0.5 ->
       goals (AI_after (AIController_control this controlledEntity)) = rest)
      /\ (0.5 <= distanceTo g (physicalModel controlledEntity) ->
          goals (AI_after (AIController_control this controlledEntity)) = g :: rest)
  end.
Proof.
  unfold AIController_control.
  destruct (goals this) as [|g rest] eqn:Hgoals; [exact Hgoals|].
  destruct (_ <? 0.5) eqn:Enear; cbn [AI_after].
  - apply Qltb_lt in Enear. split; [reflexivity|]. intros. exfalso. lra.
  - apply Qltb_ge in Enear. split; [|intros _; exact Hgoals]. intros. exfalso. lra.
Qed.

End AutonomousFurther.

(** ** The camera *)

Lemma rateUp_bounds (held : bool) (v limit step : Q) :
  0 <= limit -> 0 <= step ->
  - (limit + step) <= v <= limit + step ->
  - (limit + step) <= rateUp held v limit step <= limit + step.
Proof.
  intros Hlimit Hstep Hv. unfold rateUp.
  destruct (Q.min_spec step v) as [[? Hmin]|[? Hmin]];
    destruct held; compare_all; lra.
Qed.

Lemma rateDown_bounds (held : bool) (v limit step : Q) :
  0 <= limit -> 0 <= step ->
  - (limit + step) <= v <= limit + step ->
  - (limit + step) <= rateDown held v limit step <= limit + step.
Proof.
  intros Hlimit Hstep Hv. unfold rateDown.
  destruct (Q.min_spec step (- v)) as [[? Hmin]|[? Hmin]];
    destruct held; compare_all; lra.
Qed.

Lemma rate_decays (v limit step : Q) :
  0 <= step -> decayed step v (rateDown false (rateUp false v limit step) limit step).
Proof.
  intros Hstep. unfold decayed, rateUp, rateDown.
  destruct (Qlt_le_dec 0 v) as [Hpos|Hneg].
  - apply Qgtb_gt in Hpos as E. rewrite E.
    assert (E' : (v - Qmin step v <? 0) = false).
    { apply Qltb_ge. pose proof (Q.le_min_r step v). lra. }
    rewrite E'.
    pose proof (Qabs_pos v) as Hv.
    pose proof (Qabs_pos (v - Qmin step v)) as Hv'.
    destruct (Q.min_spec step v) as [[? Hmin]|[? Hmin]];
      repeat split; intros; lra.
  - apply Qgtb_le in Hneg as E. rewrite E.
    pose proof (Qabs_neg v) as Hv.
    destruct (v <? 0) eqn:E'; [apply Qltb_lt in E' | apply Qltb_ge in E'].
    + pose proof (Qabs_neg (v + Qmin step (- v))) as Hv'.
      destruct (Q.min_spec step (- v)) as [[? Hmin]|[? Hmin]];
        repeat split; intros; lra.
    + repeat split; intros; lra.
Qed.

Section CameraFurther.
Context {lib : MatrixLib}.

(** What [controlCamera] leaves of the velocities of a camera in free
    flight: the key blocks decide them, if the camera is controllable. *)
Lemma controlCamera_free_rates keys camera :
  Camera.followedObject camera = None ->
  Camera.velocity (controlCamera keys camera)
  = (if Camera.controllablePosition camera
     then moveByKeys keys camera else Camera.velocity camera)
  /\ Camera.angularVelocity (controlCamera keys camera)
     = (if Camera.controllableDirection camera
        then turnByKeys keys camera else Camera.angularVelocity camera).
Proof.
  intros Hfree. unfold controlCamera.
  destruct camera as [cd cp pos ori vel av ms acc mt aa fov fo fp fori fc mx].
  cbn [Camera.followedObject] in Hfree. subst fo.
  destruct cd, cp; cbn -[moveByKeys turnByKeys];
    destruct (pressed keys 90), (pressed keys 85); split; reflexivity.
Qed.

(** X15. The speed of a free camera stays bounded, by the maximum speed
    plus one acceleration step (a held key adds a step while the speed is
    below the maximum, so the maximum itself can be passed by less than a
    step): if the three velocity components are within that bound before a
    tick, they are after it, whatever keys are held. *)
Theorem camera_speed_stays_bounded
    (keys : gmap Z bool) (camera : Camera.t) (a b c : Q) :
  Camera.followedObject camera = None ->
  Camera.velocity camera = [a; b; c] ->
  0 <= Camera.maxSpeed camera ->
  0 <= Camera.acceleration camera ->
  Forall (fun v => Qabs v <= Camera.maxSpeed camera + Camera.acceleration camera)
         [a; b; c] ->
  length (Camera.velocity (controlCamera keys camera)) = 3%nat
  /\ Forall (fun v => Qabs v <= Camera.maxSpeed camera + Camera.acceleration camera)
       (Camera.velocity (controlCamera keys camera)).
Proof.
  intros Hfree Hv Hlimit Hstep Hbound.
  destruct (controlCamera_free_rates keys camera Hfree) as [-> _].
  destruct (Camera.controllablePosition camera).
  - unfold moveByKeys. rewrite Hv.
    cbn [insert list_insert el nth].
    apply Forall_cons_iff in Hbound as [Ha Hbound].
    apply Forall_cons_iff in Hbound as [Hb Hbound].
    apply Forall_cons_iff in Hbound as [Hc _].
    rewrite Qabs_Qle_condition in Ha, Hb, Hc.
    split; [reflexivity|].
    repeat (apply List.Forall_cons || apply List.Forall_nil);
      apply Qabs_Qle_condition;
      apply rateDown_bounds; try assumption;
      apply rateUp_bounds; assumption.
  - rewrite Hv. split; [reflexivity|assumption].
Qed.

(** X16. With none of the six motion keys held, the velocity of a free,
    controllable camera decays towards zero: each component keeps its
    side of zero, does not grow, and becomes zero once it is within one
    acceleration step of zero. *)
Theorem camera_velocity_decays_when_keys_released
    (keys : gmap Z bool) (camera : Camera.t) (a b c : Q) :
  Camera.followedObject camera = None ->
  Camera.controllablePosition camera = true ->
  Camera.velocity camera = [a; b; c] ->
  0 <= Camera.acceleration camera ->
  Forall (fun code => pressed keys code = false) [37; 39; 34; 33; 38; 40]%Z ->
  Forall2 (decayed (Camera.acceleration camera))
    [a; b; c] (Camera.velocity (controlCamera keys camera)).
Proof.
  intros Hfree Hctl Hv Hstep Hkeys.
  destruct (controlCamera_free_rates keys camera Hfree) as [-> _].
  rewrite Hctl. unfold moveByKeys. rewrite Hv.
  repeat match goal with
  | H : Forall _ (_ :: _) |- _ => apply Forall_cons_iff in H as [? H]
  end.
  repeat match goal with E : pressed keys _ = false |- _ => rewrite E; clear E end.
  cbn [insert list_insert el nth].
  repeat (apply List.Forall2_cons || apply List.Forall2_nil);
    now apply rate_decays.
Qed.

(** X17. A tick of the camera changes only its pose, its two velocities
    and its field of view: the followed object, the follow offsets, the
    followed camera, the capability flags and the four limits are left as
    they were; and the angular velocity is left as it was unless the
    direction is controllable. *)
Theorem controlCamera_leaves_bindings_and_limits
    (keys : gmap Z bool) (camera : Camera.t) :
  Camera.followedObject (controlCamera keys camera) = Camera.followedObject camera
  /\ Camera.followPosition (controlCamera keys camera) = Camera.followPosition camera
  /\ Camera.followOrientation (controlCamera keys camera)
     = Camera.followOrientation camera
  /\ Camera.followedCamera (controlCamera keys camera) = Camera.followedCamera camera
  /\ Camera.controllableDirection (controlCamera keys camera)
     = Camera.controllableDirection camera
  /\ Camera.controllablePosition (controlCamera keys camera)
     = Camera.controllablePosition camera
  /\ [Camera.maxSpeed (controlCamera keys camera);
      Camera.acceleration (controlCamera keys camera);
      Camera.maxTurn (controlCamera keys camera);
      Camera.angularAcceleration (controlCamera keys camera)]
     = [Camera.maxSpeed camera; Camera.acceleration camera;
        Camera.maxTurn camera; Camera.angularAcceleration camera]
  /\ (Camera.controllableDirection camera = false ->
      Camera.angularVelocity (controlCamera keys camera)
      = Camera.angularVelocity camera).
Proof.
  unfold controlCamera.
  destruct camera as [cd cp pos ori vel av ms acc mt aa fov fo fp fori fc mx].
  destruct cd, cp, fo as [followed|]; cbn -[moveByKeys turnByKeys];
    destruct (pressed keys 90), (pressed keys 85);
    repeat split; try reflexivity; discriminate.
Qed.

(** X18. The zoom keys act the same in free flight and in follow mode: Z
    takes one from the field of view, U adds one, and held together they
    leave it as it was. *)
Theorem controlCamera_zoom
    (keys : gmap Z bool) (camera : Camera.t) :
  Camera.fov (controlCamera keys camera)
  == Camera.fov camera
     - (if pressed keys 90 then 1 else 0) + (if pressed keys 85 then 1 else 0).
Proof.
  unfold controlCamera.
  destruct camera as [cd cp pos ori vel av ms acc mt aa fov fo fp fori fc mx].
  destruct cd, cp, fo as [followed|]; cbn -[moveByKeys turnByKeys Qplus Qminus];
    destruct (pressed keys 90), (pressed keys 85);
    cbn -[moveByKeys turnByKeys Qplus Qminus]; ring.
Qed.

End CameraFurther.

(** ** The dispatcher *)

Lemma splice1_sublist {A} (i : Z) (l : list A) : splice1 i l `sublist_of` l.
Proof. unfold splice1. apply sublist_delete. Qed.

(** The stop-all loop on spacecraft that all have a controller. *)
(** The assignment of the stop-all loop leaves a spacecraft stopped. *)
Lemma stopped_clears (s : Spacecraft) (c : Controller) :
  controller s = Some c ->
  with_controller (Some (clearGoals c)) s = stopped s.
Proof.
  intros Hc. unfold stopped, with_controller. rewrite Hc.
  destruct c; reflexivity.
Qed.

Lemma stopAll_all (todo done : list Spacecraft) :
  Forall (fun s => is_Some (controller s)) todo ->
  stopAll done todo = inl (done ++ map stopped todo).
Proof.
  revert done. induction todo as [|s todo IH]; intros done Hall.
  - cbn. now rewrite app_nil_r.
  - apply Forall_cons_iff in Hall as [[c Hc] Hall]. cbn [stopAll map].
    rewrite Hc, IH by assumption. rewrite (stopped_clears s c Hc).
    now rewrite <- app_assoc.
Qed.

(** The stop-all loop up to the first spacecraft without a controller. *)
Lemma stopAll_throws (pre post done : list Spacecraft) (s : Spacecraft) :
  Forall (fun s => is_Some (controller s)) pre ->
  controller s = None ->
  stopAll done (pre ++ s :: post) = inr (done ++ map stopped pre ++ s :: post).
Proof.
  revert done. induction pre as [|s' pre IH]; intros done Hall Hnone.
  - cbn. now rewrite Hnone.
  - apply Forall_cons_iff in Hall as [[c Hc] Hall]. cbn [stopAll map app].
    rewrite Hc, IH by assumption. rewrite (stopped_clears s' c Hc).
    now rewrite <- app_assoc.
Qed.

Lemma toggleHitbox_twice (n : Subnode) : toggleHitbox (toggleHitbox n) = n.
Proof.
  unfold toggleHitbox. destruct n as [name shown]. cbn.
  destruct (bool_decide (name = "textures/white.png")) eqn:E; cbn; rewrite E;
    [now rewrite negb_involutive|reflexivity].
Qed.

Lemma hitboxesToggled_twice (s : Spacecraft) :
  hitboxesToggled (hitboxesToggled s) = s.
Proof.
  destruct s as [pm pr c nodes]. unfold hitboxesToggled, with_subnodes.
  cbn [physicalModel propulsion controller subnodes]. f_equal.
  rewrite map_map, (map_ext _ id) by apply toggleHitbox_twice.
  apply map_id.
Qed.

Section DispatcherFurther.
Context {lib : MatrixLib} {scene : Scene}.

Lemma setController_any_queue w c :
  keyPressEvents (worldOf (setController w c) id) = keyPressEvents w.
Proof.
  unfold setController. destruct (jsAdd _ _); [|reflexivity].
  destruct (jsIndex _ _); reflexivity.
Qed.

(** Handling an event leaves the queue as it is, also when it throws. *)
Lemma handleEvent_any_queue w i event :
  keyPressEvents (worldOf (handleEvent w i event) fst) = keyPressEvents w.
Proof.
  unfold handleEvent.
  set (w1 := if charIs event char_c then _ else w).
  set (w2 := if charIs event char_x then _ else w1).
  assert (H2 : keyPressEvents w2 = keyPressEvents w).
  { subst w2 w1. repeat destruct (charIs event _); reflexivity. }
  clearbody w2. clear w1. rewrite <- H2. clear H2.
  repeat match goal with
  | |- context [setController ?w0 ?c] =>
      let H := fresh in
      pose proof (setController_any_queue w0 c) as H;
      destruct (setController w0 c); cbn [worldOf id] in H
  | |- context [if ?b then _ else _] => destruct b
  | |- context [match stopAll ?a ?b with _ => _ end] => destruct (stopAll a b)
  end; cbn; congruence.
Qed.

Lemma processEvents_sublist i w :
  keyPressEvents (worldOf (processEvents i w) id) `sublist_of` keyPressEvents w.
Proof.
  funelim (processEvents i w); cbn [worldOf id]; try reflexivity.
  - match goal with
    | IH : sublist _ _, E : handleEvent _ _ _ = Normal _ |- _ =>
        etrans; [exact IH|];
        pose proof (handleEvent_any_queue w i event) as Hq; rewrite E in Hq
    end.
    cbn [worldOf fst keyPressEvents with_keyPressEvents] in *.
    rewrite <- Hq. apply splice1_sublist.
  - match goal with
    | E : handleEvent _ _ _ = Throw _ |- _ =>
        pose proof (handleEvent_any_queue w i event) as Hq; rewrite E in Hq
    end.
    cbn [worldOf] in Hq. now rewrite Hq.
Qed.

(** X19. When the active camera follows one of the cameras of the list,
    the camera step of [control] moves that camera where it is stored: its
    place in the list holds the controlled camera, the other places and the
    length of the list are as before, the active camera takes over its two
    velocities, and the active camera's own position and orientation are
    left to the later update. *)
Theorem followed_camera_is_controlled_in_place
    (w : World) (k : nat) (followed : Camera.t) :
  Camera.followedCamera (activeCamera w) = Some k ->
  cameras w !! k = Some followed ->
  cameras (controlActiveCamera w) !! k
  = Some (controlCamera (currentlyPressedKeys w) followed)
  /\ (forall j : nat, j <> k ->
        cameras (controlActiveCamera w) !! j = cameras w !! j)
  /\ length (cameras (controlActiveCamera w)) = length (cameras w)
  /\ Camera.velocity (activeCamera (controlActiveCamera w))
     = Camera.velocity (controlCamera (currentlyPressedKeys w) followed)
  /\ Camera.angularVelocity (activeCamera (controlActiveCamera w))
     = Camera.angularVelocity (controlCamera (currentlyPressedKeys w) followed)
  /\ Camera.position (activeCamera (controlActiveCamera w))
     = Camera.position (activeCamera w)
  /\ Camera.orientation (activeCamera (controlActiveCamera w))
     = Camera.orientation (activeCamera w).
Proof.
  intros Hfollows Hk. unfold controlActiveCamera. rewrite Hfollows, Hk.
  cbn [cameras activeCamera with_activeCamera with_cameras].
  repeat split.
  - apply list_lookup_insert_eq. now apply lookup_lt_Some in Hk.
  - intros j Hj. now apply list_lookup_insert_ne.
  - apply length_insert.
Qed.

Lemma controlActiveCamera_queue w :
  keyPressEvents (controlActiveCamera w) = keyPressEvents w.
Proof.
  unfold controlActiveCamera.
  destruct (Camera.followedCamera _); [destruct (_ !! _)|]; reflexivity.
Qed.

(** X20. A tick of the dispatcher only takes events off the queue: the
    queue it ends with, normally or by throwing, is a sublist of the
    queue it started with, so no event is added, repeated or reordered. *)
Theorem control_only_removes_events (w : World) :
  keyPressEvents (worldOf (control w) id) `sublist_of` keyPressEvents w.
Proof.
  unfold control.
  pose proof (processEvents_sublist 0 (controlActiveCamera w)) as Hsub.
  rewrite controlActiveCamera_queue in Hsub.
  destruct (processEvents 0 (controlActiveCamera w)); exact Hsub.
Qed.

(** What the set-manual and set-autonomous events come to. *)
Lemma handleEvent_set_manual w i event :
  charIs event char_m = true ->
  handleEvent w i event
  = if jsPositive (activeCameraIndex w) then
      match setController w (Manual {| flightMode := FM_INERTIAL; intendedSpeed := 0 |}) with
      | Normal w' => Normal (w', i)
      | Throw w' => Throw w'
      end
    else Normal (w, i).
Proof.
  intros Hm. unfold handleEvent.
  rewrite (charIs_unique event char_m char_c Hm) by discriminate.
  rewrite (charIs_unique event char_m char_x Hm) by discriminate.
  rewrite (charIs_unique event char_m char_n Hm) by discriminate.
  rewrite (charIs_unique event char_m char_0 Hm) by discriminate.
  rewrite (charIs_unique event char_m char_l Hm) by discriminate.
  rewrite (charIs_unique event char_m char_h Hm) by discriminate.
  rewrite Hm. cbn [andb].
  destruct (jsPositive _); [destruct (setController _ _)|]; reflexivity.
Qed.

Lemma handleEvent_set_autonomous w i event :
  charIs event char_n = true ->
  handleEvent w i event
  = if jsPositive (activeCameraIndex w) then
      match setController w
              (Autonomous {| goals := map (randomGoal (randoms w) (drawn w)) (seq 0 10) |})
      with
      | Normal w' => Normal (with_drawn (drawn w + 30) w', i)
      | Throw w' => Throw w'
      end
    else Normal (w, i).
Proof.
  intros Hn. unfold handleEvent.
  rewrite (charIs_unique event char_n char_c Hn) by discriminate.
  rewrite (charIs_unique event char_n char_x Hn) by discriminate.
  rewrite (charIs_unique event char_n char_m Hn) by discriminate.
  rewrite (charIs_unique event char_n char_0 Hn) by discriminate.
  rewrite (charIs_unique event char_n char_l Hn) by discriminate.
  rewrite (charIs_unique event char_n char_h Hn) by discriminate.
  rewrite Hn. cbn [andb].
  destruct (jsPositive _); [destruct (setController _ _)|]; reflexivity.
Qed.

Lemma setController_found w c z s :
  activeCameraIndex w = Int z -> (0 < z)%Z ->
  spacecrafts w !! Z.to_nat (z - 1) = Some s ->
  setController w c
  = Normal (with_spacecrafts
              (<[Z.to_nat (z - 1) := with_controller (Some c) s]> (spacecrafts w)) w).
Proof.
  intros Hindex Hz Hs. unfold setController. rewrite Hindex.
  cbn [jsAdd jsIndex]. change (z + -1)%Z with (z - 1)%Z.
  destruct (Z.ltb_spec (z - 1) 0); [lia|]. now rewrite Hs.
Qed.

Lemma setController_missing w c z :
  activeCameraIndex w = Int z -> (0 < z)%Z ->
  spacecrafts w !! Z.to_nat (z - 1) = None ->
  setController w c = Throw w.
Proof.
  intros Hindex Hz Hs. unfold setController. rewrite Hindex.
  cbn [jsAdd jsIndex]. change (z + -1)%Z with (z - 1)%Z.
  destruct (Z.ltb_spec (z - 1) 0); [lia|]. now rewrite Hs.
Qed.

(** X21. With camera [z] active, [z] above 0, a set-manual event gives
    spacecraft [z - 1] a fresh manual controller, in inertial mode with
    intended speed 0; the other spacecraft, the craft's own physical model
    and the active camera index are left as they were. *)
Theorem set_manual_installs_fresh_controller
    (w : World) (i : Z) (event : KeyEvent) (z : Z) (s : Spacecraft) :
  charIs event char_m = true ->
  activeCameraIndex w = Int z -> (0 < z)%Z ->
  spacecrafts w !! Z.to_nat (z - 1) = Some s ->
  exists w' : World,
    handleEvent w i event = Normal (w', i)
    /\ spacecrafts w' !! Z.to_nat (z - 1)
       = Some (with_controller
                 (Some (Manual {| flightMode := FM_INERTIAL; intendedSpeed := 0 |})) s)
    /\ (forall j : nat, j <> Z.to_nat (z - 1) ->
          spacecrafts w' !! j = spacecrafts w !! j)
    /\ length (spacecrafts w') = length (spacecrafts w)
    /\ activeCameraIndex w' = Int z.
Proof.
  intros Hm Hindex Hz Hs.
  rewrite (handleEvent_set_manual w i event Hm), Hindex.
  cbn [jsPositive]. destruct (Z.ltb_spec 0 z); [|lia].
  rewrite (setController_found w _ z s Hindex Hz Hs).
  eexists. split; [reflexivity|].
  cbn [spacecrafts with_spacecrafts activeCameraIndex]. repeat split.
  - apply list_lookup_insert_eq. now apply lookup_lt_Some in Hs.
  - intros j Hj. now apply list_lookup_insert_ne.
  - apply length_insert.
  - exact Hindex.
Qed.

(** X22. With camera [z] active, [z] above 0, a set-autonomous event
    gives spacecraft [z - 1] an autonomous controller with ten goals, for
    which it draws thirty random numbers; the other spacecraft are left as
    they were. *)
Theorem set_autonomous_seeds_ten_goals
    (w : World) (i : Z) (event : KeyEvent) (z : Z) (s : Spacecraft) :
  charIs event char_n = true ->
  activeCameraIndex w = Int z -> (0 < z)%Z ->
  spacecrafts w !! Z.to_nat (z - 1) = Some s ->
  exists (w' : World) (c : AIController),
    handleEvent w i event = Normal (w', i)
    /\ spacecrafts w' !! Z.to_nat (z - 1)
       = Some (with_controller (Some (Autonomous c)) s)
    /\ length (goals c) = 10%nat
    /\ drawn w' = (drawn w + 30)%nat
    /\ (forall j : nat, j <> Z.to_nat (z - 1) ->
          spacecrafts w' !! j = spacecrafts w !! j).
Proof.
  intros Hn Hindex Hz Hs.
  rewrite (handleEvent_set_autonomous w i event Hn), Hindex.
  cbn [jsPositive]. destruct (Z.ltb_spec 0 z); [|lia].
  rewrite (setController_found w _ z s Hindex Hz Hs).
  eexists. eexists. split; [reflexivity|].
  cbn [spacecrafts with_spacecrafts with_drawn drawn goals].
  split; [|split; [|split]].
  - apply list_lookup_insert_eq. now apply lookup_lt_Some in Hs.
  - reflexivity.
  - reflexivity.
  - intros j Hj. now apply list_lookup_insert_ne.
Qed.

(** X23. While the active camera index is not above 0 (the first camera
    is active, or the index has left the list downwards, or is [NaN]), the
    set-manual and set-autonomous events change nothing and draw no random
    number. *)
Theorem set_controller_needs_a_craft_camera
    (w : World) (i : Z) (event : KeyEvent) :
  charIs event char_m = true \/ charIs event char_n = true ->
  jsPositive (activeCameraIndex w) = false ->
  handleEvent w i event = Normal (w, i).
Proof.
  intros [Hm|Hn] Hfirst.
  - now rewrite (handleEvent_set_manual w i event Hm), Hfirst.
  - now rewrite (handleEvent_set_autonomous w i event Hn), Hfirst.
Qed.

(** X24. With camera [z] active, [z] above 0, and no spacecraft [z - 1],
    a set-manual or set-autonomous event at the head of the queue makes
    the event loop throw: the world is as it was, no random number is
    drawn, and the event and those behind it stay queued. *)
Theorem set_controller_without_craft_throws
    (w : World) (event : KeyEvent) (queue : list KeyEvent) (z : Z) :
  charIs event char_m = true \/ charIs event char_n = true ->
  keyPressEvents w = event :: queue ->
  activeCameraIndex w = Int z -> (0 < z)%Z ->
  spacecrafts w !! Z.to_nat (z - 1) = None ->
  processEvents 0 w = Throw w.
Proof.
  intros Hevent Hqueue Hindex Hz Hs.
  rewrite processEvents_step, Hqueue.
  change (0 <? Z.of_nat (length (event :: queue)))%Z with true.
  change ((event :: queue) !! Z.to_nat 0) with (Some event).
  cbv beta iota.
  assert (Hthrow : handleEvent w 0 event = Throw w).
  { destruct Hevent as [Hm|Hn].
    - rewrite (handleEvent_set_manual w 0 event Hm), Hindex.
      cbn [jsPositive]. destruct (Z.ltb_spec 0 z); [|lia].
      now rewrite (setController_missing w _ z Hindex Hz Hs).
    - rewrite (handleEvent_set_autonomous w 0 event Hn), Hindex.
      cbn [jsPositive]. destruct (Z.ltb_spec 0 z); [|lia].
      now rewrite (setController_missing w _ z Hindex Hz Hs). }
  now rewrite Hthrow.
Qed.

Lemma handleEvent_stop_all w i event :
  charIs event char_0 = true ->
  handleEvent w i event
  = match stopAll [] (spacecrafts w) with
    | inl l => Normal (with_spacecrafts l w, Z.of_nat (length (spacecrafts w)))
    | inr l => Throw (with_spacecrafts l w)
    end.
Proof.
  intros H0. unfold handleEvent.
  rewrite (charIs_unique event char_0 char_c H0) by discriminate.
  rewrite (charIs_unique event char_0 char_x H0) by discriminate.
  rewrite (charIs_unique event char_0 char_m H0) by discriminate.
  rewrite (charIs_unique event char_0 char_n H0) by discriminate.
  rewrite (charIs_unique event char_0 char_l H0) by discriminate.
  rewrite (charIs_unique event char_0 char_h H0) by discriminate.
  rewrite H0. cbn [andb]. destruct (stopAll _ _); reflexivity.
Qed.

(** X25. A stop-all event leaves every spacecraft stopped, provided every
    spacecraft has a controller: each autonomous controller has the empty
    goal queue, and manual controllers, physical models, propulsion and
    nodes are as they were. If a spacecraft has no controller, the event
    throws there: the spacecraft before it are stopped, it and those
    behind it are as they were. *)
Theorem stop_all_clears_goals_until_missing_controller
    (w : World) (i : Z) (event : KeyEvent) :
  charIs event char_0 = true ->
  (Forall (fun s => is_Some (controller s)) (spacecrafts w) ->
   handleEvent w i event
   = Normal (with_spacecrafts (map stopped (spacecrafts w)) w,
             Z.of_nat (length (spacecrafts w))))
  /\ (forall (pre post : list Spacecraft) (s : Spacecraft),
      spacecrafts w = pre ++ s :: post ->
      Forall (fun s => is_Some (controller s)) pre ->
      controller s = None ->
      handleEvent w i event
      = Throw (with_spacecrafts (map stopped pre ++ s :: post) w)).
Proof.
  intros H0. rewrite (handleEvent_stop_all w i event H0). split.
  - intros Hall. now rewrite (stopAll_all _ [] Hall).
  - intros pre post s Hcrafts Hall Hnone.
    now rewrite Hcrafts, (stopAll_throws pre post [] s Hall Hnone).
Qed.

Lemma handleEvent_hitboxes w i event :
  charIs event char_h = true ->
  handleEvent w i event
  = Normal (with_spacecrafts (map hitboxesToggled (spacecrafts w)) w,
            Z.of_nat (length (spacecrafts w))).
Proof.
  intros Hh. unfold handleEvent.
  rewrite (charIs_unique event char_h char_c Hh) by discriminate.
  rewrite (charIs_unique event char_h char_x Hh) by discriminate.
  rewrite (charIs_unique event char_h char_m Hh) by discriminate.
  rewrite (charIs_unique event char_h char_n Hh) by discriminate.
  rewrite (charIs_unique event char_h char_0 Hh) by discriminate.
  rewrite (charIs_unique event char_h char_l Hh) by discriminate.
  rewrite Hh. reflexivity.
Qed.

(** X26. The hitbox event is its own inverse: it flips the visibility
    of the nodes textured with [textures/white.png] and of no other node,
    and handled twice it gives back the world it started from. *)
Theorem hitbox_event_twice_restores
    (w : World) (i i' : Z) (event : KeyEvent) :
  charIs event char_h = true ->
  exists (w1 : World) (i1 : Z),
    handleEvent w i event = Normal (w1, i1)
    /\ map (fun s => map texture_filename (subnodes s)) (spacecrafts w1)
       = map (fun s => map texture_filename (subnodes s)) (spacecrafts w)
    /\ Forall2 (Forall2 (fun n n1 =>
          visible n1
          = if bool_decide (texture_filename n = "textures/white.png")
            then negb (visible n) else visible n))
         (map subnodes (spacecrafts w)) (map subnodes (spacecrafts w1))
    /\ handleEvent w1 i' event = Normal (w, i1).
Proof.
  intros Hh. rewrite (handleEvent_hitboxes w i event Hh).
  eexists. eexists. split; [reflexivity|].
  rewrite (handleEvent_hitboxes _ i' event Hh).
  cbn [spacecrafts with_spacecrafts]. repeat split.
  - rewrite map_map. apply map_ext. intros s. unfold hitboxesToggled.
    cbn [subnodes with_subnodes]. rewrite map_map. apply map_ext.
    intros n. unfold toggleHitbox. now destruct (bool_decide _).
  - rewrite map_map. induction (spacecrafts w) as [|s l IH]; constructor; [|exact IH].
    unfold hitboxesToggled. cbn [subnodes with_subnodes].
    induction (subnodes s) as [|n ns IHn]; constructor; [|exact IHn].
    unfold toggleHitbox. now destruct (bool_decide _).
  - rewrite length_map, map_map.
    rewrite (map_ext _ id) by apply hitboxesToggled_twice.
    rewrite map_id. destruct w. reflexivity.
Qed.

Lemma handleEvent_next_camera w i event :
  charIs event char_c = true ->
  handleEvent w i event
  = Normal
      (with_activeCamera
         (followCamera (activeCamera w) (cameras w)
            (jsRem (jsAdd (activeCameraIndex w) 1) (length (cameras w))))
         (with_activeCameraIndex
            (jsRem (jsAdd (activeCameraIndex w) 1) (length (cameras w))) w),
       i).
Proof.
  intros Hc. unfold handleEvent.
  rewrite (charIs_unique event char_c char_x Hc) by discriminate.
  rewrite (charIs_unique event char_c char_m Hc) by discriminate.
  rewrite (charIs_unique event char_c char_n Hc) by discriminate.
  rewrite (charIs_unique event char_c char_0 Hc) by discriminate.
  rewrite (charIs_unique event char_c char_l Hc) by discriminate.
  rewrite (charIs_unique event char_c char_h Hc) by discriminate.
  rewrite Hc. reflexivity.
Qed.

Lemma handleEvent_previous_camera w i event :
  charIs event char_x = true ->
  handleEvent w i event
  = Normal
      (with_activeCamera
         (followCamera (activeCamera w) (cameras w)
            (jsRem (jsAdd (activeCameraIndex w) (-1)) (length (cameras w))))
         (with_activeCameraIndex
            (jsRem (jsAdd (activeCameraIndex w) (-1)) (length (cameras w))) w),
       i).
Proof.
  intros Hx. unfold handleEvent.
  rewrite (charIs_unique event char_x char_c Hx) by discriminate.
  rewrite (charIs_unique event char_x char_m Hx) by discriminate.
  rewrite (charIs_unique event char_x char_n Hx) by discriminate.
  rewrite (charIs_unique event char_x char_0 Hx) by discriminate.
  rewrite (charIs_unique event char_x char_l Hx) by discriminate.
  rewrite (charIs_unique event char_x char_h Hx) by discriminate.
  rewrite Hx. reflexivity.
Qed.

(** [k] next-camera events handled in turn from camera [z] of [n]. *)
Lemma next_camera_events (event : KeyEvent) (k : nat) (w : World) (z : Z) :
  charIs event char_c = true ->
  activeCameraIndex w = Int z ->
  (0 <= z < Z.of_nat (length (cameras w)))%Z ->
  exists w' : World,
    handleInTurn (replicate k event) w = Normal w'
    /\ activeCameraIndex w'
       = Int ((z + Z.of_nat k) mod Z.of_nat (length (cameras w)))
    /\ cameras w' = cameras w
    /\ (k <> 0%nat ->
        Camera.followedCamera (activeCamera w')
        = Some (Z.to_nat ((z + Z.of_nat k) mod Z.of_nat (length (cameras w))))).
Proof.
  intros Hc. revert w z. induction k as [|k IH]; intros w z Hindex Hz.
  - exists w. cbn [replicate handleInTurn]. repeat split; [|congruence].
    now rewrite Hindex, Z.add_0_r, Z.mod_small.
  - cbn [replicate handleInTurn].
    rewrite (handleEvent_next_camera w 0 event Hc), Hindex.
    set (n := length (cameras w)) in *.
    assert (Hstep : jsRem (jsAdd (Int z) 1) n = Int ((z + 1) mod Z.of_nat n)).
    { unfold jsRem, jsAdd. destruct (Z.eqb_spec (Z.of_nat n) 0); [lia|].
      now rewrite Z.rem_mod_nonneg by lia. }
    rewrite Hstep.
    pose proof (Z.mod_pos_bound (z + 1) (Z.of_nat n) ltac:(lia)) as Hnext.
    destruct k as [|k].
    + cbn [replicate handleInTurn]. eexists. split; [reflexivity|].
      cbn [activeCameraIndex cameras activeCamera with_keyPressEvents
           with_activeCamera with_activeCameraIndex].
      change (Z.of_nat 1) with 1%Z. repeat split.
      intros _. unfold followCamera. subst n.
      destruct (Z.ltb_spec ((z + 1) mod Z.of_nat (length (cameras w))) 0); [lia|].
      destruct (Z.ltb_spec ((z + 1) mod Z.of_nat (length (cameras w)))
                  (Z.of_nat (length (cameras w)))); [|lia].
      reflexivity.
    + match goal with
      | |- context [handleInTurn _ ?w1] =>
          destruct (IH w1 ((z + 1) mod Z.of_nat n)%Z eq_refl Hnext)
            as (w' & Hrun & Hindex' & Hcameras & Hfollowed)
      end.
      assert (Hsame : (((z + 1) mod Z.of_nat n + Z.of_nat (S k)) mod Z.of_nat n
                       = (z + Z.of_nat (S (S k))) mod Z.of_nat n)%Z).
      { rewrite Zplus_mod_idemp_l. f_equal. lia. }
      cbn [cameras with_keyPressEvents with_activeCamera with_activeCameraIndex]
        in Hindex', Hcameras, Hfollowed.
      fold n in Hindex', Hfollowed. rewrite Hsame in Hindex', Hfollowed.
      exists w'. repeat split; try assumption.
      intros _. apply Hfollowed. discriminate.
Qed.

Lemma replicate_plain (event : KeyEvent) (k : nat) :
  plainEvent event = true -> forallb plainEvent (replicate k event) = true.
Proof. intros H. induction k; cbn; [reflexivity|now rewrite H]. Qed.

(** X27. Next-camera events cycle over the camera list: from a camera
    [z] of the list, a queue of as many next-camera events as there are
    cameras is drained in one tick of the event loop and ends on camera
    [z] again, which the active camera follows. *)
Theorem next_camera_cycles_over_list
    (w : World) (event : KeyEvent) (z : Z) :
  charIs event char_c = true ->
  keyPressEvents w = replicate (length (cameras w)) event ->
  activeCameraIndex w = Int z ->
  (0 <= z < Z.of_nat (length (cameras w)))%Z ->
  exists w' : World,
    processEvents 0 w = Normal w'
    /\ keyPressEvents w' = []
    /\ activeCameraIndex w' = Int z
    /\ Camera.followedCamera (activeCamera w') = Some (Z.to_nat z).
Proof.
  intros Hc Hqueue Hindex Hz.
  assert (Hplain : plainEvent event = true).
  { unfold plainEvent.
    rewrite (charIs_unique event char_c char_0 Hc) by discriminate.
    now rewrite (charIs_unique event char_c char_h Hc) by discriminate. }
  rewrite (processEvents_plain _ w Hqueue (replicate_plain _ _ Hplain)).
  destruct (next_camera_events event (length (cameras w)) w z Hc Hindex Hz)
    as (w' & Hrun & Hindex' & _ & Hfollowed).
  assert (Hback : ((z + Z.of_nat (length (cameras w)))
                   mod Z.of_nat (length (cameras w)) = z)%Z).
  { replace (z + Z.of_nat (length (cameras w)))%Z
      with (z + 1 * Z.of_nat (length (cameras w)))%Z by lia.
    rewrite Z_mod_plus_full. apply Z.mod_small. lia. }
  exists w'. rewrite Hback in Hindex', Hfollowed.
  repeat split; try assumption.
  - now apply (handleInTurn_drains _ w w' Hqueue).
  - apply Hfollowed. lia.
Qed.

(** X28. With an empty camera list a next-camera or previous-camera
    event turns the active camera index into [NaN] and the active camera
    follows none; nothing is thrown, and the index stays [NaN] under
    further such events. *)
Theorem camera_events_on_empty_list
    (w : World) (i : Z) (event : KeyEvent) :
  charIs event char_c = true \/ charIs event char_x = true ->
  cameras w = [] ->
  exists w' : World,
    handleEvent w i event = Normal (w', i)
    /\ activeCameraIndex w' = NaN
    /\ Camera.followedCamera (activeCamera w') = None
    /\ cameras w' = []
    /\ forall (i' : Z) (w'' : World) (i'' : Z),
         handleEvent w' i' event = Normal (w'', i'') -> activeCameraIndex w'' = NaN.
Proof.
  intros Hevent Hempty.
  assert (Hnan : forall a k, jsRem (jsAdd a k) 0 = NaN) by (now intros [|]).
  destruct Hevent as [Hc|Hx].
  - rewrite (handleEvent_next_camera w i event Hc), Hempty.
    eexists. split; [reflexivity|]. cbn [length]. rewrite Hnan.
    cbn. repeat split; try assumption.
    intros i' w'' i''. rewrite (handleEvent_next_camera _ i' event Hc).
    cbn. now intros [= <- _].
  - rewrite (handleEvent_previous_camera w i event Hx), Hempty.
    eexists. split; [reflexivity|]. cbn [length]. rewrite Hnan.
    cbn. repeat split; try assumption.
    intros i' w'' i''. rewrite (handleEvent_previous_camera _ i' event Hx).
    cbn. now intros [= <- _].
Qed.

End DispatcherFurther.

Section TickOrder.
Context {lib : MatrixLib} {api : SpacecraftApi} {scene : Scene}.

(** X29. The event loop of the dispatcher takes the 'o' events too, and
    does nothing with them: after it has run normally on a queue without
    stop-all and hitbox events, a manual controller invoked on the queue it
    leaves finds no event and keeps its flight mode, however many 'o'
    events were queued. *)
Theorem dispatcher_first_loses_mode_toggles
    (w w' : World) (this : FighterController) (controlledEntity : Spacecraft)
    (keys : gmap Z bool) :
  forallb plainEvent (keyPressEvents w) = true ->
  processEvents 0 w = Normal w' ->
  fighter_queue
    (FighterController_control this controlledEntity keys (keyPressEvents w')) = []
  /\ flightMode
       (fighter_after
          (FighterController_control this controlledEntity keys (keyPressEvents w')))
     = flightMode this.
Proof.
  intros Hplain Hrun.
  rewrite (processEvents_plain _ w eq_refl Hplain) in Hrun.
  apply (handleInTurn_drains _ w w' eq_refl) in Hrun. rewrite Hrun.
  unfold FighterController_control. rewrite toggleFlightModes_filter.
  destruct (fighter_throttle _ _ _ _). split; reflexivity.
Qed.

(** X30. A special key (its event has a [which] that is 0, or a
    [charCode] that is 0) has no character. The dispatcher handles its
    event without changing the world. The manual controller, invoked on a
    queue to which the event was pushed, leaves it queued, last, behind
    what it leaves of the queue without it, and ends in the same flight
    mode as without it. *)
Theorem special_keys_have_no_effect
    (w : World) (i : Z) (event : KeyEvent) (code : Z)
    (this : FighterController) (controlledEntity : Spacecraft)
    (keys : gmap Z bool) (queue : list KeyEvent) :
  which event = Some code ->
  code = 0%Z \/ charCode event = 0%Z ->
  handleEvent w i event = Normal (w, i)
  /\ fighter_queue
       (FighterController_control this controlledEntity keys
          (handleKeyPress queue event))
     = fighter_queue (FighterController_control this controlledEntity keys queue)
       ++ [event]
  /\ flightMode
       (fighter_after
          (FighterController_control this controlledEntity keys
             (handleKeyPress queue event)))
     = flightMode
         (fighter_after (FighterController_control this controlledEntity keys queue)).
Proof.
  intros Hwhich Hspecial.
  assert (Hnone : getChar event = None) by (apply getChar_special; eauto).
  assert (Hno : forall c, charIs event c = false)
    by (intros c; unfold charIs; now rewrite Hnone).
  split.
  - unfold handleEvent. rewrite !Hno. reflexivity.
  - unfold FighterController_control, handleKeyPress.
    rewrite !toggleFlightModes_filter.
    do 2 destruct (fighter_throttle _ _ _ _).
    cbn [fighter_queue fighter_after flightMode].
    unfold toggles, notToggle. rewrite !List.filter_app. cbn [List.filter].
    rewrite Hno. cbn [negb]. rewrite app_nil_r. split; reflexivity.
Qed.

End TickOrder.

(** ** The further properties on concrete states *)

Module FurtherRuns.
Import Reference.

(** A key-down event of the key with code [code]. *)
Definition down (code : Z) : KeyEvent :=
  {| which := None; keyCode := code; charCode := 0 |}.

(** The key map with the keys [codes] held. *)
Definition held (codes : list Z) : gmap Z bool :=
  fold_left (fun keys code => handleKeyDown keys (down code)) codes ∅.

Definition compensating : FighterController :=
  {| flightMode := FM_COMPENSATED; intendedSpeed := 3 |}.

(** A craft flying backwards, away from a goal ahead of its nose. *)
Definition receding : Spacecraft := craft (moving 0 (-0.1) 0) None.

(** A free camera moving at (1, -2, 0.05). *)
Definition gliding : Camera.t := camera None [1; -2; 0.05] [0; 0; 0].

(** A world with three cameras, camera [index] active, and one spacecraft
    that has no controller yet. *)
Definition hangar (index : Z) (queue : list KeyEvent) : World :=
  world index queue [craft atRest None].

(** The world [Runs.fleet] with the active camera following camera 1. *)
Definition following (queue : list KeyEvent) : World :=
  with_activeCamera
    (Camera.with_followedCamera (Some 1%nat) (activeCamera (Runs.fleet queue)))
    (Runs.fleet queue).

(** The world [Runs.fleet] without cameras. *)
Definition blind (queue : list KeyEvent) : World :=
  with_cameras [] (Runs.fleet queue).

(** A camera moving like [gliding] and turning, whose direction is not
    controllable. *)
Definition fixedView : Camera.t :=
  {| Camera.controllableDirection := false;
     Camera.controllablePosition := true;
     Camera.position := identity4; Camera.orientation := identity4;
     Camera.velocity := [1; -2; 0.05]; Camera.angularVelocity := [0.05; 0.02; 0];
     Camera.maxSpeed := 5; Camera.acceleration := 0.1;
     Camera.maxTurn := 0.1; Camera.angularAcceleration := 0.01;
     Camera.fov := 45; Camera.followedObject := None;
     Camera.followPosition := translation 0 (-10) 2;
     Camera.followOrientation := identity4;
     Camera.followedCamera := None; Camera.matrix := identity4 |}.

(** The event of the left arrow, a special key. *)
Definition leftArrow : KeyEvent := {| which := Some 0%Z; keyCode := 37; charCode := 0 |}.

End FurtherRuns.

Lemma inertial_throttle_is_half_or_nothing_witness :
  flightMode
    (fighter_after
       (FighterController_control (lib := Reference.matrices)
          (api := Reference.estimators)
          Runs.inertial Runs.drifting (FurtherRuns.held [87%Z]) []))
  = FM_INERTIAL
  /\ callsOn ["forward"]
       (fighter_calls
          (FighterController_control (lib := Reference.matrices)
             (api := Reference.estimators)
             Runs.inertial Runs.drifting (FurtherRuns.held [87%Z]) []))
     = [AddThrusterBurn "forward" 0.5].
Proof.
  refine (conj eq_refl _).
  exact (proj1 (inertial_throttle_is_half_or_nothing (lib := Reference.matrices)
                  (api := Reference.estimators)
                  Runs.inertial Runs.drifting (FurtherRuns.held [87%Z]) [] eq_refl)).
Defined.


Lemma backspace_resets_intended_speed_witness :
  pressed (FurtherRuns.held [87; 8]%Z) 8 = true
  /\ intendedSpeed
       (fighter_after
          (FighterController_control (lib := Reference.matrices)
             (api := Reference.estimators)
             FurtherRuns.compensating Runs.drifting (FurtherRuns.held [87; 8]%Z) []))
     = 0.
Proof.
  refine (conj eq_refl _).
  exact (backspace_resets_intended_speed (lib := Reference.matrices)
           (api := Reference.estimators)
           FurtherRuns.compensating Runs.drifting (FurtherRuns.held [87; 8]%Z) []
           eq_refl eq_refl).
Defined.

Lemma manual_calls_are_capped_burns_witness :
  0 < angularThrust (propulsion Runs.drifting)
  /\ exists burns : list ThrusterCall,
       fighter_calls
         (FighterController_control (lib := Reference.matrices)
            (api := Reference.estimators)
            Runs.inertial Runs.drifting (FurtherRuns.held [70; 37]%Z) [])
       = [Fire] ++ ResetThrusterBurn :: burns
       /\ Forall manualBurn burns.
Proof.
  assert (H0 : 0 < angularThrust (propulsion Runs.drifting)) by by_computation.
  refine (conj H0 _).
  exact (manual_calls_are_capped_burns (lib := Reference.matrices)
           (api := Reference.estimators)
           Runs.inertial Runs.drifting (FurtherRuns.held [70; 37]%Z) [] H0).
Defined.

Lemma manual_turning_rests_in_dead_band_witness :
  Qabs (turningMatrixOf (lib := Reference.matrices) (physicalModel Runs.resting)).[4]
  <= 0.0001
  /\ callsOn turningUses
       (fighter_calls
          (FighterController_control (lib := Reference.matrices)
             (api := Reference.estimators)
             Runs.inertial Runs.resting (FurtherRuns.held [87%Z]) [])) = [].
Proof.
  assert (H4 : Qabs (turningMatrixOf (lib := Reference.matrices)
                       (physicalModel Runs.resting)).[4] <= 0.0001) by by_computation.
  refine (conj H4 _).
  apply (manual_turning_rests_in_dead_band (lib := Reference.matrices)
           (api := Reference.estimators)); [|exact H4|by_computation|by_computation].
  repeat constructor.
Defined.

Lemma autonomous_calls_are_bounded_witness :
  0 < thrust (propulsion Runs.drifting)
  /\ 0 < mass (physicalModel Runs.drifting)
  /\ exists burns : list ThrusterCall,
       AI_calls (AIController_control (lib := Reference.matrices)
                   (api := Reference.estimators) Runs.ahead Runs.drifting)
       = ResetThrusterBurn :: burns
       /\ Forall (autonomousBurn
                    (velocityVectorOf (lib := Reference.matrices)
                       (physicalModel Runs.drifting))) burns.
Proof.
  assert (Ht : 0 < thrust (propulsion Runs.drifting)) by by_computation.
  assert (Hm : 0 < mass (physicalModel Runs.drifting)) by by_computation.
  refine (conj Ht (conj Hm _)).
  exact (autonomous_calls_are_bounded (lib := Reference.matrices)
           (api := Reference.estimators) Runs.ahead Runs.drifting Ht Hm).
Defined.

Lemma idle_craft_at_rest_only_resets_witness :
  speedOf (lib := Reference.matrices) (physicalModel Runs.resting) <= 0
  /\ AI_calls (AIController_control (lib := Reference.matrices)
                 (api := Reference.estimators) Runs.idle Runs.resting)
     = [ResetThrusterBurn].
Proof.
  assert (Hs : speedOf (lib := Reference.matrices) (physicalModel Runs.resting) <= 0)
    by by_computation.
  refine (conj Hs _).
  apply (idle_craft_at_rest_only_resets (lib := Reference.matrices)
           (api := Reference.estimators));
    [reflexivity|exact Hs|by_computation|by_computation|by_computation].
Defined.

Lemma AI_brakes_when_receding_or_too_fast_witness :
  speedTowards (lib := Reference.matrices) (Reference.goalAt 0 10 0)
    (physicalModel FurtherRuns.receding) < 0
  /\ callsOn ["forward"]
       (AI_calls (AIController_control (lib := Reference.matrices)
                    (api := Reference.estimators) Runs.ahead FurtherRuns.receding))
     = [].
Proof.
  assert (Haway : speedTowards (lib := Reference.matrices) (Reference.goalAt 0 10 0)
                    (physicalModel FurtherRuns.receding) < 0) by by_computation.
  refine (conj Haway _).
  refine (proj2 (AI_brakes_when_receding_or_too_fast (lib := Reference.matrices)
                   (api := Reference.estimators)
                   Runs.ahead FurtherRuns.receding _ _ eq_refl _ (or_introl Haway))).
  by_computation.
Defined.

Lemma AI_corrects_drift_witness :
  0 <= speedTowards (lib := Reference.matrices) (Reference.goalAt 0 10 0)
         (physicalModel Runs.drifting)
  /\ speedTowards (lib := Reference.matrices) (Reference.goalAt 0 10 0)
       (physicalModel Runs.drifting)
     < speedOf (lib := Reference.matrices) (physicalModel Runs.drifting) * 0.999
  /\ exists first : Q,
       first < 0
       /\ courseCalls
            (AI_calls (AIController_control (lib := Reference.matrices)
                         (api := Reference.estimators) Runs.ahead Runs.drifting))
          = [AddDirectionalThrusterBurn
               (velocityVectorOf (lib := Reference.matrices)
                  (physicalModel Runs.drifting)) first;
             AddThrusterBurn "forward" 0.375].
Proof.
  assert (Hclosing : 0 <= speedTowards (lib := Reference.matrices)
                            (Reference.goalAt 0 10 0) (physicalModel Runs.drifting))
    by by_computation.
  assert (Hdrift : speedTowards (lib := Reference.matrices) (Reference.goalAt 0 10 0)
                     (physicalModel Runs.drifting)
                   < speedOf (lib := Reference.matrices) (physicalModel Runs.drifting)
                     * 0.999) by by_computation.
  refine (conj Hclosing (conj Hdrift _)).
  assert (Hfar : 0.5 <= distanceTo (lib := Reference.matrices) (Reference.goalAt 0 10 0)
                          (physicalModel Runs.drifting)) by by_computation.
  destruct (AI_corrects_drift (lib := Reference.matrices)
              (api := Reference.estimators)
              Runs.ahead Runs.drifting _ _ eq_refl Hfar Hclosing Hdrift)
    as (first & second & Hbrakes & Hforward & _).
  exists first. split.
  - apply Hbrakes; by_computation.
  - apply Hforward; by_computation.
Defined.

Lemma camera_speed_stays_bounded_witness :
  Camera.velocity FurtherRuns.gliding = [1; -2; 0.05]
  /\ length (Camera.velocity
               (controlCamera (lib := Reference.matrices)
                  (FurtherRuns.held [37; 38]%Z) FurtherRuns.gliding)) = 3%nat.
Proof.
  refine (conj eq_refl _).
  refine (proj1 (camera_speed_stays_bounded (lib := Reference.matrices)
                   (FurtherRuns.held [37; 38]%Z) FurtherRuns.gliding 1 (-2) 0.05
                   eq_refl eq_refl _ _ _)); try by_computation.
  repeat (apply List.Forall_cons || apply List.Forall_nil); by_computation.
Defined.

Lemma camera_velocity_decays_when_keys_released_witness :
  Camera.controllablePosition FurtherRuns.gliding = true
  /\ Forall2 (decayed (Camera.acceleration FurtherRuns.gliding))
       [1; -2; 0.05]
       (Camera.velocity
          (controlCamera (lib := Reference.matrices)
             (FurtherRuns.held [17%Z]) FurtherRuns.gliding)).
Proof.
  refine (conj eq_refl _).
  refine (camera_velocity_decays_when_keys_released (lib := Reference.matrices)
            (FurtherRuns.held [17%Z]) FurtherRuns.gliding 1 (-2) 0.05
            eq_refl eq_refl eq_refl _ _); [by_computation|].
  repeat constructor.
Defined.

Lemma followed_camera_is_controlled_in_place_witness :
  Camera.followedCamera (activeCamera (FurtherRuns.following [])) = Some 1%nat
  /\ length (cameras (controlActiveCamera (lib := Reference.matrices)
                        (FurtherRuns.following [])))
     = length (cameras (FurtherRuns.following [])).
Proof.
  refine (conj eq_refl _).
  exact (proj1 (proj2 (proj2
    (followed_camera_is_controlled_in_place (lib := Reference.matrices)
       (FurtherRuns.following []) 1 _ eq_refl eq_refl)))).
Defined.

Lemma set_manual_installs_fresh_controller_witness :
  charIs (Reference.key char_m) char_m = true
  /\ exists w' : World,
       handleEvent (lib := Reference.matrices) (scene := Reference.scene)
         (FurtherRuns.hangar 1 [Reference.key char_m]) 0 (Reference.key char_m)
       = Normal (w', 0%Z)
       /\ map controller (spacecrafts w')
          = [Some (Manual {| flightMode := FM_INERTIAL; intendedSpeed := 0 |})].
Proof.
  refine (conj eq_refl _).
  destruct (set_manual_installs_fresh_controller (lib := Reference.matrices)
              (scene := Reference.scene)
              (FurtherRuns.hangar 1 [Reference.key char_m]) 0 (Reference.key char_m)
              1 _ eq_refl eq_refl eq_refl eq_refl)
    as (w' & Hrun & _).
  exists w'. split; [exact Hrun|].
  injection Hrun as <-. reflexivity.
Defined.

Lemma set_autonomous_seeds_ten_goals_witness :
  charIs (Reference.key char_n) char_n = true
  /\ exists w' : World,
       handleEvent (lib := Reference.matrices) (scene := Reference.scene)
         (FurtherRuns.hangar 1 [Reference.key char_n]) 0 (Reference.key char_n)
       = Normal (w', 0%Z)
       /\ drawn w' = 30%nat.
Proof.
  refine (conj eq_refl _).
  destruct (set_autonomous_seeds_ten_goals (lib := Reference.matrices)
              (scene := Reference.scene)
              (FurtherRuns.hangar 1 [Reference.key char_n]) 0 (Reference.key char_n)
              1 _ eq_refl eq_refl eq_refl eq_refl)
    as (w' & c & Hrun & _ & _ & Hdrawn & _).
  exists w'. split; [exact Hrun|exact Hdrawn].
Defined.

Lemma set_controller_needs_a_craft_camera_witness :
  jsPositive (activeCameraIndex (FurtherRuns.hangar 0 [Reference.key char_n])) = false
  /\ handleEvent (lib := Reference.matrices) (scene := Reference.scene)
       (FurtherRuns.hangar 0 [Reference.key char_n]) 0 (Reference.key char_n)
     = Normal (FurtherRuns.hangar 0 [Reference.key char_n], 0%Z).
Proof.
  refine (conj eq_refl _).
  exact (set_controller_needs_a_craft_camera (lib := Reference.matrices)
           (scene := Reference.scene)
           (FurtherRuns.hangar 0 [Reference.key char_n]) 0 (Reference.key char_n)
           (or_intror eq_refl) eq_refl).
Defined.

Lemma set_controller_without_craft_throws_witness :
  spacecrafts (FurtherRuns.hangar 2 [Reference.key char_m; Reference.key char_l])
    !! Z.to_nat (2 - 1) = None
  /\ processEvents (lib := Reference.matrices) (scene := Reference.scene) 0
       (FurtherRuns.hangar 2 [Reference.key char_m; Reference.key char_l])
     = Throw (FurtherRuns.hangar 2 [Reference.key char_m; Reference.key char_l]).
Proof.
  refine (conj eq_refl _).
  exact (set_controller_without_craft_throws (lib := Reference.matrices)
           (scene := Reference.scene)
           (FurtherRuns.hangar 2 [Reference.key char_m; Reference.key char_l])
           (Reference.key char_m) [Reference.key char_l] 2
           (or_introl eq_refl) eq_refl eq_refl eq_refl eq_refl).
Defined.

Lemma stop_all_clears_goals_until_missing_controller_witness :
  charIs (Reference.key char_0) char_0 = true
  /\ map controller (spacecrafts (Runs.fleet [Reference.key char_0]))
     = [Some (Autonomous {| goals := [Reference.goalAt 1 2 3] |})]
  /\ exists w' : World,
       handleEvent (lib := Reference.matrices) (scene := Reference.scene)
         (Runs.fleet [Reference.key char_0]) 0 (Reference.key char_0)
       = Normal (w', 1%Z)
       /\ map controller (spacecrafts w') = [Some (Autonomous {| goals := [] |})].
Proof.
  refine (conj eq_refl (conj eq_refl _)).
  eexists. split.
  - apply (proj1 (stop_all_clears_goals_until_missing_controller
                    (lib := Reference.matrices) (scene := Reference.scene)
                    (Runs.fleet [Reference.key char_0]) 0 (Reference.key char_0)
                    eq_refl)).
    repeat constructor. cbn. eauto.
  - reflexivity.
Defined.

Lemma hitbox_event_twice_restores_witness :
  charIs (Reference.key char_h) char_h = true
  /\ exists (w1 : World) (i1 : Z),
       handleEvent (lib := Reference.matrices) (scene := Reference.scene)
         (Runs.fleet []) 0 (Reference.key char_h) = Normal (w1, i1)
       /\ handleEvent (lib := Reference.matrices) (scene := Reference.scene)
            w1 0 (Reference.key char_h) = Normal (Runs.fleet [], i1).
Proof.
  refine (conj eq_refl _).
  destruct (hitbox_event_twice_restores (lib := Reference.matrices)
              (scene := Reference.scene)
              (Runs.fleet []) 0 0 (Reference.key char_h) eq_refl)
    as (w1 & i1 & Hrun & _ & _ & Hback).
  exists w1, i1. split; assumption.
Defined.

Lemma next_camera_cycles_over_list_witness :
  keyPressEvents (Runs.fleet (replicate 3 (Reference.key char_c)))
  = replicate (length (cameras (Runs.fleet (replicate 3 (Reference.key char_c)))))
      (Reference.key char_c)
  /\ exists w' : World,
       processEvents (lib := Reference.matrices) (scene := Reference.scene) 0
         (Runs.fleet (replicate 3 (Reference.key char_c))) = Normal w'
       /\ keyPressEvents w' = []
       /\ activeCameraIndex w' = Int 0
       /\ Camera.followedCamera (activeCamera w') = Some (Z.to_nat 0).
Proof.
  refine (conj eq_refl _).
  apply (next_camera_cycles_over_list (lib := Reference.matrices)
           (scene := Reference.scene)
           (Runs.fleet (replicate 3 (Reference.key char_c))) (Reference.key char_c) 0);
    [reflexivity|reflexivity|reflexivity|cbn; lia].
Defined.

Lemma camera_events_on_empty_list_witness :
  cameras (FurtherRuns.blind []) = []
  /\ exists w' : World,
       handleEvent (lib := Reference.matrices) (scene := Reference.scene)
         (FurtherRuns.blind []) 0 (Reference.key char_x) = Normal (w', 0%Z)
       /\ activeCameraIndex w' = NaN.
Proof.
  refine (conj eq_refl _).
  destruct (camera_events_on_empty_list (lib := Reference.matrices)
              (scene := Reference.scene)
              (FurtherRuns.blind []) 0 (Reference.key char_x)
              (or_intror eq_refl) eq_refl)
    as (w' & Hrun & Hnan & _).
  exists w'. split; assumption.
Defined.

Lemma dispatcher_first_loses_mode_toggles_witness :
  forallb plainEvent
    (keyPressEvents (Runs.fleet [Reference.key char_o; Reference.key char_c])) = true
  /\ flightMode
       (fighter_after
          (FighterController_control (lib := Reference.matrices)
             (api := Reference.estimators) Runs.inertial Runs.drifting ∅
             (keyPressEvents
                (worldOf
                   (processEvents (lib := Reference.matrices)
                      (scene := Reference.scene) 0
                      (Runs.fleet [Reference.key char_o; Reference.key char_c]))
                   id))))
     = flightMode Runs.inertial.
Proof.
  refine (conj eq_refl _).
  refine (proj2 (dispatcher_first_loses_mode_toggles (lib := Reference.matrices)
                   (api := Reference.estimators) (scene := Reference.scene)
                   (Runs.fleet [Reference.key char_o; Reference.key char_c]) _
                   Runs.inertial Runs.drifting ∅ eq_refl _)).
  vm_compute. reflexivity.
Defined.

Lemma special_keys_have_no_effect_witness :
  which FurtherRuns.leftArrow = Some 0%Z
  /\ handleEvent (lib := Reference.matrices) (scene := Reference.scene)
       (Runs.fleet [FurtherRuns.leftArrow]) 0 FurtherRuns.leftArrow
     = Normal (Runs.fleet [FurtherRuns.leftArrow], 0%Z)
  /\ fighter_queue
       (FighterController_control (lib := Reference.matrices)
          (api := Reference.estimators) Runs.inertial Runs.drifting ∅
          (handleKeyPress [Reference.key char_o] FurtherRuns.leftArrow))
     = [FurtherRuns.leftArrow].
Proof.
  refine (conj eq_refl _).
  destruct (special_keys_have_no_effect (lib := Reference.matrices)
              (api := Reference.estimators) (scene := Reference.scene)
              (Runs.fleet [FurtherRuns.leftArrow]) 0 FurtherRuns.leftArrow 0
              Runs.inertial Runs.drifting ∅ [Reference.key char_o]
              eq_refl (or_introl eq_refl))
    as (Hworld & Hqueue & _).
  exact (conj Hworld Hqueue).
Defined.

Lemma key_state_follows_events_witness :
  83%Z <> keyCode (FurtherRuns.down 65)
  /\ pressed (handleKeyDown (FurtherRuns.held [83%Z]) (FurtherRuns.down 65)) 83
     = pressed (FurtherRuns.held [83%Z]) 83.
Proof.
  assert (Hother : 83%Z <> keyCode (FurtherRuns.down 65)) by by_computation.
  refine (conj Hother _).
  exact (proj1 (proj1 (proj2 (proj2
           (key_state_follows_events (FurtherRuns.held [83%Z]) (FurtherRuns.down 65))))
           83%Z Hother)).
Defined.

Lemma manual_yaw_respects_turning_limit_witness :
  pressed Runs.leftHeld 37 = true
  /\ - TURNING_LIMIT
     < (turningMatrixOf (lib := Reference.matrices) (physicalModel Runs.resting)).[4]
  /\ callsOn ["yawLeft"; "yawRight"]
       (fighter_calls
          (FighterController_control (lib := Reference.matrices)
             (api := Reference.estimators)
             Runs.inertial Runs.resting Runs.leftHeld []))
     = [AddThrusterBurn "yawLeft" 0.5].
Proof.
  assert (Hbelow : - TURNING_LIMIT
                   < (turningMatrixOf (lib := Reference.matrices)
                        (physicalModel Runs.resting)).[4]) by by_computation.
  refine (conj eq_refl (conj Hbelow _)).
  exact (proj2 (proj2
           (manual_yaw_respects_turning_limit (lib := Reference.matrices)
              (api := Reference.estimators)
              Runs.inertial Runs.resting Runs.leftHeld []))
           eq_refl Hbelow).
Defined.

Lemma roll_damping_ignores_goals_witness :
  Qabs (turningMatrixOf (lib := Reference.matrices) (physicalModel Runs.resting)).[2]
  <= 0.0001
  /\ callsOn ["rollLeft"; "rollRight"]
       (AI_calls (AIController_control (lib := Reference.matrices)
                    (api := Reference.estimators) Runs.ahead Runs.resting)) = [].
Proof.
  assert (Hband : Qabs (turningMatrixOf (lib := Reference.matrices)
                          (physicalModel Runs.resting)).[2] <= 0.0001)
    by by_computation.
  refine (conj Hband _).
  exact (proj2 (roll_damping_ignores_goals (lib := Reference.matrices)
                  (api := Reference.estimators)
                  Runs.ahead Runs.idle Runs.resting) Hband).
Defined.

Lemma AI_goals_are_first_in_first_out_witness :
  0.5 <= distanceTo (lib := Reference.matrices) (Reference.goalAt 0 10 0)
           (physicalModel Runs.drifting)
  /\ goals (AI_after (AIController_control (lib := Reference.matrices)
                        (api := Reference.estimators) Runs.ahead Runs.drifting))
     = [Reference.goalAt 0 10 0; Reference.goalAt 5 5 5].
Proof.
  assert (Hfar : 0.5 <= distanceTo (lib := Reference.matrices) (Reference.goalAt 0 10 0)
                          (physicalModel Runs.drifting)) by by_computation.
  refine (conj Hfar _).
  pose proof (AI_goals_are_first_in_first_out (lib := Reference.matrices)
                (api := Reference.estimators) Runs.ahead Runs.drifting) as Hfifo.
  cbn [goals Runs.ahead] in Hfifo.
  exact (proj2 Hfifo Hfar).
Defined.

Lemma controlCamera_leaves_bindings_and_limits_witness :
  Camera.controllableDirection FurtherRuns.fixedView = false
  /\ Camera.angularVelocity
       (controlCamera (lib := Reference.matrices)
          (FurtherRuns.held [37; 38]%Z) FurtherRuns.fixedView)
     = [0.05; 0.02; 0].
Proof.
  refine (conj eq_refl _).
  exact (proj2 (proj2 (proj2 (proj2 (proj2 (proj2 (proj2
           (controlCamera_leaves_bindings_and_limits (lib := Reference.matrices)
              (FurtherRuns.held [37; 38]%Z) FurtherRuns.fixedView)))))))
           eq_refl).
Defined.

Lemma fighter_control_after_key_press_witness :
  charIs (Reference.key char_o) char_o = true
  /\ (0 <= flightMode FurtherRuns.compensating < NUM_FLIGHTMODES)%Z
  /\ flightMode
       (fighter_after
          (FighterController_control (lib := Reference.matrices)
             (api := Reference.estimators)
             FurtherRuns.compensating Runs.drifting ∅
             (handleKeyPress [Reference.key char_c] (Reference.key char_o))))
     = FM_INERTIAL.
Proof.
  assert (Hmode : (0 <= flightMode FurtherRuns.compensating < NUM_FLIGHTMODES)%Z)
    by (split; by_computation).
  refine (conj eq_refl (conj Hmode _)).
  exact (proj2 (proj2
           (fighter_control_after_key_press (lib := Reference.matrices)
              (api := Reference.estimators)
              FurtherRuns.compensating Runs.drifting ∅
              [Reference.key char_c] (Reference.key char_o)))
           eq_refl Hmode).
Defined.
